(** * Subtitle retrieval-and-caching engine: a shallow embedding

    The development follows the Python sources module by module:
    [subtitle/api_manager.py] (rate limiter, the two provider clients, the
    aggregation manager), [subtitle/processor.py], [subtitle/cache_manager.py],
    [subtitle/storage.py] and [database/subtitle_db.py].

    Conventions.
    - Python [int] is [Z]; [str] is [string] (8-bit characters, case mapping
      on the ASCII letters); [bytes] is [string] as well.
    - A dictionary read from JSON keeps, per key, whether the key is absent,
      present with [None], or present with a value ([field]).
    - A call either returns, raises an [Exception], or never returns
      ([outcome]); [BaseException]s that are not [Exception]s (task
      cancellation, interpreter exit) are outside the model.
    - Effects the claims talk about (sleeping, logging) are recorded as a
      list of [event]s next to the outcome ([run]). *)

From Stdlib Require Import ZArith QArith List String Ascii Bool Lia Sorted.
From Stdlib Require Import DecimalString DecimalZ.
From stdpp Require Import base option list strings gmap.

Local Open Scope string_scope.
Local Open Scope list_scope.
Local Open Scope Z_scope.

(** ** Python values *)

Inductive field (A : Type) : Type :=
| Absent
| Null
| Val (a : A).
Arguments Absent {A}.
Arguments Null {A}.
Arguments Val {A} a.

(** [d.get(k, default)]: the default only replaces an absent key; a key
    present with [None] yields [None]. *)
Definition get_or {A : Type} (f : field A) (default : A) : option A :=
  match f with
  | Absent => Some default
  | Null => None
  | Val a => Some a
  end.

(** [d.get(k)]. *)
Definition get {A : Type} (f : field A) : option A :=
  match f with
  | Val a => Some a
  | _ => None
  end.

(** Storing a possibly-[None] value under a key. *)
Definition stored {A : Type} (o : option A) : field A :=
  match o with
  | Some a => Val a
  | None => Null
  end.

(** [f"{v}"] for a string-or-[None] value. *)
Definition fmt (o : option string) : string :=
  match o with
  | Some s => s
  | None => "None"
  end.

Record exn : Type := Exception { exn_class : string; exn_text : string }.

Inductive outcome (A : Type) : Type :=
| Return (a : A)
| Raise (e : exn)
| Hang.
Arguments Return {A} a.
Arguments Raise {A} e.
Arguments Hang {A}.

Inductive level : Type := Debug' | Info' | Warning' | Error'.

(** Instants ([datetime]) and durations are counted in microseconds, the
    resolution of [datetime]; [seconds n] is the duration of [n] seconds. *)
Definition seconds (n : Z) : Z := n * 1000000.

Inductive event : Type :=
| EvSleep (micros : Z)
| EvLog (lvl : level) (msg : string).

(** A finished (or hung) computation: what it did, and how it ended. *)
Definition run (A : Type) : Type := (list event * outcome A)%type.

Definition ret {A : Type} (a : A) : run A := ([], Return a).
Definition raise {A : Type} (e : exn) : run A := ([], Raise e).
Definition emit (ev : event) : run unit := ([ev], Return tt).
Definition sleep (micros : Z) : run unit := emit (EvSleep micros).
Definition log (lvl : level) (msg : string) : run unit := emit (EvLog lvl msg).

Definition bind {A B : Type} (m : run A) (k : A -> run B) : run B :=
  match m with
  | (tr, Return a) => let '(tr', o) := k a in (tr ++ tr', o)
  | (tr, Raise e) => (tr, Raise e)
  | (tr, Hang) => (tr, Hang)
  end.

(** [try: m except Exception as e: h e]. *)
Definition try_except {A : Type} (m : run A) (h : exn -> run A) : run A :=
  match m with
  | (tr, Raise e) => let '(tr', o) := h e in (tr ++ tr', o)
  | other => other
  end.

Declare Scope run_scope.
Delimit Scope run_scope with run.
Notation "'do' x <- m ; k" := (bind m (fun x => k))
  (at level 10, x name, m at level 100, k at level 200) : run_scope.
Notation "'do' ' pat <- m ; k" := (bind m (fun x => match x with pat => k end))
  (at level 10, pat pattern, m at level 100, k at level 200) : run_scope.
Notation "'exec' m ; k" := (bind m (fun _ => k))
  (at level 10, m at level 100, k at level 200) : run_scope.
Local Open Scope run_scope.

Definition lift {A : Type} (o : outcome A) : run A := ([], o).

Definition events {A : Type} (m : run A) : list event := fst m.
Definition ending {A : Type} (m : run A) : outcome A := snd m.

(** The sleeps, and the log lines, of a trace. *)
Definition sleeps (tr : list event) : list Z :=
  omap (fun ev => match ev with EvSleep s => Some s | _ => None end) tr.

Definition log_lines (tr : list event) : list string :=
  omap (fun ev => match ev with EvLog _ msg => Some msg | _ => None end) tr.

Definition slept {A : Type} (m : run A) : list Z := sleeps (events m).
Definition logged {A : Type} (m : run A) : list string := log_lines (events m).

Definition raises {A : Type} (m : run A) : Prop :=
  exists e, ending m = Raise e.

(** ** Text *)

Definition lower_char (c : ascii) : ascii :=
  let n := N_of_ascii c in
  if ((65 <=? n) && (n <=? 90))%N then ascii_of_N (n + 32) else c.

(** [s.lower()]. *)
Fixpoint lower (s : string) : string :=
  match s with
  | EmptyString => EmptyString
  | String c s' => String (lower_char c) (lower s')
  end.

(** [s.startswith(p)]. *)
Fixpoint startswith (s p : string) : bool :=
  match p, s with
  | EmptyString, _ => true
  | String _ _, EmptyString => false
  | String a p', String b s' => if Ascii.eqb a b then startswith s' p' else false
  end.

(** [p in s] for strings. *)
Fixpoint contains (p s : string) : bool :=
  startswith s p ||
  match s with
  | EmptyString => false
  | String _ s' => contains p s'
  end.

(** [s[:n]]. *)
Fixpoint take_chars (n : nat) (s : string) : string :=
  match n, s with
  | S n', String c s' => String c (take_chars n' s')
  | _, _ => EmptyString
  end.

(** [s.split(sep)] for a one-character separator. *)
Fixpoint split_on (sep : ascii) (s : string) : list string :=
  match s with
  | EmptyString => [EmptyString]
  | String c s' =>
      if Ascii.eqb c sep then EmptyString :: split_on sep s'
      else match split_on sep s' with
           | [] => [String c EmptyString]
           | w :: ws => String c w :: ws
           end
  end.

(** [sorted(l, key=key, reverse=True)]: descending by key, and stable (equal
    keys keep their order in [l]). *)
Fixpoint insert_desc {A : Type} (key : A -> Z) (x : A) (l : list A) : list A :=
  match l with
  | [] => [x]
  | y :: ys => if key x <? key y then y :: insert_desc key x ys else x :: y :: ys
  end.

Definition sorted_desc {A : Type} (key : A -> Z) (l : list A) : list A :=
  foldr (insert_desc key) [] l.

(** [if s:] for a string-or-[None] value. *)
Definition truthy (o : option string) : bool :=
  match o with
  | Some s => negb (String.eqb s "")
  | None => false
  end.

(** [str(n)] for an [int]: decimal, with a minus sign when negative. *)
Definition str_int (n : Z) : string := NilZero.string_of_int (Z.to_int n).

(** [f"{n:0{width}d}"]: decimal, padded with zeros after the sign up to
    [width] characters. *)
Definition format_d (width : nat) (n : Z) : string :=
  let digits := str_int (Z.abs n) in
  let sign := if n <? 0 then "-" else "" in
  let zeros := String.concat "" (repeat "0" (width - String.length sign - String.length digits)) in
  sign +:+ zeros +:+ digits.

(** The last [n] characters of [s]: what [f.seek(-n, 2)] followed by
    [f.read(n)] reads from a file of at least [n] bytes. *)
Definition last_chars (n : nat) (s : string) : string :=
  substring (String.length s - n) n s.

(** * subtitle/api_manager.py *)

(** One entry of a provider's result list (a [dict]). The token-auth
    provider sets every key, some possibly to [None]; the hash-lookup
    provider sets neither ['filename'], ['release'] nor ['url']. *)
Record search_result : Type := mk_result {
  sr_id : field string;
  sr_language : field string;
  sr_download_count : Z;
  sr_release : field string;
  sr_filename : field string;
  sr_url : field string;
  sr_format : string;
  sr_provider : string;
  sr_quality_score : Z
}.

(** ** class RateLimiter *)

Module RateLimiter.

(** [lock_held] is the state of [self.lock], an [asyncio.Lock]: it has no
    owner and is not re-entrant. *)
Record t : Type := mk {
  max_calls : Z;
  time_window : Z;
  calls : list Z;
  lock_held : bool
}.

Definition init (max_calls time_window : Z) : t :=
  mk max_calls time_window [] false.

Definition set_calls (cs : list Z) (self : t) : t :=
  mk (max_calls self) (time_window self) cs (lock_held self).

Definition set_lock (b : bool) (self : t) : t :=
  mk (max_calls self) (time_window self) (calls self) b.

(** [(now - call_time).total_seconds() < self.time_window]. *)
Definition in_window (self : t) (now call_time : Z) : bool :=
  now - call_time <? seconds (time_window self).

Definition IndexError : exn := Exception "IndexError" "list index out of range".

(** [acquire]. [now] is what [datetime.now()] returns on entry; after
    [asyncio.sleep(d)] the clock reads [now + d]. A caller that finds the
    lock held is parked until a release; the one release is at the exit of
    the [async with] block, so a call that waits for the lock its own
    caller holds never returns ([Hang]). [None] is the model running out
    of [fuel]. *)
Fixpoint acquire (fuel : nat) (self : t) (now : Z) : option (run unit * t) :=
  match fuel with
  | O => None
  | S fuel' =>
      if lock_held self then Some (([], Hang), self)
      else
        let kept := filter (fun c => in_window self now c = true) (calls self) in
        let self1 := set_calls kept (set_lock true self) in
        let append := Some (ret tt, set_lock false (set_calls (kept ++ [now]) self1)) in
        if Z.of_nat (length kept) >=? max_calls self then
          match kept with
          | [] => Some (raise IndexError, set_lock false self1)
          | c0 :: _ =>
              let sleep_time := seconds (time_window self) - (now - c0) in
              if 0 <? sleep_time then
                match acquire fuel' self1 (now + sleep_time) with
                | Some ((tr, Hang), self2) => Some ((EvSleep sleep_time :: tr, Hang), self2)
                | Some ((tr, o), self2) => Some ((EvSleep sleep_time :: tr, o), set_lock false self2)
                | None => None
                end
              else append
          end
        else append
  end.

(** The nested call is parked at once, so two levels always suffice
    ([acquire_fuel] below); [call] is [await limiter.acquire()]. *)
Definition call (self : t) (now : Z) : run unit * t :=
  match acquire 2 self now with
  | Some r => r
  | None => (lift Hang, self)
  end.

End RateLimiter.

(** ** class OpenSubtitlesAPI (the token-auth provider) *)

Module OpenSubtitlesAPI.

(** The JSON of one search hit, as far as the client reads it. *)
Record file_entry : Type := { file_name : field string }.

Record attributes : Type := {
  language : field string;
  download_count : field Z;
  release : field string;
  files : field (list file_entry);
  url : field string
}.

Record item : Type := { id : field string; attributes_of : field attributes }.

Definition no_attributes : attributes :=
  {| language := Absent; download_count := Absent; release := Absent;
     files := Absent; url := Absent |}.

Definition TypeError : exn := Exception "TypeError" "unsupported operand type(s)".
Definition AttributeError : exn :=
  Exception "AttributeError" "'NoneType' object has no attribute".
Definition IndexError : exn := Exception "IndexError" "list index out of range".

(** [x = d.get(k, default)] followed by a use of [x] that [None] does not
    support. *)
Definition need {A : Type} (o : option A) (e : exn) : run A :=
  match o with
  | Some a => ret a
  | None => raise e
  end.

Definition release_terms : list string := ["bluray"; "web-dl"; "webrip"].

Definition _calculate_quality_score (a : attributes) : run Z :=
  let score := 0 in
  do download_count <- need (get_or (download_count a) 0) TypeError;
  let score := score + download_count * 10 in
  do release <- need (get_or (release a) "") AttributeError;
  let release := lower release in
  let score :=
    if existsb (fun term => contains term release) release_terms
    then score + 100 else score in
  ret score.

(** The dictionary built for one hit; any exception while building it is
    the caller's to catch. *)
Definition process_item (it : item) : run search_result :=
  do a <- need (get_or (attributes_of it) no_attributes) AttributeError;
  do fs <- need (get_or (files a) [ {| file_name := Absent |} ]) TypeError;
  do f0 <- need (head fs) IndexError;
  do score <- _calculate_quality_score a;
  do dc <- need (get_or (download_count a) 0) TypeError;
  ret {| sr_id := stored (get (id it));
         sr_language := stored (get (language a));
         sr_download_count := dc;
         sr_release := stored (get_or (release a) "");
         sr_filename := stored (get_or (file_name f0) "");
         sr_url := stored (get_or (url a) "");
         sr_format := "srt";
         sr_provider := "opensubtitles";
         sr_quality_score := score |}.

Fixpoint process_items (results : list item) : run (list search_result) :=
  match results with
  | [] => ret []
  | it :: rest =>
      do r <- try_except
                (do x <- process_item it; ret (Some x))
                (fun e => exec log Error' ("Error processing result: " +:+ exn_text e);
                          ret None);
      do processed <- process_items rest;
      ret (match r with Some x => x :: processed | None => processed end)
  end.

Definition _process_search_results (results : list item) : run (list search_result) :=
  do processed <- process_items results;
  ret (sorted_desc sr_quality_score processed).

(** *** The client and the HTTP exchange

    What the remote end answers is an input: each reply is either a
    response or the exception [aiohttp] raises instead. *)

Record login_reply : Type := {
  login_status : Z;
  login_token : outcome (field string)   (* [(await response.json()).get('token')] *)
}.

Record search_reply : Type := {
  search_status : Z;
  search_data : outcome (field (list item))   (* [(await response.json())] at ['data'] *)
}.

Record download_reply : Type := {
  download_status : Z;
  download_link : outcome (field string)
}.

Record file_reply : Type := {
  file_status : Z;
  file_body : outcome string
}.

Record network : Type := {
  on_login : outcome login_reply;
  on_search : outcome search_reply;
  on_download : outcome download_reply;
  on_file : outcome file_reply
}.

Record t : Type := mk {
  api_key : option string;
  username : option string;
  password : option string;
  token : option string;
  token_expires : option Z;
  rate_limiter : RateLimiter.t
}.

Definition set_token (tok : option string) (expires : option Z) (self : t) : t :=
  mk (api_key self) (username self) (password self) tok expires (rate_limiter self).

Definition set_rate_limiter (rl : RateLimiter.t) (self : t) : t :=
  mk (api_key self) (username self) (password self)
     (token self) (token_expires self) rl.

Definition _login (self : t) (net : network) (now : Z) : run bool * t :=
  if negb (truthy (api_key self)) || negb (truthy (username self))
     || negb (truthy (password self))
  then (exec log Warning' "OpenSubtitles credentials not provided"; ret false, self)
  else
    match on_login net with
    | Return r =>
        if login_status r =? 200 then
          match login_token r with
          | Return tok =>
              (exec log Info' "Successfully logged in to OpenSubtitles"; ret true,
               set_token (get tok) (Some (now + seconds (23 * 3600))) self)
          | Raise e => (exec log Error' ("Login error: " +:+ exn_text e); ret false, self)
          | Hang => (lift Hang, self)
          end
        else (exec log Error' "Login failed"; ret false, self)
    | Raise e => (exec log Error' ("Login error: " +:+ exn_text e); ret false, self)
    | Hang => (lift Hang, self)
    end.

Definition _ensure_authenticated (self : t) (net : network) (now : Z) : run bool * t :=
  if negb (truthy (token self))
     || match token_expires self with
        | Some expires => expires <=? now
        | None => false
        end
  then _login self net now
  else (ret true, self).

(** The [try] block of [search_subtitles]: the request and the branch on
    the response status. *)
Definition search_request (net : network) (imdb_id query : option string)
  : run (list search_result) :=
  try_except
    (if truthy imdb_id || truthy query then
       do response <- lift (on_search net);
       if search_status response =? 200 then
         do data <- lift (search_data response);
         do results <- need (get_or data []) TypeError;
         _process_search_results results
       else if search_status response =? 429 then
         exec log Warning' "Rate limit exceeded";
         exec sleep (seconds 60);
         ret []
       else
         exec log Error' "Search failed";
         ret []
     else ret [])
    (fun e => exec log Error' ("Search error: " +:+ exn_text e); ret []).

(** Runs [rest] once [self.rate_limiter.acquire()] has returned. *)
Definition after_acquire {A : Type} (self : t) (now : Z)
    (rest : t -> run A * t) : run A * t :=
  let '((tr, o), rl) := RateLimiter.call (rate_limiter self) now in
  let self1 := set_rate_limiter rl self in
  match o with
  | Return _ => let '((tr', o'), self2) := rest self1 in ((tr ++ tr', o'), self2)
  | Raise e => ((tr, Raise e), self1)
  | Hang => ((tr, Hang), self1)
  end.

Definition search_subtitles (self : t) (net : network) (now : Z)
    (imdb_id : option string) (language : string) (query : option string)
  : run (list search_result) * t :=
  after_acquire self now (fun self1 =>
    let '(auth, self2) := _ensure_authenticated self1 net now in
    (do ok <- auth;
     if ok then search_request net imdb_id query
     else exec log Error' "Authentication failed"; ret [],
     self2)).

(** The [try] block of [download_subtitle]. *)
Definition download_request (net : network) : run (option string) :=
  try_except
    (do response <- lift (on_download net);
     do got <-
       (if download_status response =? 200 then
          do link <- lift (download_link response);
          if truthy (get link) then
            do file_response <- lift (on_file net);
            if file_status file_response =? 200 then
              do body <- lift (file_body file_response);
              ret (Some body)
            else ret None
          else ret None
        else ret None);
     match got with
     | Some body => ret (Some body)
     | None => exec log Error' "Download failed"; ret None
     end)
    (fun e => exec log Error' ("Download error: " +:+ exn_text e); ret None).

Definition download_subtitle (self : t) (net : network) (now : Z)
    (subtitle_id : option string) : run (option string) * t :=
  after_acquire self now (fun self1 =>
    let '(auth, self2) := _ensure_authenticated self1 net now in
    (do ok <- auth;
     if ok then download_request net
     else exec log Error' "Authentication failed"; ret None,
     self2)).

End OpenSubtitlesAPI.

(** ** class SubDBAPI (the hash-lookup provider) *)

Module SubDBAPI.

Record reply : Type := {
  status : Z;
  body : outcome string   (* [await response.text()] / [await response.read()] *)
}.

Record network : Type := {
  on_search : outcome reply;
  on_download : outcome reply
}.

Definition OSError : exn := Exception "OSError" "[Errno 22] Invalid argument".

(** [_calculate_file_hash]. [file] is what opening the path and reading
    it gives: the bytes of the file, or the exception raised instead;
    [md5_hexdigest] is [hashlib.md5(data).hexdigest()]. Seeking to 64 KiB
    before the end of a shorter file raises [OSError]. *)
Definition _calculate_file_hash (md5_hexdigest : string -> string) (file : outcome string)
  : run (option string) :=
  try_except
    (let readsize := (64 * 1024)%nat in
     do content <- lift file;
     let data := take_chars readsize content in
     if (String.length content <? readsize)%nat then raise OSError
     else
       let data := data +:+ last_chars readsize content in
       ret (Some (md5_hexdigest data)))
    (fun e => exec log Error' ("Hash calculation error: " +:+ exn_text e); ret None).

Definition search_by_hash (net : network) (file_hash language : string)
  : run (list search_result) :=
  try_except
    (do response <- lift (on_search net);
     if status response =? 200 then
       do languages <- lift (body response);
       if existsb (String.eqb language) (split_on "," languages) then
         ret [ {| sr_id := Val file_hash;
                  sr_language := Val language;
                  sr_download_count := 0;
                  sr_release := Absent;
                  sr_filename := Absent;
                  sr_url := Absent;
                  sr_format := "srt";
                  sr_provider := "subdb";
                  sr_quality_score := 50 |} ]
       else ret []
     else ret [])
    (fun e => exec log Error' ("SubDB search error: " +:+ exn_text e); ret []).

Definition download_subtitle (net : network) (file_hash language : string)
  : run (option string) :=
  try_except
    (do response <- lift (on_download net);
     if status response =? 200 then
       do content <- lift (body response);
       ret (Some content)
     else ret None)
    (fun e => exec log Error' ("SubDB download error: " +:+ exn_text e); ret None).

End SubDBAPI.

(** ** class SubtitleAPIManager (the aggregation manager) *)

Module SubtitleAPIManager.

Record t : Type := mk {
  opensubtitles : option OpenSubtitlesAPI.t;
  retry_attempts : Z;
  retry_delay : Z
}.

Definition set_opensubtitles (os : option OpenSubtitlesAPI.t) (self : t) : t :=
  mk os (retry_attempts self) (retry_delay self).

(** What the outside world answers to the [k]-th call of an operation
    under the retry helper, and what the clock reads then. *)
Record environment : Type := {
  os_network : nat -> OpenSubtitlesAPI.network;
  subdb_network : nat -> SubDBAPI.network;
  clock : nat -> Z
}.

(** [raise last_exception] with [last_exception = None]. *)
Definition RaiseNone : exn :=
  Exception "TypeError" "exceptions must derive from BaseException".

(** The [for attempt in range(self.retry_attempts)] loop of
    [_retry_operation], over the attempts still to run. The operation is
    told which attempt it is and updates the state of its provider. *)
Fixpoint retry_loop {St A : Type} (retry_attempts retry_delay : Z)
    (operation : nat -> St -> run A * St)
    (attempts : list nat) (last_exception : option exn) (st : St) : run A * St :=
  match attempts with
  | [] =>
      (raise (match last_exception with Some e => e | None => RaiseNone end), st)
  | attempt :: rest =>
      match operation attempt st with
      | ((tr, Raise e), st1) =>
          let handler :=
            if Z.of_nat attempt <? retry_attempts - 1 then
              let wait_time := retry_delay * 2 ^ Z.of_nat attempt in
              [EvLog Warning' ("Attempt failed, retrying: " +:+ exn_text e);
               EvSleep (seconds wait_time)]
            else [EvLog Error' ("All attempts failed: " +:+ exn_text e)] in
          let '((tr', o), st2) :=
            retry_loop retry_attempts retry_delay operation rest (Some e) st1 in
          ((tr ++ handler ++ tr', o), st2)
      | returned_or_hung => returned_or_hung
      end
  end.

Definition _retry_operation {St A : Type} (self : t)
    (operation : nat -> St -> run A * St) (st : St) : run A * St :=
  retry_loop (retry_attempts self) (retry_delay self) operation
    (seq 0 (Z.to_nat (retry_attempts self))) None st.

(** [f"{result.get('filename', '')}_{result.get('language', '')}"]. *)
Definition dedup_key (r : search_result) : string :=
  fmt (get_or (sr_filename r) "") +:+ "_" +:+ fmt (get_or (sr_language r) "").

Definition dedup_step (acc : gset string * list search_result) (r : search_result)
  : gset string * list search_result :=
  let '(seen, unique_results) := acc in
  let key := dedup_key r in
  if decide (key ∈ seen) then (seen, unique_results)
  else ({[ key ]} ∪ seen, unique_results ++ [r]).

Definition _deduplicate_results (results : list search_result) : list search_result :=
  snd (foldl dedup_step (∅, []) results).

(** [try: all_results.extend(await m); log ... except Exception: log ...]. *)
Definition extend_with (all_results : list search_result) (label : string)
    (m : run (list search_result)) : run (list search_result) :=
  try_except
    (do found <- m;
     exec log Info' (label +:+ " found results");
     ret (all_results ++ found))
    (fun e => exec log Error' (label +:+ " search failed: " +:+ exn_text e);
              ret all_results).

Definition search_subtitles (self : t) (env : environment)
    (movie_title : string) (imdb_id : option string)
    (language : string) (file_hash : option string)
  : run (list search_result) * t :=
  let all_results := [] in
  let '(after_os, self1) :=
    match opensubtitles self with
    | Some os =>
        let '(m, os1) :=
          _retry_operation self
            (fun k os => OpenSubtitlesAPI.search_subtitles os (os_network env k)
                           (clock env k) imdb_id language (Some movie_title)) os in
        (extend_with all_results "OpenSubtitles" m, set_opensubtitles (Some os1) self)
    | None => (ret all_results, self)
    end in
  (do all_results <- after_os;
   do all_results <-
     (if truthy file_hash && (Z.of_nat (length all_results) <? 3) then
        extend_with all_results "SubDB"
          (fst (_retry_operation self
                  (fun k (_ : unit) =>
                     (SubDBAPI.search_by_hash (subdb_network env k)
                        (fmt file_hash) language, tt)) tt))
      else ret all_results);
   let unique_results := _deduplicate_results all_results in
   ret (sorted_desc sr_quality_score unique_results),
   self1).

Definition KeyError : exn := Exception "KeyError" "missing key".

Definition download_failed (e : exn) : run (option string) :=
  exec log Error' ("Download failed: " +:+ exn_text e); ret None.

(** [await self._retry_operation(self.subdb.download_subtitle,
    subtitle_info['id'], subtitle_info['language'])], inside the [try]. *)
Definition download_from_subdb (self : t) (env : environment)
    (subtitle_info : search_result) : run (option string) :=
  match sr_id subtitle_info, sr_language subtitle_info with
  | Absent, _ | _, Absent => try_except (raise KeyError) download_failed
  | id, language =>
      try_except
        (fst (_retry_operation self
                (fun k (_ : unit) =>
                   (SubDBAPI.download_subtitle (subdb_network env k)
                      (fmt (get id)) (fmt (get language)), tt)) tt))
        download_failed
  end.

Definition download_subtitle_content (self : t) (env : environment)
    (subtitle_info : search_result) : run (option string) * t :=
  let provider := sr_provider subtitle_info in
  match String.eqb provider "opensubtitles", opensubtitles self with
  | true, Some os =>
      match sr_id subtitle_info with
      | Absent => (try_except (raise KeyError) download_failed, self)
      | id =>
          let '(m, os1) :=
            _retry_operation self
              (fun k os => OpenSubtitlesAPI.download_subtitle os (os_network env k)
                             (clock env k) (get id)) os in
          (try_except m download_failed, set_opensubtitles (Some os1) self)
      end
  | _, _ =>
      if String.eqb provider "subdb" then (download_from_subdb self env subtitle_info, self)
      else (exec log Error' "Unknown provider"; ret None, self)
  end.

End SubtitleAPIManager.

(** * subtitle/processor.py *)

(** What a library call yields: a value, or the exception it raises. *)
Inductive fallible (A : Type) : Type :=
| Ok (a : A)
| Fail (e : exn).
Arguments Ok {A} a.
Arguments Fail {A} e.

Definition call {A : Type} (f : fallible A) : run A :=
  match f with
  | Ok a => ret a
  | Fail e => raise e
  end.

Module SubtitleProcessor.

(** *** The regular expressions

    [\d] and [\s] as [re] reads them on [str], for the code points below
    256: the decimal digits are ['0'..'9']; the whitespace is U+0009-000D,
    U+001C-0020, U+0085 and U+00A0. *)
Definition is_digit (c : ascii) : bool :=
  let n := N_of_ascii c in ((48 <=? n) && (n <=? 57))%N.

Definition is_space (c : ascii) : bool :=
  let n := N_of_ascii c in
  (((9 <=? n) && (n <=? 13)) || ((28 <=? n) && (n <=? 32)) || (n =? 133) || (n =? 160))%N.

(** The patterns of this module are sequences of one-character atoms,
    each taken once, [*] or [+]. *)
Inductive quantifier : Type := Once | ZeroOrMore | OneOrMore.

Record atom : Type := { accepts : ascii -> bool; repeats : quantifier }.

Definition lit (c : ascii) : atom := {| accepts := Ascii.eqb c; repeats := Once |}.
Definition digit : atom := {| accepts := is_digit; repeats := Once |}.
Definition digits : atom := {| accepts := is_digit; repeats := OneOrMore |}.
Definition spaces : atom := {| accepts := is_space; repeats := ZeroOrMore |}.

Definition pattern : Type := list atom.

(** [k] holds after some number of characters of the class. *)
Fixpoint star (k : string -> bool) (cls : ascii -> bool) (s : string) : bool :=
  k s ||
  match s with
  | String c s' => cls c && star k cls s'
  | EmptyString => false
  end.

(** Some prefix of [s] matches [p] ([re.match]). *)
Fixpoint match_here (p : pattern) (s : string) : bool :=
  match p with
  | [] => true
  | a :: p' =>
      match repeats a with
      | Once =>
          match s with
          | String c s' => accepts a c && match_here p' s'
          | EmptyString => false
          end
      | ZeroOrMore => star (match_here p') (accepts a) s
      | OneOrMore =>
          match s with
          | String c s' => accepts a c && star (match_here p') (accepts a) s'
          | EmptyString => false
          end
      end
  end.

(** [re.search(p, s)] finds a match. *)
Fixpoint search (p : pattern) (s : string) : bool :=
  match_here p s ||
  match s with
  | String _ s' => search p s'
  | EmptyString => false
  end.

(** [len(re.findall(p, s))] for a non-empty pattern of [Once] atoms:
    matches are taken left to right and do not overlap; [skip] counts the
    characters still covered by the last match. *)
Fixpoint count_matches (p : pattern) (s : string) (skip : nat) : nat :=
  match s with
  | EmptyString => 0%nat
  | String _ s' =>
      match skip with
      | S k => count_matches p s' k
      | O =>
          if match_here p s then S (count_matches p s' (length p - 1))
          else count_matches p s' 0
      end
  end.

Definition findall_count (p : pattern) (s : string) : nat := count_matches p s 0.

Definition newline : ascii := "010"%char.

Definition hh_mm_ss : pattern :=
  [digit; digit; lit ":"; digit; digit; lit ":"; digit; digit].

Definition timestamp : pattern := hh_mm_ss ++ [lit ","; digit; digit; digit].

(** [\d+\s*\n\d{2}:\d{2}:\d{2},\d{3}\s*-->\s*\d{2}:\d{2}:\d{2},\d{3}]. *)
Definition srt_pattern : pattern :=
  [digits; spaces; lit newline] ++ timestamp
    ++ [spaces; lit "-"; lit "-"; lit ">"; spaces] ++ timestamp.

(** [\d{2}:\d{2}:\d{2}]. *)
Definition time_pattern : pattern := hh_mm_ss.

Definition _is_valid_subtitle_format (content : string) : bool :=
  if search srt_pattern content then true
  else if contains "WEBVTT" (take_chars 100 content) then true
  else if contains "[Script Info]" content || contains "[V4+ Styles]" content then true
  else if (2 <? findall_count time_pattern content)%nat then true
  else false.

(** *** Cleaning

    On text whose code points are below 256 the byte-order mark U+FEFF
    cannot occur, nor can any key of the replacement table (each contains
    U+20AC), so those two steps leave the text as it is. *)

(** [s.replace(old, new)] for a non-empty [old]; [skip] counts the
    characters of an occurrence still to be dropped. *)
Fixpoint replace_from (old new s : string) (skip : nat) : string :=
  match s with
  | EmptyString => EmptyString
  | String c s' =>
      match skip with
      | S k => replace_from old new s' k
      | O =>
          if startswith s old
          then new +:+ replace_from old new s' (String.length old - 1)
          else String c (replace_from old new s' 0)
      end
  end.

Definition replace (old new s : string) : string := replace_from old new s 0.

Definition CR : ascii := "013"%char.
Definition LF : string := String newline EmptyString.

(** [re.sub(r'\n{3,}', '\n\n', s)]; [run] is the number of newlines just
    written, at most two of any run. *)
Fixpoint collapse_blank_lines (s : string) (run : nat) : string :=
  match s with
  | EmptyString => EmptyString
  | String c s' =>
      if Ascii.eqb c newline then
        match run with
        | S (S _) => collapse_blank_lines s' run
        | _ => String c (collapse_blank_lines s' (S run))
        end
      else String c (collapse_blank_lines s' 0)
  end.

(** Length of [body ++ close] when [s] starts with a non-empty [body]
    free of [close], followed by [close]. *)
Fixpoint tag_rest (close : ascii) (s : string) (seen : nat) : option nat :=
  match s with
  | EmptyString => None
  | String c s' =>
      if Ascii.eqb c close then
        match seen with
        | O => None
        | S _ => Some (S seen)
        end
      else tag_rest close s' (S seen)
  end.

(** [re.sub(open [^close]+ close, '', s)]. *)
Fixpoint strip_tags (open close : ascii) (s : string) (skip : nat) : string :=
  match s with
  | EmptyString => EmptyString
  | String c s' =>
      match skip with
      | S k => strip_tags open close s' k
      | O =>
          if Ascii.eqb c open then
            match tag_rest close s' 0 with
            | Some n => strip_tags open close s' n
            | None => String c (strip_tags open close s' 0)
            end
          else String c (strip_tags open close s' 0)
      end
  end.

Fixpoint lstrip (s : string) : string :=
  match s with
  | String c s' => if is_space c then lstrip s' else s
  | EmptyString => EmptyString
  end.

Fixpoint rstrip (s : string) : string :=
  match s with
  | EmptyString => EmptyString
  | String c s' =>
      match rstrip s' with
      | EmptyString => if is_space c then EmptyString else String c EmptyString
      | rest => String c rest
      end
  end.

Definition strip (s : string) : string := rstrip (lstrip s).

Definition clean_subtitle_content (content : string) : string :=
  let content := replace (String CR EmptyString) LF (replace (String CR LF) LF content) in
  let content := collapse_blank_lines content 0 in
  let content := strip_tags "<" ">" content 0 in
  let content := strip_tags "{" "}" content 0 in
  strip content.

(** *** The libraries the processor calls

    [chardet], the codecs and [pysubs2] are not part of the repository;
    the processor is modelled over any behaviour of theirs. *)

Record detection : Type := {
  det_encoding : field string;
  det_confidence : field Q
}.

Class Libraries : Type := {
  (** [chardet.detect(content)] *)
  chardet_detect : string -> fallible detection;
  (** [content.decode(encoding)], and with [errors='replace'] *)
  decode : string -> string -> fallible string;
  decode_replace : string -> string -> fallible string;
  (** [pysubs2.SSAFile]: [SSAFile()], [from_string], [to_string(format)],
      [len], [shift(ms=...)], [extend], [sort] *)
  SSAFile : Type;
  new_file : SSAFile;
  from_string : string -> fallible SSAFile;
  to_string : SSAFile -> string -> fallible string;
  entries : SSAFile -> nat;
  shift : SSAFile -> Z -> fallible SSAFile;
  extend : SSAFile -> SSAFile -> fallible SSAFile;
  sort : SSAFile -> fallible SSAFile
}.

Record t : Type := mk {
  max_file_size : Z;
  default_encoding : string
}.

(** [SUBTITLE_SETTINGS]: 5 MiB, utf-8. *)
Definition init : t := mk (5 * 1024 * 1024) "utf-8".

Definition file_too_large : string := "Subtitle file is too large to process.".

Definition TypeError : exn := Exception "TypeError" "NoneType where a value is needed".

Definition need {A : Type} (o : option A) (e : exn) : run A :=
  match o with
  | Some a => ret a
  | None => raise e
  end.

Definition is_unicode_decode_error (e : exn) : bool :=
  String.eqb (exn_class e) "UnicodeDecodeError".

(** The [for fallback_encoding in [...]] loop of [detect_encoding]. *)
Fixpoint try_fallbacks `{Libraries} (content : string) (encoding : option string)
    (fallbacks : list string) : run (option string) :=
  match fallbacks with
  | [] => ret encoding
  | fallback_encoding :: rest =>
      match decode fallback_encoding content with
      | Ok _ => ret (Some fallback_encoding)
      | Fail e =>
          if is_unicode_decode_error e then try_fallbacks content encoding rest
          else raise e
      end
  end.

Definition detect_encoding `{Libraries} (self : t) (content : string)
  : run (option string) :=
  try_except
    (do detection <- call (chardet_detect content);
     let encoding := get_or (det_encoding detection) (default_encoding self) in
     do confidence <- need (get_or (det_confidence detection) 0%Q) TypeError;
     do encoding <-
       (if negb (Qle_bool (7 # 10) confidence)
        then try_fallbacks content encoding ["utf-8"; "latin-1"; "cp1252"; "iso-8859-1"]
        else ret encoding);
     exec log Info' ("Detected encoding: " +:+ fmt encoding);
     ret encoding)
    (fun e => exec log Error' ("Encoding detection failed: " +:+ exn_text e);
              ret (Some (default_encoding self))).

(** [content.decode(encoding, errors='replace')]. *)
Definition decode_detected `{Libraries} (encoding : option string) (content : string)
  : run string :=
  do encoding <- need encoding TypeError;
  call (decode_replace encoding content).

Definition validate_subtitle_file `{Libraries} (self : t) (content : string)
  : run (bool * string) :=
  if max_file_size self <? Z.of_nat (String.length content) then
    ret (false, file_too_large)
  else if Z.of_nat (String.length content) =? 0 then
    ret (false, "Empty subtitle file")
  else
    try_except
      (do encoding <- detect_encoding self content;
       do text_content <- decode_detected encoding content;
       if _is_valid_subtitle_format text_content
       then ret (true, "Valid subtitle file")
       else ret (false, "Invalid subtitle format"))
      (fun e => exec log Error' ("Validation error: " +:+ exn_text e);
                ret (false, "Validation failed: " +:+ exn_text e)).

(** The format name handed to [to_string] by [process_subtitle_file]. *)
Definition output_format (target_format : string) : string :=
  let target := lower target_format in
  if String.eqb target "srt" then "srt"
  else if String.eqb target "vtt" then "webvtt"
  else if String.eqb target "ass" || String.eqb target "ssa" then "ass"
  else "srt".

Definition process_subtitle_file `{Libraries} (self : t) (content target_format : string)
  : run (option string * string) :=
  try_except
    (do '(is_valid, validation_message) <- validate_subtitle_file self content;
     if negb is_valid then ret (None, validation_message)
     else
       do encoding <- detect_encoding self content;
       do text_content <- decode_detected encoding content;
       let cleaned_content := clean_subtitle_content text_content in
       do subtitles <- call (from_string cleaned_content);
       if (entries subtitles =? 0)%nat then ret (None, "No subtitle entries found")
       else
         do output <- call (to_string subtitles (output_format target_format));
         let output := clean_subtitle_content output in
         exec log Info' "Successfully processed subtitle file";
         ret (Some output, "Success"))
    (fun e => exec log Error' ("Processing error: " +:+ exn_text e);
              ret (None, "Processing failed: " +:+ exn_text e)).

(** The format name handed to [to_string] by [convert_format]. *)
Definition converted_format (target_format : string) : string :=
  let target := lower target_format in
  if String.eqb target "srt" then "srt"
  else if String.eqb target "vtt" then "webvtt"
  else if String.eqb target "ass" then "ass"
  else "srt".

Definition convert_format `{Libraries} (content source_format target_format : string)
  : run (option string) :=
  try_except
    (do subtitles <- call (from_string content);
     do output <- call (to_string subtitles (converted_format target_format));
     ret (Some output))
    (fun e => exec log Error' ("Format conversion error: " +:+ exn_text e); ret None).

(** [offset_ms] is the evaluation of [int(offset_seconds * 1000)], which
    is floating-point arithmetic and raises on a non-finite offset. *)
Definition sync_subtitles `{Libraries} (content : string) (offset_ms : fallible Z)
  : run (option string) :=
  try_except
    (do subtitles <- call (from_string content);
     do offset_ms <- call offset_ms;
     do subtitles <- call (shift subtitles offset_ms);
     do output <- call (to_string subtitles "srt");
     ret (Some output))
    (fun e => exec log Error' ("Sync error: " +:+ exn_text e); ret None).

(** The [for content in subtitle_contents] loop of [merge_subtitle_files]. *)
Fixpoint merge_into `{Libraries} (merged : SSAFile) (subtitle_contents : list string)
  : run SSAFile :=
  match subtitle_contents with
  | [] => ret merged
  | content :: rest =>
      do subtitles <- call (from_string content);
      do merged <- call (extend merged subtitles);
      merge_into merged rest
  end.

Definition merge_subtitle_files `{Libraries} (subtitle_contents : list string)
  : run (option string) :=
  try_except
    (do merged <- merge_into new_file subtitle_contents;
     do merged <- call (sort merged);
     do output <- call (to_string merged "srt");
     ret (Some output))
    (fun e => exec log Error' ("Merge error: " +:+ exn_text e); ret None).

(** *** Compressing a text *)

(** [str.encode] and [gzip], with the laws of the UTF-8 codec and of
    gzip: what was encoded decodes to the same text, what was compressed
    decompresses to the same bytes. *)
Class Compression `{Libraries} : Type := {
  encode : string -> string -> fallible string;
  gzip_compress : string -> string;
  gzip_decompress : string -> fallible string;
  decode_encode : forall content content_bytes,
    encode "utf-8" content = Ok content_bytes -> decode "utf-8" content_bytes = Ok content;
  decompress_compress : forall content_bytes,
    gzip_decompress (gzip_compress content_bytes) = Ok content_bytes
}.

Definition compress_subtitle_content `{Compression} (self : t) (content : string)
  : run string :=
  try_except
    (do content_bytes <- call (encode (default_encoding self) content);
     let compressed := gzip_compress content_bytes in
     exec log Info' "Compressed";
     ret compressed)
    (fun e => exec log Error' ("Compression error: " +:+ exn_text e);
              call (encode (default_encoding self) content)).

Definition decompress_subtitle_content `{Compression} (self : t) (compressed_content : string)
  : run string :=
  try_except
    (do decompressed <- call (gzip_decompress compressed_content);
     call (decode (default_encoding self) decompressed))
    (fun e => exec log Error' ("Decompression error: " +:+ exn_text e);
              call (decode_replace (default_encoding self) compressed_content)).

(** *** Timestamps *)

(** [_ms_to_timestamp]; [//] and [%] round towards minus infinity, as
    [Z.div] and [Z.modulo] do for a positive divisor. *)
Definition _ms_to_timestamp (milliseconds : Z) : string :=
  let seconds := milliseconds / 1000 in
  let ms := milliseconds mod 1000 in
  let minutes := seconds / 60 in
  let seconds := seconds mod 60 in
  let hours := minutes / 60 in
  let minutes := minutes mod 60 in
  format_d 2 hours +:+ ":" +:+ format_d 2 minutes +:+ ":" +:+ format_d 2 seconds
    +:+ "." +:+ format_d 3 ms.

(** *** Guessing the language *)

(** The Latin-1 letters of the table that are not ASCII. *)
Definition e_grave : string := String (ascii_of_nat 232) "".
Definition e_acute : string := String (ascii_of_nat 233) "".
Definition a_tilde : string := String (ascii_of_nat 227) "".

(** [language_indicators], in the order of the dictionary. The ten words
    of ['ru'] are Cyrillic: in a text of 8-bit characters each of them
    occurs zero times, so they add nothing to its score. *)
Definition language_indicators : list (string * list string) :=
  [ ("en", ["the"; "and"; "you"; "that"; "have"; "for"; "not"; "with"]);
    ("es", ["que"; "de"; "no"; "la"; "el"; "en"; "y"; "a"; "es"; "se"]);
    ("fr", ["que"; "de"; "je"; "est"; "pas"; "le"; "vous"; "la"; "tu"; "il"]);
    ("de", ["der"; "die"; "und"; "in"; "den"; "von"; "zu"; "das"; "mit"; "ist"]);
    ("it", ["che"; "di"; "la"; "il"; "un"; e_grave; "per"; "una"; "in"; "del"]);
    ("pt", ["que"; "de"; "n" +:+ a_tilde +:+ "o"; "o"; "a"; "para"; "com"; "uma";
            e_acute; "do"]);
    ("ru", []) ].

(** [s.count(word)] for a non-empty [word]: the occurrences are taken
    left to right and do not overlap; [skip] counts the characters still
    covered by the last one. *)
Fixpoint count_from (word s : string) (skip : nat) : nat :=
  match s with
  | EmptyString => 0%nat
  | String _ s' =>
      match skip with
      | S k => count_from word s' k
      | O =>
          if startswith s word then S (count_from word s' (String.length word - 1))
          else count_from word s' 0
      end
  end.

Definition count (word s : string) : nat := count_from word s 0.

(** [sum(content_lower.count(word) for word in words)] *)
Definition indicator_score (content_lower : string) (words : list string) : nat :=
  foldr (fun word total => (count word content_lower + total)%nat) 0%nat words.

(** [max(scores, key=scores.get)]: the first key, in the order of
    insertion, whose value is the largest. *)
Definition max_by_score (scores : list (string * nat)) : option string :=
  match scores with
  | [] => None
  | first :: rest =>
      Some (fst (foldl (fun best x => if (snd best <? snd x)%nat then x else best) first rest))
  end.

Definition _detect_language_from_content (content : string) : option string :=
  let content_lower := lower content in
  let scores :=
    omap (fun '(lang, words) =>
            let score := indicator_score content_lower words in
            if (0 <? score)%nat then Some (lang, score) else None)
         language_indicators in
  max_by_score scores.

End SubtitleProcessor.

(** ** SubtitleAPIManager.extract_movie_info

    The method reads a file name with five regular expressions; it is
    given after the processor, whose character classes it shares. *)

Module MovieInfo.

(** [\w] as [re] reads it on [str], for the code points below 256: the
    ASCII letters, digits and underscore, and the Latin-1 letters and
    numerics. *)
Definition is_word (c : ascii) : bool :=
  let n := N_of_ascii c in
  (((48 <=? n) && (n <=? 57)) || ((65 <=? n) && (n <=? 90)) || (n =? 95)
   || ((97 <=? n) && (n <=? 122))
   || (n =? 170) || (n =? 178) || (n =? 179) || (n =? 181) || (n =? 185) || (n =? 186)
   || ((188 <=? n) && (n <=? 190)) || ((192 <=? n) && (n <=? 214))
   || ((216 <=? n) && (n <=? 246)) || (248 <=? n))%N.

(** A pattern tried at one position of a text: [before] is the character
    in front of the position, if there is one, the text is what follows
    the position; the result is the length of the match found there. *)
Definition matcher : Type := option ascii -> string -> option nat.

(** [\b]: a word character on exactly one side. *)
Definition boundary (before : option ascii) (s : string) : bool :=
  xorb (match before with Some c => is_word c | None => false end)
       (match s with String c _ => is_word c | EmptyString => false end).

(** The position [n] characters further on. *)
Fixpoint advance (n : nat) (before : option ascii) (s : string) : option ascii * string :=
  match n, s with
  | S k, String c s' => advance k (Some c) s'
  | _, _ => (before, s)
  end.

(** [s] starts with [p], letters compared without regard to case
    ([re.IGNORECASE]). *)
Fixpoint startswith_ci (s p : string) : bool :=
  match p, s with
  | EmptyString, _ => true
  | String _ _, EmptyString => false
  | String a p', String b s' =>
      Ascii.eqb (lower_char a) (lower_char b) && startswith_ci s' p'
  end.

(** [\b(a1|a2|...)\b] with [re.IGNORECASE]: the alternatives are tried in
    order, and one is taken only if a boundary follows it. *)
Definition whole_word (alternatives : list string) : matcher :=
  fun before s =>
    if boundary before s then
      option_map String.length
        (List.find (fun alt =>
                      startswith_ci s alt &&
                      (let '(last, rest) := advance (String.length alt) before s in
                       boundary last rest))
                   alternatives)
    else None.

(** [\b(19|20)\d{2}\b] *)
Definition year_pattern : matcher :=
  fun before s =>
    if boundary before s && (startswith s "19" || startswith s "20") then
      match s with
      | String _ (String _ (String d1 (String d2 rest))) =>
          if SubtitleProcessor.is_digit d1 && SubtitleProcessor.is_digit d2
             && boundary (Some d2) rest
          then Some 4%nat else None
      | _ => None
      end
    else None.

(** [\b(720p|1080p|480p|2160p|4K)\b] and
    [\b(BluRay|BRRip|DVDRip|WebRip|HDRip|CAMRip)\b] *)
Definition quality_pattern : matcher := whole_word ["720p"; "1080p"; "480p"; "2160p"; "4K"].

Definition format_pattern : matcher :=
  whole_word ["BluRay"; "BRRip"; "DVDRip"; "WebRip"; "HDRip"; "CAMRip"].

(** The ways [\d{1,2}] can match at the start of [s], longest first, each
    with the rest of the text. *)
Definition digit_runs (s : string) : list (string * string) :=
  match s with
  | String a rest =>
      if SubtitleProcessor.is_digit a then
        match rest with
        | String b rest' =>
            if SubtitleProcessor.is_digit b
            then [(String a (String b ""), rest'); (String a "", rest)]
            else [(String a "", rest)]
        | EmptyString => [(String a "", rest)]
        end
      else []
  | EmptyString => []
  end.

(** The first element for which [f] gives something. *)
Fixpoint first_some {A B : Type} (f : A -> option B) (l : list A) : option B :=
  match l with
  | [] => None
  | x :: rest => match f x with Some y => Some y | None => first_some f rest end
  end.

(** [[Ss](\d{1,2})[Ee](\d{1,2})] at the start of [s]: groups 1 and 2. *)
Definition series_groups (s : string) : option (string * string) :=
  match s with
  | String c rest =>
      if Ascii.eqb c "S" || Ascii.eqb c "s" then
        first_some
          (fun '(season, rest1) =>
             match rest1 with
             | String e rest2 =>
                 if Ascii.eqb e "E" || Ascii.eqb e "e" then
                   match digit_runs rest2 with
                   | (episode, _) :: _ => Some (season, episode)
                   | [] => None
                   end
                 else None
             | EmptyString => None
             end)
          (digit_runs rest)
      else None
  | EmptyString => None
  end.

Definition series_pattern : matcher :=
  fun _ s =>
    match series_groups s with
    | Some (season, episode) => Some (2 + String.length season + String.length episode)%nat
    | None => None
    end.

(** [re.search(p, s).group()]: the leftmost match. *)
Fixpoint search (p : matcher) (before : option ascii) (s : string) : option string :=
  match p before s with
  | Some n => Some (take_chars n s)
  | None =>
      match s with
      | String c s' => search p (Some c) s'
      | EmptyString => None
      end
  end.

(** [re.search(series, s)]: the groups of the leftmost match. *)
Fixpoint search_series (s : string) : option (string * string) :=
  match series_groups s with
  | Some groups => Some groups
  | None =>
      match s with
      | String _ s' => search_series s'
      | EmptyString => None
      end
  end.

(** [re.sub(p, repl, s)] for a pattern without empty matches: the matches
    are taken left to right and do not overlap; [skip] counts the
    characters of a match still to be dropped. *)
Fixpoint sub (p : matcher) (repl : string) (before : option ascii) (s : string) (skip : nat)
  : string :=
  match s with
  | EmptyString => EmptyString
  | String c s' =>
      match skip with
      | S k => sub p repl (Some c) s' k
      | O =>
          match p before s with
          | Some (S n) => repl +:+ sub p repl (Some c) s' n
          | _ => String c (sub p repl (Some c) s' 0)
          end
      end
  end.

(** [[._\-\[\]()]] *)
Definition is_separator (c : ascii) : bool :=
  existsb (Ascii.eqb c) ["."; "_"; "-"; "["; "]"; "("; ")"]%char.

(** [re.sub(r'[._\-\[\]()]', ' ', s)] *)
Fixpoint blank_separators (s : string) : string :=
  match s with
  | EmptyString => EmptyString
  | String c s' => String (if is_separator c then " "%char else c) (blank_separators s')
  end.

(** [re.sub(r'\s+', ' ', s)]; [in_run] tells that the character in front
    was white space. *)
Fixpoint collapse_spaces (s : string) (in_run : bool) : string :=
  match s with
  | EmptyString => EmptyString
  | String c s' =>
      if SubtitleProcessor.is_space c then
        if in_run then collapse_spaces s' true
        else String " " (collapse_spaces s' true)
      else String c (collapse_spaces s' false)
  end.

(** [int(group)] for a group of one or two decimal digits. *)
Fixpoint int_of_digits (s : string) (acc : Z) : Z :=
  match s with
  | EmptyString => acc
  | String c s' => int_of_digits s' (10 * acc + (Z.of_N (N_of_ascii c) - 48))
  end.

Record info : Type := {
  title : string;
  year : option string;
  quality : option string;
  format : option string;
  is_series : bool;
  season : option Z;
  episode : option Z
}.

Definition extract_movie_info (filename : string) : info :=
  let year_match := search year_pattern None filename in
  let quality_match := search quality_pattern None filename in
  let format_match := search format_pattern None filename in
  let series_match := search_series filename in
  let clean_title :=
    foldl (fun clean_title pattern => sub pattern "" None clean_title 0) filename
      [year_pattern; quality_pattern; format_pattern; series_pattern] in
  let clean_title := blank_separators clean_title in
  let clean_title := SubtitleProcessor.strip (collapse_spaces clean_title false) in
  {| title := clean_title;
     year := year_match;
     quality := quality_match;
     format := format_match;
     is_series := match series_match with Some _ => true | None => false end;
     season := option_map (fun '(s, _) => int_of_digits s 0) series_match;
     episode := option_map (fun '(_, e) => int_of_digits e 0) series_match |}.

End MovieInfo.


(** * subtitle/cache_manager.py *)

Module CacheManager.

(** The Redis server behind [REDIS_URL]: every key holds a value and the
    instant it expires. When the server is not [up] every command
    raises [ConnectionError]. *)
Record server : Type := {
  up : bool;
  db : gmap string (string * Z)
}.

Definition ConnectionError : exn := Exception "ConnectionError" "Error connecting to Redis".

(** [await redis.get(key)] *)
Definition redis_get (srv : server) (now : Z) (key : string) : run (option string) :=
  if up srv then
    ret (match db srv !! key with
         | Some (value, expires) => if now <? expires then Some value else None
         | None => None
         end)
  else raise ConnectionError.

(** [await redis.setex(key, ttl, value)] *)
Definition redis_setex (srv : server) (now : Z) (key : string) (ttl : Z) (value : string)
  : run unit * server :=
  if up srv then
    (ret tt, {| up := true; db := <[ key := (value, now + seconds ttl) ]> (db srv) |})
  else (raise ConnectionError, srv).

(** [redis_client] is the client together with the server it talks to;
    [None] when the connection could not be made. *)
Record t : Type := mk {
  redis_client : option server;
  prefix : string;
  metadata_ttl : Z;
  content_ttl : Z;
  search_ttl : Z
}.

(** [CACHE_CONFIG] *)
Definition init : t := mk None "subtitle:" 3600 86400 1800.
Definition max_cache_size : Z := 100 * 1024 * 1024.

Definition set_redis_client (c : option server) (self : t) : t :=
  mk c (prefix self) (metadata_ttl self) (content_ttl self) (search_ttl self).

Definition connect (self : t) (srv : server) : run unit * t :=
  if up srv then
    (log Info' "Connected to Redis cache successfully", set_redis_client (Some srv) self)
  else
    (log Error' ("Failed to connect to Redis: " +:+ exn_text ConnectionError),
     set_redis_client None self).

(** [f"{self.prefix}{':'.join(parts)}"] *)
Fixpoint join (sep : string) (parts : list string) : string :=
  match parts with
  | [] => ""
  | [p] => p
  | p :: rest => p +:+ sep +:+ join sep rest
  end.

Definition _make_key (self : t) (parts : list string) : string :=
  prefix self +:+ join ":" parts.

Definition get_subtitle_content (self : t) (now : Z) (movie_id language : string)
  : run (option string) :=
  match redis_client self with
  | None => ret None
  | Some srv =>
      try_except
        (let key := _make_key self ["content"; movie_id; language] in
         do content <- redis_get srv now key;
         if truthy content then
           exec log Info' "Cache hit for subtitle content";
           ret content
         else ret None)
        (fun e => exec log Error' ("Error getting cached content: " +:+ exn_text e);
                  ret None)
  end.

(** [len(content.encode('utf-8'))]: one byte below U+0080, two up to U+00FF. *)
Fixpoint utf8_length (s : string) : Z :=
  match s with
  | EmptyString => 0
  | String c s' => (if (N_of_ascii c <? 128)%N then 1 else 2) + utf8_length s'
  end.

Definition set_subtitle_content (self : t) (now : Z) (movie_id language content : string)
    (ttl : option Z) : run bool * t :=
  match redis_client self with
  | None => (ret false, self)
  | Some srv =>
      let key := _make_key self ["content"; movie_id; language] in
      let ttl := match ttl with
                 | Some n => if n =? 0 then content_ttl self else n
                 | None => content_ttl self
                 end in
      let content_size := utf8_length content in
      if max_cache_size <? content_size then
        (exec log Warning' "Content too large to cache"; ret false, self)
      else
        let '(m, srv1) := redis_setex srv now key ttl content in
        (try_except
           (exec m; exec log Info' "Cached subtitle content"; ret true)
           (fun e => exec log Error' ("Error caching content: " +:+ exn_text e); ret false),
         set_redis_client (Some srv1) self)
  end.

(** *** Counting requests *)

(** The entry under [key], unless it has expired. *)
Definition live (srv : server) (now : Z) (key : string) : option (string * Z) :=
  match db srv !! key with
  | Some (value, expires) => if now <? expires then Some (value, expires) else None
  | None => None
  end.

Definition with_key (key : string) (entry : string * Z) (srv : server) : server :=
  {| up := up srv; db := <[ key := entry ]> (db srv) |}.

(** What Python's [int] and Redis's [INCR] make of the text a key holds:
    [py_int] is [int(text)], [redis_incr] the value [INCR] leaves (and
    returns) for a key that holds [text], or the error it answers. Both
    read a decimal numeral as the number it spells; [INCR] overflows at
    the largest 64-bit integer. *)
Class Counters : Type := {
  py_int : string -> fallible Z;
  redis_incr : string -> fallible Z;
  py_int_str : forall n, py_int (str_int n) = Ok n;
  redis_incr_str : forall n,
    - 2 ^ 63 <= n < 2 ^ 63 - 1 -> redis_incr (str_int n) = Ok (n + 1)
}.

Definition get_rate_limit_count `{Counters} (self : t) (now : Z) (identifier window : string)
  : run Z :=
  match redis_client self with
  | None => ret 0
  | Some srv =>
      try_except
        (let key := _make_key self ["rate_limit"; window; identifier] in
         do count <- redis_get srv now key;
         if truthy count then call (py_int (fmt count)) else ret 0)
        (fun e => exec log Error' ("Error getting rate limit count: " +:+ exn_text e);
                  ret 0)
  end.

(** [pipe.incr(key)], [pipe.expire(key, ttl)] when [current_count] is 0,
    and [await pipe.execute()], for a key just read as [current]. The
    pipeline is a transaction. [INCR] gives a key that is not there the
    value 1; on a text it does not read as an integer it fails, and
    [execute] raises that error after the other command has run. *)
Definition incr_and_expire `{Counters} (srv : server) (now : Z) (key : string)
    (current : option string) (current_count ttl : Z) : run Z * server :=
  match live srv now key, current with
  | Some (_, expires), Some text =>
      let expires := if current_count =? 0 then now + seconds ttl else expires in
      match redis_incr text with
      | Ok new_count => (ret new_count, with_key key (str_int new_count, expires) srv)
      | Fail e => (raise e, with_key key (text, expires) srv)
      end
  | _, _ => (ret 1, with_key key (str_int 1, now + seconds ttl) srv)
  end.

Definition increment_rate_limit `{Counters} (self : t) (now : Z)
    (identifier window : string) (ttl max_requests : Z) : run (bool * Z) * t :=
  match redis_client self with
  | None => (ret (true, 0), self)
  | Some srv =>
      let failed (e : exn) : run (bool * Z) :=
        exec log Error' ("Error checking rate limit: " +:+ exn_text e); ret (true, 0) in
      let key := _make_key self ["rate_limit"; window; identifier] in
      match redis_get srv now key with
      | (tr, Return current) =>
          match (if truthy current then py_int (fmt current) else Ok 0) with
          | Ok current_count =>
              if max_requests <=? current_count then
                ((tr, Return (false, current_count)), self)
              else
                let '(results, srv1) :=
                  incr_and_expire srv now key current current_count ttl in
                (try_except
                   (exec (tr, Return tt);
                    do new_count <- results;
                    ret (true, new_count))
                   failed,
                 set_redis_client (Some srv1) self)
          | Fail e => (try_except (tr, Raise e) failed, self)
          end
      | (tr, Raise e) => (try_except (tr, Raise e) failed, self)
      | (tr, Hang) => ((tr, Hang), self)
      end
  end.

(** *** Search results *)

(** [json.dumps] and [json.loads], as far as the cache uses them:
    [json] is what [json.loads] returns, [json_truthy] its truth value,
    [dumps_results] the text [json.dumps(results, default=str)] of a list
    of results. *)
Class Json : Type := {
  json : Type;
  json_loads : string -> fallible json;
  json_truthy : json -> bool;
  dumps_results : list search_result -> string
}.

Definition get_search_results `{Json} (self : t) (now : Z) (query language : string)
  : run (option json) :=
  match redis_client self with
  | None => ret None
  | Some srv =>
      try_except
        (let key := _make_key self ["search"; lower query; language] in
         do data <- redis_get srv now key;
         if truthy data then
           exec log Info' "Cache hit for search results";
           do loaded <- call (json_loads (fmt data));
           ret (Some loaded)
         else ret None)
        (fun e => exec log Error' ("Error getting cached search results: " +:+ exn_text e);
                  ret None)
  end.

Definition set_search_results `{Json} (self : t) (now : Z) (query language : string)
    (results : list search_result) (ttl : option Z) : run bool * t :=
  match redis_client self with
  | None => (ret false, self)
  | Some srv =>
      let key := _make_key self ["search"; lower query; language] in
      let ttl := match ttl with
                 | Some n => if n =? 0 then search_ttl self else n
                 | None => search_ttl self
                 end in
      let '(m, srv1) := redis_setex srv now key ttl (dumps_results results) in
      (try_except
         (exec m; exec log Info' "Cached search results"; ret true)
         (fun e => exec log Error' ("Error caching search results: " +:+ exn_text e);
                   ret false),
       set_redis_client (Some srv1) self)
  end.

End CacheManager.

(** * subtitle/storage.py *)

Module SubtitleStorage.

(** One document of the [subtitles_metadata] collection. *)
Record document : Type := mk_document {
  movie_id : string;
  language : string;
  provider : string;
  subtitle_id : option string;
  download_count : Z;
  quality_score : Z;
  format : string;
  filename : option string;
  release : option string;
  file_size : Z;
  encoding : string;
  fps : option Z;
  cd_count : Z;
  hearing_impaired : bool;
  machine_translated : bool;
  created_at : Z;
  updated_at : Z;
  expires_at : Z;
  download_url : option string;
  cached_content : bool;
  gridfs_file_id : option N;
  local_downloads : Z;
  last_downloaded : option Z;
  verification_status : string;
  user_ratings : list Z;
  sync_offset : Z;
  cache_size : option Z
}.

(** One document of the [movies_subtitles] collection. *)
Record movie_document : Type := mk_movie {
  imdb_id : option string;
  title : option string;
  subtitle_count : Z;
  available_languages : list string;
  last_checked : Z
}.

Record usage_event : Type := {
  kind : string;
  event_movie_id : string;
  event_language : string;
  timestamp : Z
}.

(** A GridFS file with the metadata tags the storage reads back. *)
Record grid_file : Type := {
  file_id : N;
  file_name : string;
  data : string;
  compressed : bool;
  original_size : Z;
  compressed_size : Z;
  cached_at : Z
}.

(** The MongoDB server behind [SUBTITLE_DB_URI]. When it is not [up]
    every command raises [ServerSelectionTimeoutError]. *)
Record server : Type := mk_server {
  up : bool;
  subtitles_metadata : list document;
  movies_subtitles : list movie_document;
  usage_statistics : list usage_event;
  fs : list grid_file;
  next_object_id : N
}.

(** The storage object together with the server it talks to. *)
Record t : Type := mk {
  _connected : bool;
  cache_duration : Z;
  db : server
}.

(** [SubtitleStorage(uri, name)]; [cache_duration] is 24 hours. *)
Definition init (srv : server) : t := mk false (24 * 60 * 60) srv.

Definition set_connected (b : bool) (self : t) : t :=
  mk b (cache_duration self) (db self).

Definition set_db (srv : server) (self : t) : t :=
  mk (_connected self) (cache_duration self) srv.

Definition set_subtitles (docs : list document) (srv : server) : server :=
  mk_server (up srv) docs (movies_subtitles srv) (usage_statistics srv) (fs srv)
    (next_object_id srv).

Definition set_movies (movies : list movie_document) (srv : server) : server :=
  mk_server (up srv) (subtitles_metadata srv) movies (usage_statistics srv) (fs srv)
    (next_object_id srv).

Definition add_usage (ev : usage_event) (srv : server) : server :=
  mk_server (up srv) (subtitles_metadata srv) (movies_subtitles srv)
    (usage_statistics srv ++ [ev]) (fs srv) (next_object_id srv).

Definition set_fs (files : list grid_file) (next : N) (srv : server) : server :=
  mk_server (up srv) (subtitles_metadata srv) (movies_subtitles srv)
    (usage_statistics srv) files next.

Definition ServerSelectionTimeoutError : exn :=
  Exception "ServerSelectionTimeoutError" "No servers found yet".

(** [connect]: three attempts, sleeping 2 s and 4 s in between; the last
    failure is re-raised. *)
Definition connect (self : t) : run unit * t :=
  if _connected self then (ret tt, self)
  else if up (db self) then
    (log Info' "Connected to subtitle database successfully", set_connected true self)
  else
    (exec log Warning' "Connection attempt 1 failed";
     exec sleep (seconds 2);
     exec log Warning' "Connection attempt 2 failed";
     exec sleep (seconds 4);
     exec log Warning' "Connection attempt 3 failed";
     exec log Error' "Failed to connect to subtitle database after 3 attempts";
     raise ServerSelectionTimeoutError,
     self).

(** [if not self._connected: await self.connect()] *)
Definition ensure_connected (self : t) : run unit * t :=
  if _connected self then (ret tt, self) else connect self.

(** The filter [{"movie_id": movie_id, "language": language}]. *)
Definition same_key (m l : string) (d : document) : bool :=
  String.eqb (movie_id d) m && String.eqb (language d) l.

(** [replace_one(filter, replacement, upsert=True)]: the first matching
    document is replaced; without a match the replacement is inserted. *)
Fixpoint replace_first (matches : document -> bool) (replacement : document)
    (docs : list document) : option (list document) :=
  match docs with
  | [] => None
  | d :: rest =>
      if matches d then Some (replacement :: rest)
      else option_map (cons d) (replace_first matches replacement rest)
  end.

Definition replace_one_upsert (matches : document -> bool) (replacement : document)
    (docs : list document) : list document :=
  match replace_first matches replacement docs with
  | Some docs' => docs'
  | None => docs ++ [replacement]
  end.

(** [update_one(filter, {"$set": ...})]: the first matching document is
    modified; without a match nothing happens. *)
Fixpoint update_first {A : Type} (matches : A -> bool) (change : A -> A)
    (docs : list A) : list A :=
  match docs with
  | [] => []
  | d :: rest =>
      if matches d then change d :: rest else d :: update_first matches change rest
  end.

(** The filter [{"movie_id": movie_id, "expires_at": {"$gt": now}}]. *)
Definition live (m : string) (now : Z) (d : document) : bool :=
  String.eqb (movie_id d) m && (now <? expires_at d).

Definition is_movie (m : string) (mv : movie_document) : bool :=
  match imdb_id mv, title mv with
  | Some i, Some t => String.eqb i m || String.eqb t m
  | Some i, None => String.eqb i m
  | None, Some t => String.eqb t m
  | None, None => false
  end.

(** [_update_movie_subtitle_count]; every exception is logged and
    swallowed. *)
Definition _update_movie_subtitle_count (self : t) (now : Z) (m : string) : run unit * t :=
  let srv := db self in
  if up srv then
    let alive := List.filter (live m now) (subtitles_metadata srv) in
    let count := Z.of_nat (length alive) in
    let languages := remove_dups (map language alive) in
    let movies :=
      if existsb (is_movie m) (movies_subtitles srv) then
        update_first (is_movie m)
          (fun mv => mk_movie (imdb_id mv) (title mv) count languages now)
          (movies_subtitles srv)
      else movies_subtitles srv ++ [mk_movie None None count languages now] in
    (ret tt, set_db (set_movies movies srv) self)
  else
    (log Error' ("Error updating movie subtitle count: "
                 +:+ exn_text ServerSelectionTimeoutError),
     self).

(** The document [store_subtitle_metadata] builds; the clock readings
    taken while building it are one instant, [now]. *)
Definition new_document (self : t) (now : Z) (m l : string) (subtitle_data : search_result)
  : document :=
  {| movie_id := m;
     language := l;
     provider := sr_provider subtitle_data;
     subtitle_id := get (sr_id subtitle_data);
     download_count := sr_download_count subtitle_data;
     quality_score := sr_quality_score subtitle_data;
     format := sr_format subtitle_data;
     filename := get_or (sr_filename subtitle_data) "";
     release := get_or (sr_release subtitle_data) "";
     file_size := 0;
     encoding := "utf-8";
     fps := None;
     cd_count := 1;
     hearing_impaired := false;
     machine_translated := false;
     created_at := now;
     updated_at := now;
     expires_at := now + seconds (cache_duration self);
     download_url := get_or (sr_url subtitle_data) "";
     cached_content := false;
     gridfs_file_id := None;
     local_downloads := 0;
     last_downloaded := None;
     verification_status := "pending";
     user_ratings := [];
     sync_offset := 0;
     cache_size := None |}.

Definition store_subtitle_metadata (self : t) (now : Z) (m l : string)
    (subtitle_data : search_result) : run bool * t :=
  let '(connected, self1) := ensure_connected self in
  let srv := db self1 in
  if up srv then
    let document := new_document self1 now m l subtitle_data in
    let docs := replace_one_upsert (same_key m l) document (subtitles_metadata srv) in
    let self2 := set_db (set_subtitles docs srv) self1 in
    let '(updated, self3) := _update_movie_subtitle_count self2 now m in
    (exec connected;
     exec updated;
     exec log Info' "Stored subtitle metadata";
     ret true,
     self3)
  else
    (try_except
       (exec connected; raise ServerSelectionTimeoutError)
       (fun e => exec log Error' ("Error storing subtitle metadata: " +:+ exn_text e);
                 ret false),
     self1).

(** *** Blobs

    [gzip] and the UTF-8 codec are libraries; they are taken with the
    round-trip laws they satisfy. *)
Class Codecs : Type := {
  encode_utf8 : string -> string;
  decode_utf8 : string -> fallible string;
  decode_utf8_replace : string -> string;
  gzip_compress : string -> string;
  gzip_decompress : string -> fallible string;
  decode_encode : forall s, decode_utf8 (encode_utf8 s) = Ok s;
  decode_replace_encode : forall s, decode_utf8_replace (encode_utf8 s) = s;
  decompress_compress : forall b, gzip_decompress (gzip_compress b) = Ok b
}.

(** [f"{movie_id}_{language}.srt"] *)
Definition blob_name (m l : string) : string := m +:+ "_" +:+ l +:+ ".srt".

(** The [$set] of [cache_subtitle_content]. *)
Definition mark_cached (id : N) (size now : Z) (d : document) : document :=
  {| movie_id := movie_id d;
     language := language d;
     provider := provider d;
     subtitle_id := subtitle_id d;
     download_count := download_count d;
     quality_score := quality_score d;
     format := format d;
     filename := filename d;
     release := release d;
     file_size := file_size d;
     encoding := encoding d;
     fps := fps d;
     cd_count := cd_count d;
     hearing_impaired := hearing_impaired d;
     machine_translated := machine_translated d;
     created_at := created_at d;
     updated_at := now;
     expires_at := expires_at d;
     download_url := download_url d;
     cached_content := true;
     gridfs_file_id := Some id;
     local_downloads := local_downloads d;
     last_downloaded := last_downloaded d;
     verification_status := verification_status d;
     user_ratings := user_ratings d;
     sync_offset := sync_offset d;
     cache_size := Some size |}.

Definition named (name : string) (f : grid_file) : bool := String.eqb (file_name f) name.

Definition cache_subtitle_content `{Codecs} (self : t) (now : Z) (m l content : string)
    (compress : bool) : run (option N) * t :=
  let '(connected, self1) := ensure_connected self in
  let srv := db self1 in
  if up srv then
    let name := blob_name m l in
    let content_bytes :=
      if compress then gzip_compress (encode_utf8 content) else encode_utf8 content in
    let others := List.filter (fun f => negb (named name f)) (fs srv) in
    let id := next_object_id srv in
    let file :=
      {| file_id := id;
         file_name := name;
         data := content_bytes;
         compressed := compress;
         original_size := Z.of_nat (String.length content);
         compressed_size := Z.of_nat (String.length content_bytes);
         cached_at := now |} in
    let docs :=
      update_first (same_key m l)
        (mark_cached id (Z.of_nat (String.length content_bytes)) now)
        (subtitles_metadata srv) in
    (exec connected;
     exec log Info' "Cached subtitle content";
     ret (Some id),
     set_db (set_subtitles docs (set_fs (others ++ [file]) (N.succ id) srv)) self1)
  else
    (try_except
       (exec connected; raise ServerSelectionTimeoutError)
       (fun e => exec log Error' ("Error caching subtitle content: " +:+ exn_text e);
                 ret None),
     self1).

(** [_record_cache_hit]: the insert is attempted, its failure swallowed. *)
Definition _record_cache_hit (self : t) (now : Z) (m l : string) : run unit * t :=
  if up (db self) then
    (ret tt,
     set_db (add_usage {| kind := "cache_hit"; event_movie_id := m;
                          event_language := l; timestamp := now |} (db self)) self)
  else (log Debug' "Error recording cache hit", self).

(** The text of a stored blob: decompressed when tagged so, and decoded
    leniently when it is not, or when decompressing or decoding fails. *)
Definition blob_text `{Codecs} (f : grid_file) : string :=
  if compressed f then
    match gzip_decompress (data f) with
    | Ok bytes =>
        match decode_utf8 bytes with
        | Ok content => content
        | Fail _ => decode_utf8_replace (data f)
        end
    | Fail _ => decode_utf8_replace (data f)
    end
  else decode_utf8_replace (data f).

Definition get_cached_subtitle_content `{Codecs} (self : t) (now : Z) (m l : string)
  : run (option string) * t :=
  let '(connected, self1) := ensure_connected self in
  let srv := db self1 in
  if up srv then
    match List.find (named (blob_name m l)) (fs srv) with
    | None => (exec connected; ret None, self1)
    | Some grid_file =>
        let content := blob_text grid_file in
        let '(recorded, self2) := _record_cache_hit self1 now m l in
        (exec connected;
         exec recorded;
         exec log Debug' "Retrieved cached subtitle content";
         ret (Some content),
         self2)
    end
  else
    (try_except
       (exec connected; raise ServerSelectionTimeoutError)
       (fun e => exec log Error' ("Error getting cached subtitle content: "
                                  +:+ exn_text e);
                 ret None),
     self1).

(** *** Reading the metadata back *)

(** [_record_access]: the insert is attempted, its failure swallowed. *)
Definition _record_access (self : t) (now : Z) (m l : string) : run unit * t :=
  if up (db self) then
    (ret tt,
     set_db (add_usage {| kind := "access"; event_movie_id := m;
                          event_language := l; timestamp := now |} (db self)) self)
  else (log Debug' "Error recording access", self).

(** The filter [{"movie_id": movie_id, "language": language,
    "expires_at": {"$gt": now}}]. *)
Definition current (m l : string) (now : Z) (d : document) : bool :=
  same_key m l d && (now <? expires_at d).

(** [get_subtitle_metadata]; the ['_id'] the driver adds to the document
    is not part of [document]. *)
Definition get_subtitle_metadata (self : t) (now : Z) (m l : string)
  : run (option document) * t :=
  let '(connected, self1) := ensure_connected self in
  let srv := db self1 in
  if up srv then
    match List.find (current m l now) (subtitles_metadata srv) with
    | Some result =>
        let '(recorded, self2) := _record_access self1 now m l in
        (exec connected;
         exec log Debug' "Found subtitle metadata";
         exec recorded;
         ret (Some result),
         self2)
    | None => (exec connected; ret None, self1)
    end
  else
    (try_except
       (exec connected; raise ServerSelectionTimeoutError)
       (fun e => exec log Error' ("Error getting subtitle metadata: " +:+ exn_text e);
                 ret None),
     self1).

(** *** Verifying a cached text *)

(** What [verify_subtitle_integrity] reports: the ['status'] and, on the
    paths that set one, the ['message']. *)
Record verification : Type := {
  status : string;
  message : option string
}.

(** The module imports [logging], [gridfs], [datetime], [typing], [motor],
    [pymongo], [config], [info], [gzip], [json] and [asyncio], and not
    [re]: evaluating the name [re] raises [NameError]. *)
Definition NameError : exn := Exception "NameError" "name 're' is not defined".

(** [verify_subtitle_integrity]. The statements that follow the
    evaluation of [re.search] (building the 'verified' report and the
    [$set] of [verification_status]) are never reached. *)
Definition verify_subtitle_integrity `{Codecs} (self : t) (now : Z) (m l : string)
  : run verification * t :=
  let failed (e : exn) : run verification :=
    exec log Error' ("Error verifying subtitle integrity: " +:+ exn_text e);
    ret {| status := "error"; message := Some (exn_text e) |} in
  let '(connected, self1) := ensure_connected self in
  match connected with
  | (tr, Return _) =>
      let '(found, self2) := get_subtitle_metadata self1 now m l in
      match found with
      | (tr1, Return None) =>
          ((tr ++ tr1,
            Return {| status := "not_found";
                      message := Some "Subtitle metadata not found" |}), self2)
      | (tr1, Return (Some metadata)) =>
          if negb (cached_content metadata) then
            ((tr ++ tr1,
              Return {| status := "not_cached";
                        message := Some "Subtitle content not cached" |}), self2)
          else
            let '(read, self3) := get_cached_subtitle_content self2 now m l in
            match read with
            | (tr2, Return content) =>
                if negb (truthy content) then
                  ((tr ++ tr1 ++ tr2,
                    Return {| status := "content_missing";
                              message := Some "Cached content could not be retrieved" |}),
                   self3)
                else
                  let line_count :=
                    length (List.filter
                              (fun line => negb (String.eqb (SubtitleProcessor.strip line) ""))
                              (split_on SubtitleProcessor.newline (fmt content))) in
                  (try_except
                     (exec (tr ++ tr1 ++ tr2, Return tt);
                      raise NameError)
                     failed,
                   self3)
            | (tr2, Raise e) => (try_except (tr ++ tr1 ++ tr2, Raise e) failed, self3)
            | (tr2, Hang) => ((tr ++ tr1 ++ tr2, Hang), self3)
            end
      | (tr1, Raise e) => (try_except (tr ++ tr1, Raise e) failed, self2)
      | (tr1, Hang) => ((tr ++ tr1, Hang), self2)
      end
  | (tr, Raise e) => (try_except (tr, Raise e) failed, self1)
  | (tr, Hang) => ((tr, Hang), self1)
  end.

(** *** Movie records *)

(** The update of [store_movie_subtitle_info] names ['check_count'] both
    in its [$set] document and in its [$inc]; MongoDB refuses an update
    whose operators name the same path, whatever the filter matches. *)
Definition WriteError : exn :=
  Exception "WriteError"
    "Updating the path 'check_count' would create a conflict at 'check_count'".

(** [await self.movies_collection.update_one(filter, {"$set": document,
    "$inc": {"check_count": 1}}, upsert=True)]: refused, or not sent. *)
Definition update_one_set_and_inc (srv : server) : run unit :=
  raise (if up srv then WriteError else ServerSelectionTimeoutError).

(** [store_movie_subtitle_info]: nothing is written, whatever the
    document holds. *)
Definition store_movie_subtitle_info (self : t) (now : Z) (imdb_id title : string)
    (available_languages : list string) : run bool * t :=
  let '(connected, self1) := ensure_connected self in
  (try_except
     (exec connected;
      exec update_one_set_and_inc (db self1);
      exec log Info' "Stored movie subtitle info";
      ret true)
     (fun e => exec log Error' ("Error storing movie subtitle info: " +:+ exn_text e);
               ret false),
   self1).

End SubtitleStorage.

(** * database/subtitle_db.py *)

Module SubtitleDatabase.

Record t : Type := mk {
  storage : option SubtitleStorage.t;
  cache : option CacheManager.t;
  api_manager : option SubtitleAPIManager.t;
  processor : option SubtitleProcessor.t;
  _initialized : bool;
  _error_count : Z;
  _last_error : option string
}.

(** [SubtitleDatabase()] *)
Definition init : t := mk None None None None false 0 None.

(** The manager [SubtitleAPIManager()] builds: an API key is configured,
    so the token-auth client exists, not yet logged in; 3 attempts, 1 s. *)
Definition fresh_api_manager : SubtitleAPIManager.t :=
  SubtitleAPIManager.mk
    (Some (OpenSubtitlesAPI.mk (Some "key") (Some "user") (Some "secret") None None
             (RateLimiter.init 60 60)))
    3 1.

(** [initialize], given the two servers the configured URLs lead to. The
    storage connection failing fails the initialization, which tears down
    what was built and re-raises; the cache connection failing does not. *)
Definition initialize (self : t) (mongo : SubtitleStorage.server)
    (redis : CacheManager.server) : run bool * t :=
  if _initialized self then (ret true, self)
  else
    let '(connected, st) := SubtitleStorage.connect (SubtitleStorage.init mongo) in
    match connected with
    | (tr, Return _) =>
        let '(cached, c) := CacheManager.connect CacheManager.init redis in
        ((tr ++ [EvLog Info' "Storage initialized"] ++ events cached
             ++ [EvLog Info' "Cache initialized";
                 EvLog Info' "API manager initialized";
                 EvLog Info' "Processor initialized";
                 EvLog Info' "Subtitle database system initialized successfully"],
          Return true),
         mk (Some st) (Some c) (Some fresh_api_manager) (Some SubtitleProcessor.init)
            true 0 None)
    | (tr, Raise e) =>
        ((tr ++ [EvLog Error' ("Failed to initialize subtitle database system: "
                               +:+ exn_text e)],
          Raise e),
         mk None None None None false (_error_count self + 1) (Some (exn_text e)))
    | (tr, Hang) => ((tr, Hang), self)
    end.

Definition ensure_initialized (self : t) (mongo : SubtitleStorage.server)
    (redis : CacheManager.server) : run bool * t :=
  if _initialized self then (ret true, self)
  else
    let '(m, self1) := initialize self mongo redis in
    (exec m; ret (_initialized self1), self1).

Definition AttributeError : exn :=
  Exception "AttributeError" "'NoneType' object has no attribute".

Definition set_storage (st : SubtitleStorage.t) (self : t) : t :=
  mk (Some st) (cache self) (api_manager self) (processor self)
     (_initialized self) (_error_count self) (_last_error self).

Definition set_cache (c : CacheManager.t) (self : t) : t :=
  mk (storage self) (Some c) (api_manager self) (processor self)
     (_initialized self) (_error_count self) (_last_error self).

Definition failed_content (e : exn) : run (option string) :=
  exec log Error' ("Error getting subtitle content: " +:+ exn_text e); ret None.

(** The [try] block of [get_subtitle_content]. *)
Definition read_through `{SubtitleStorage.Codecs} (self : t) (now : Z)
    (movie_id language : string) : run (option string) * t :=
  match cache self with
  | None => (try_except (raise AttributeError) failed_content, self)
  | Some c =>
      let cached := CacheManager.get_subtitle_content c now movie_id language in
      match cached with
      | (tr, Return cached_content) =>
          if truthy cached_content then
            ((tr ++ [EvLog Debug' "Cache hit for subtitle content"],
              Return cached_content), self)
          else
            match storage self with
            | None =>
                (try_except (exec cached; raise AttributeError) failed_content, self)
            | Some st =>
                let '(stored, st1) :=
                  SubtitleStorage.get_cached_subtitle_content st now movie_id language in
                let self1 := set_storage st1 self in
                match stored with
                | (tr', Return stored_content) =>
                    if truthy stored_content then
                      let '(written, c1) :=
                        CacheManager.set_subtitle_content c now movie_id language
                          (fmt stored_content) None in
                      (try_except
                         (exec cached; exec stored; exec written;
                          exec log Debug' "Storage hit for subtitle content";
                          ret stored_content)
                         failed_content,
                       set_cache c1 self1)
                    else (exec cached; exec stored; ret None, self1)
                | _ => (try_except (exec cached; do _ <- stored; ret None) failed_content,
                        self1)
                end
            end
      | _ => (try_except (do _ <- cached; ret None) failed_content, self)
      end
  end.

Definition get_subtitle_content `{SubtitleStorage.Codecs} (self : t)
    (mongo : SubtitleStorage.server) (redis : CacheManager.server) (now : Z)
    (movie_id language : string) : run (option string) * t :=
  let '(ready, self1) := ensure_initialized self mongo redis in
  match ready with
  | (tr, Return ok) =>
      if ok then
        let '((tr', o), self2) := read_through self1 now movie_id language in
        ((tr ++ tr', o), self2)
      else ((tr, Return None), self1)
  | (tr, Raise e) => ((tr, Raise e), self1)
  | (tr, Hang) => ((tr, Hang), self1)
  end.

(** *** Methods as actions on the facade *)

(** A method reads and updates the facade while it runs. *)
Definition action (A : Type) : Type := t -> run A * t.

Definition pure {A : Type} (m : run A) : action A := fun self => (m, self).

Definition and_then {A B : Type} (m : action A) (k : A -> action B) : action B :=
  fun self =>
    match m self with
    | ((tr, Return a), self1) => let '((tr', o), self2) := k a self1 in ((tr ++ tr', o), self2)
    | ((tr, Raise e), self1) => ((tr, Raise e), self1)
    | ((tr, Hang), self1) => ((tr, Hang), self1)
    end.

(** [try: m except Exception as e: h e] *)
Definition guarded {A : Type} (m : action A) (h : exn -> action A) : action A :=
  fun self =>
    match m self with
    | ((tr, Raise e), self1) => let '((tr', o), self2) := h e self1 in ((tr ++ tr', o), self2)
    | other => other
    end.

Declare Scope action_scope.
Delimit Scope action_scope with action.
Notation "'await' x <- m ; k" := (and_then m (fun x => k))
  (at level 10, x name, m at level 100, k at level 200) : action_scope.
Notation "'step' m ; k" := (and_then m (fun _ => k))
  (at level 10, m at level 100, k at level 200) : action_scope.

Definition set_api_manager (mgr : SubtitleAPIManager.t) (self : t) : t :=
  mk (storage self) (cache self) (Some mgr) (processor self)
     (_initialized self) (_error_count self) (_last_error self).

(** [await self.storage.f(...)], [await self.cache.f(...)] and
    [await self.api_manager.f(...)]: a component that is [None] has no
    attributes. *)
Definition on_storage {A : Type} (f : SubtitleStorage.t -> run A * SubtitleStorage.t)
  : action A :=
  fun self =>
    match storage self with
    | None => (raise AttributeError, self)
    | Some st => let '(m, st1) := f st in (m, set_storage st1 self)
    end.

Definition on_cache {A : Type} (f : CacheManager.t -> run A * CacheManager.t) : action A :=
  fun self =>
    match cache self with
    | None => (raise AttributeError, self)
    | Some c => let '(m, c1) := f c in (m, set_cache c1 self)
    end.

Definition on_api_manager {A : Type}
    (f : SubtitleAPIManager.t -> run A * SubtitleAPIManager.t) : action A :=
  fun self =>
    match api_manager self with
    | None => (raise AttributeError, self)
    | Some mgr => let '(m, mgr1) := f mgr in (m, set_api_manager mgr1 self)
    end.

(** *** Searching through the facade *)

(** What [search_and_cache_subtitles] returns: the value decoded from the
    cache, or a list of results. *)
Inductive found `{CacheManager.Json} : Type :=
| Cached (value : CacheManager.json)
| Fresh (results : list search_result).

(** The loop [for result in results: await
    self.storage.store_subtitle_metadata(imdb_id or movie_title, language,
    result)]. *)
Fixpoint store_results (now : Z) (movie_id language : string) (results : list search_result)
  : action unit :=
  match results with
  | [] => pure (ret tt)
  | result :: rest =>
      (step on_storage (fun st =>
               SubtitleStorage.store_subtitle_metadata st now movie_id language result);
       store_results now movie_id language rest)%action
  end.

(** The part of [search_and_cache_subtitles] after a cache miss. *)
Definition search_and_store `{CacheManager.Json}
    (env : SubtitleAPIManager.environment) (now : Z)
    (movie_title : string) (imdb_id : option string) (language : string)
    (file_hash : option string) : action found :=
  (step pure (log Info' "Searching subtitles");
   await results <-
     on_api_manager (fun mgr =>
       SubtitleAPIManager.search_subtitles mgr env movie_title imdb_id language file_hash);
   step (match results with
          | [] => pure (log Info' "No subtitles found")
          | _ :: _ =>
              step pure (log Info' "Found subtitle(s)");
              step store_results now
                      (if truthy imdb_id then fmt imdb_id else movie_title) language results;
              step on_cache (fun c =>
                      CacheManager.set_search_results c now movie_title language results None);
              if truthy imdb_id then
                step on_storage (fun st =>
                        SubtitleStorage.store_movie_subtitle_info st now (fmt imdb_id)
                          movie_title [language]);
                pure (ret tt)
              else pure (ret tt)
          end);
   pure (ret (Fresh results)))%action.

(** [search_and_cache_subtitles]; [now] is the reading of the clock
    during the call, the providers have the clock of [env]. *)
Definition search_and_cache_subtitles `{CacheManager.Json}
    (env : SubtitleAPIManager.environment)
    (mongo : SubtitleStorage.server) (redis : CacheManager.server) (now : Z)
    (movie_title : string) (imdb_id : option string) (language : string)
    (file_hash : option string) : action found :=
  (await ok <- (fun self => ensure_initialized self mongo redis);
   if negb ok then pure (ret (Fresh []))
   else
     guarded
       (await cached_results <-
          on_cache (fun c =>
            (CacheManager.get_search_results c now movie_title language, c));
        match cached_results with
        | Some value =>
            if CacheManager.json_truthy value then
              step pure (log Debug' "Cache hit for search results");
              pure (ret (Cached value))
            else search_and_store env now movie_title imdb_id language file_hash
        | None => search_and_store env now movie_title imdb_id language file_hash
        end)
       (fun e =>
          pure (exec log Error' ("Error searching subtitles: " +:+ exn_text e);
                ret (Fresh []))))%action.

(** *** The module-level convenience function *)

(** [initialize_subtitle_system], for the global facade and the
    configured [ENABLE_SUBTITLES]. *)
Definition initialize_subtitle_system (ENABLE_SUBTITLES : bool)
    (mongo : SubtitleStorage.server) (redis : CacheManager.server) : action bool :=
  if ENABLE_SUBTITLES then
    guarded
      (step (fun self => initialize self mongo redis);
       pure (ret true))%action
      (fun e =>
         pure (exec log Error' ("Failed to initialize subtitle system: " +:+ exn_text e);
               ret false))
  else pure (ret false).

End SubtitleDatabase.

(** * Specification vocabulary and sample inputs *)

(** ** Scoring *)

(** [p] occurs in [s]. *)
Definition is_substring (p s : string) : Prop :=
  exists pre post, s = pre +:+ p +:+ post.

(** The lowercased release text contains 'bluray', 'web-dl' or 'webrip'. *)
Definition has_release_term (release : string) : Prop :=
  exists term, In term OpenSubtitlesAPI.release_terms /\ is_substring term (lower release).

(** [score = download_count * 10 + (100 if release matches else 0)], read
    off the fields of a result. *)
Definition scored_by_formula (r : search_result) : Prop :=
  exists release,
    sr_release r = Val release /\
    (has_release_term release -> sr_quality_score r = sr_download_count r * 10 + 100) /\
    (~ has_release_term release -> sr_quality_score r = sr_download_count r * 10 + 0).

(** ** Rate limiting *)

(** The timestamps still inside the window at [now]. *)
Definition in_flight (self : RateLimiter.t) (now : Z) : list Z :=
  filter (fun c => RateLimiter.in_window self now c = true) (RateLimiter.calls self).

(** Successive [acquire()] calls, one at each instant of [times]. *)
Fixpoint acquire_all (self : RateLimiter.t) (times : list Z)
  : list (run unit) * RateLimiter.t :=
  match times with
  | [] => ([], self)
  | now :: later =>
      let '(m, self1) := RateLimiter.call self now in
      let '(ms, self2) := acquire_all self1 later in
      (m :: ms, self2)
  end.

(** Instants that all fall inside one window of each other. *)
Definition within_one_window (self : RateLimiter.t) (earlier later : list Z) : Prop :=
  forall t t', t ∈ earlier -> t' ∈ later -> t' - t < seconds (RateLimiter.time_window self).

(** ** Retrying *)

(** The state in which attempt [k] starts when every earlier attempt
    failed, and what attempt [k] then does. *)
Fixpoint state_before {St A : Type} (op : nat -> St -> run A * St) (st : St) (k : nat) : St :=
  match k with
  | O => st
  | S j => snd (op j (state_before op st j))
  end.

Definition attempt {St A : Type} (op : nat -> St -> run A * St) (st : St) (k : nat) : run A :=
  fst (op k (state_before op st k)).

(** The sleeps up to (not including) attempt [k] of a run in which attempts
    [from .. k-1] failed: those of each failed attempt, then the backoff. *)
Definition backoff_sleeps {St A : Type} (retry_delay : Z)
    (op : nat -> St -> run A * St) (st : St) (from count : nat) : list Z :=
  flat_map (fun j => slept (attempt op st j) ++ [seconds (retry_delay * 2 ^ Z.of_nat j)])
    (seq from count).

(** ** De-duplication *)

(** The loop of [_deduplicate_results] with the set of keys seen so far. *)
Fixpoint dedup_from (seen : gset string) (results : list search_result) : list search_result :=
  match results with
  | [] => []
  | r :: rest =>
      if decide (SubtitleAPIManager.dedup_key r ∈ seen) then dedup_from seen rest
      else r :: dedup_from ({[ SubtitleAPIManager.dedup_key r ]} ∪ seen) rest
  end.

(** How many results of [l] have the joined key [k]. *)
Definition count_key (k : string) (l : list search_result) : nat :=
  length (filter (fun r => SubtitleAPIManager.dedup_key r = k) l).

(** The (filename, language) pair a result is filed under. *)
Definition file_and_language (r : search_result) : option string * option string :=
  (get_or (sr_filename r) "", get_or (sr_language r) "").

(** How many results of [l] are filed under the pair [p]. *)
Definition count_pair (p : option string * option string) (l : list search_result) : nat :=
  length (filter (fun r => file_and_language r = p) l).

(** ** Providers and manager: sample inputs *)

(** A search hit with one file and every attribute but the URL. *)
Definition hit (id language : string) (download_count : Z) (release file : string)
  : OpenSubtitlesAPI.item :=
  {| OpenSubtitlesAPI.id := Val id;
     OpenSubtitlesAPI.attributes_of :=
       Val {| OpenSubtitlesAPI.language := Val language;
              OpenSubtitlesAPI.download_count := Val download_count;
              OpenSubtitlesAPI.release := Val release;
              OpenSubtitlesAPI.files := Val [ {| OpenSubtitlesAPI.file_name := Val file |} ];
              OpenSubtitlesAPI.url := Absent |} |}.

(** What [aiohttp] raises when the host cannot be reached. *)
Definition unreachable : exn := Exception "ClientConnectorError" "cannot connect to host".

(** A network on which the search endpoint answers [status] with [hits]. *)
Definition search_answers (status : Z) (hits : list OpenSubtitlesAPI.item)
  : OpenSubtitlesAPI.network :=
  {| OpenSubtitlesAPI.on_login := Raise unreachable;
     OpenSubtitlesAPI.on_search :=
       Return {| OpenSubtitlesAPI.search_status := status;
                 OpenSubtitlesAPI.search_data := Return (Val hits) |};
     OpenSubtitlesAPI.on_download := Raise unreachable;
     OpenSubtitlesAPI.on_file := Raise unreachable |}.

(** The hash-lookup service out of reach. *)
Definition subdb_down : SubDBAPI.network :=
  {| SubDBAPI.on_search := Raise unreachable; SubDBAPI.on_download := Raise unreachable |}.

(** A logged-in client with the configured limiter (60 calls per 60 s). *)
Definition logged_in : OpenSubtitlesAPI.t :=
  OpenSubtitlesAPI.mk (Some "key") (Some "user") (Some "secret") (Some "token") None
    (RateLimiter.init 60 60).

(** The manager as configured: 3 attempts, base delay 1 s. *)
Definition configured : SubtitleAPIManager.t :=
  SubtitleAPIManager.mk (Some logged_in) 3 1.

(** The same answers at every attempt, the clock at 0. *)
Definition always (net : OpenSubtitlesAPI.network) : SubtitleAPIManager.environment :=
  {| SubtitleAPIManager.os_network := fun _ => net;
     SubtitleAPIManager.subdb_network := fun _ => subdb_down;
     SubtitleAPIManager.clock := fun _ => 0 |}.

(** Three hits whose joined keys are all "Inception_pt_br". *)
Definition colliding_hits : list OpenSubtitlesAPI.item :=
  [ hit "101" "pt_br" 900 "Inception.2010.BluRay" "Inception";
    hit "102" "br" 40 "Inception.2010.WEBRip" "Inception_pt";
    hit "103" "br" 7 "Inception.2010.CAM" "Inception_pt" ].

(** ** Durable store and cache *)

(** How many records the collection holds for a (movie, language) pair. *)
Definition records_for (m l : string) (docs : list SubtitleStorage.document) : nat :=
  length (List.filter (SubtitleStorage.same_key m l) docs).

(** The record a lookup by (movie, language) finds. *)
Definition record_of (m l : string) (self : SubtitleStorage.t)
  : option SubtitleStorage.document :=
  List.find (SubtitleStorage.same_key m l)
    (SubtitleStorage.subtitles_metadata (SubtitleStorage.db self)).

(** The cache store is unavailable: no client, or a server that fails
    every command. *)
Definition cache_unavailable (c : CacheManager.t) : Prop :=
  match CacheManager.redis_client c with
  | None => True
  | Some srv => CacheManager.up srv = false
  end.

(** The text the blob store holds for a pair, if it can be reached. *)
Definition stored_text `{SubtitleStorage.Codecs} (st : SubtitleStorage.t) (m l : string)
  : option string :=
  if SubtitleStorage.up (SubtitleStorage.db st) then
    option_map SubtitleStorage.blob_text
      (List.find (SubtitleStorage.named (SubtitleStorage.blob_name m l))
         (SubtitleStorage.fs (SubtitleStorage.db st)))
  else None.

(** [x if x else None] *)
Definition nonempty (o : option string) : option string :=
  if truthy o then o else None.

(** ** Content processor *)

(** A run that ends, by returning or raising; a run that returns. *)
Definition no_hang {A : Type} (m : run A) : Prop := ending m <> Hang.
Definition returns {A : Type} (m : run A) : Prop := exists tr a, m = (tr, Return a).

(** The three operations that return a text or [None]: when they return
    [None] a line was written to the log. *)
Definition text_or_logged (m : run (option string)) : Prop :=
  exists v, ending m = Return v /\ (v = None -> logged m <> []).

(** Library calls made in turn: the first to fail is the failure of the
    whole. *)
Definition then_call {A B : Type} (x : fallible A) (k : A -> fallible B) : fallible B :=
  match x with
  | Ok a => k a
  | Fail e => Fail e
  end.

(** What the libraries make of the arguments of the three operations:
    the text a conversion, a shift and a merge come to, or the exception
    of the first call that fails. *)
Definition conversion `{SubtitleProcessor.Libraries} (content target_format : string)
  : fallible string :=
  then_call (SubtitleProcessor.from_string content) (fun subtitles =>
  SubtitleProcessor.to_string subtitles (SubtitleProcessor.converted_format target_format)).

Definition shifting `{SubtitleProcessor.Libraries} (content : string) (offset_ms : fallible Z)
  : fallible string :=
  then_call (SubtitleProcessor.from_string content) (fun subtitles =>
  then_call offset_ms (fun ms =>
  then_call (SubtitleProcessor.shift subtitles ms) (fun shifted =>
  SubtitleProcessor.to_string shifted "srt"))).

Fixpoint appending `{SubtitleProcessor.Libraries} (merged : SubtitleProcessor.SSAFile)
    (subtitle_contents : list string) : fallible SubtitleProcessor.SSAFile :=
  match subtitle_contents with
  | [] => Ok merged
  | content :: rest =>
      then_call (SubtitleProcessor.from_string content) (fun subtitles =>
      then_call (SubtitleProcessor.extend merged subtitles) (fun merged' =>
      appending merged' rest))
  end.

Definition merging `{SubtitleProcessor.Libraries} (subtitle_contents : list string)
  : fallible string :=
  then_call (appending SubtitleProcessor.new_file subtitle_contents) (fun merged =>
  then_call (SubtitleProcessor.sort merged) (fun sorted =>
  SubtitleProcessor.to_string sorted "srt")).

(** The boundary of the three operations (the claim as amended): when the
    work succeeds the operation returns its text and logs nothing; when
    it fails the operation returns [None], and the reason is the one line
    it writes to the log, under [label]. *)
Definition at_boundary (label : string) (work : fallible string) (m : run (option string))
  : Prop :=
  (forall out, work = Ok out -> m = ([], Return (Some out))) /\
  (forall e, work = Fail e -> m = ([EvLog Error' (label +:+ exn_text e)], Return None)).

(** A library in which every call fails with [e]. *)
Definition failing_with (e : exn) : SubtitleProcessor.Libraries :=
  {| SubtitleProcessor.chardet_detect := fun _ => Fail e;
     SubtitleProcessor.decode := fun _ _ => Fail e;
     SubtitleProcessor.decode_replace := fun _ _ => Fail e;
     SubtitleProcessor.SSAFile := unit;
     SubtitleProcessor.new_file := tt;
     SubtitleProcessor.from_string := fun _ => Fail e;
     SubtitleProcessor.to_string := fun _ _ => Fail e;
     SubtitleProcessor.entries := fun _ => 0%nat;
     SubtitleProcessor.shift := fun _ _ => Fail e;
     SubtitleProcessor.extend := fun _ _ => Fail e;
     SubtitleProcessor.sort := fun _ => Fail e |}.

(** A library that detects UTF-8 with full confidence, decodes every byte
    string to itself, and reads any non-empty text as a one-cue file that
    prints back as that text. *)
Definition plain_text : SubtitleProcessor.Libraries :=
  {| SubtitleProcessor.chardet_detect :=
       fun _ => Ok {| SubtitleProcessor.det_encoding := Val "utf-8";
                      SubtitleProcessor.det_confidence := Val 1%Q |};
     SubtitleProcessor.decode := fun _ content => Ok content;
     SubtitleProcessor.decode_replace := fun _ content => Ok content;
     SubtitleProcessor.SSAFile := string;
     SubtitleProcessor.new_file := "";
     SubtitleProcessor.from_string :=
       fun s => if String.eqb s "" then Fail (Exception "FormatAutodetectionError" "no format")
                else Ok s;
     SubtitleProcessor.to_string := fun f _ => Ok f;
     SubtitleProcessor.entries := fun f => if String.eqb f "" then 0%nat else 1%nat;
     SubtitleProcessor.shift := fun f _ => Ok f;
     SubtitleProcessor.extend := fun f g => Ok (f +:+ g);
     SubtitleProcessor.sort := fun f => Ok f |}.

(** The claim as the specification words it for [convert_format]: a failed
    conversion hands its caller, with the null result, the reason of the
    failure. *)
Definition convert_format_returns_reason : Prop :=
  exists reason_of : option string -> string,
    forall (L : SubtitleProcessor.Libraries) content source_format target_format e,
      SubtitleProcessor.from_string content = Fail e ->
      exists v,
        ending (SubtitleProcessor.convert_format content source_format target_format)
          = Return v /\
        reason_of v = exn_text e.

(** Every character of [w] is of the class. *)
Fixpoint all_in (cls : ascii -> bool) (w : string) : bool :=
  match w with
  | EmptyString => true
  | String c w' => cls c && all_in cls w'
  end.

(** [matches p w]: the whole of [w] is matched by the pattern [p]. *)
Inductive matches : SubtitleProcessor.pattern -> string -> Prop :=
| matches_end : matches [] ""
| matches_once a p c w :
    SubtitleProcessor.repeats a = SubtitleProcessor.Once ->
    SubtitleProcessor.accepts a c = true ->
    matches p w ->
    matches (a :: p) (String c w)
| matches_star a p u w :
    SubtitleProcessor.repeats a = SubtitleProcessor.ZeroOrMore ->
    all_in (SubtitleProcessor.accepts a) u = true ->
    matches p w ->
    matches (a :: p) (u +:+ w)
| matches_plus a p c u w :
    SubtitleProcessor.repeats a = SubtitleProcessor.OneOrMore ->
    SubtitleProcessor.accepts a c = true ->
    all_in (SubtitleProcessor.accepts a) u = true ->
    matches p w ->
    matches (a :: p) (String c (u +:+ w)).

(** [p] matches somewhere in [s]. *)
Definition occurs (p : SubtitleProcessor.pattern) (s : string) : Prop :=
  exists pre w post, s = pre +:+ w +:+ post /\ matches p w.

(** [s] holds [k] matches of [p], one after the other. *)
Inductive occurrences (p : SubtitleProcessor.pattern) : string -> nat -> Prop :=
| occurrences_none s : occurrences p s 0
| occurrences_more pre w rest k :
    matches p w -> occurrences p rest k -> occurrences p (pre +:+ w +:+ rest) (S k).

(** A pattern without [*] and [+]: its matches all have its length. *)
Definition all_once (p : SubtitleProcessor.pattern) : Prop :=
  Forall (fun a => SubtitleProcessor.repeats a = SubtitleProcessor.Once) p.

(** [s[n:]] *)
Fixpoint drop_chars (n : nat) (s : string) : string :=
  match n, s with
  | S n', String _ s' => drop_chars n' s'
  | _, _ => s
  end.

(** The text shows one of the four marks of a subtitle file: an SRT cue
    number and timing line, "WEBVTT" within the first 100 characters, an
    ASS/SSA section header, or three bare HH:MM:SS timestamps. *)
Definition looks_like_subtitles (text : string) : Prop :=
  occurs SubtitleProcessor.srt_pattern text \/
  is_substring "WEBVTT" (take_chars 100 text) \/
  (is_substring "[Script Info]" text \/ is_substring "[V4+ Styles]" text) \/
  occurrences SubtitleProcessor.time_pattern text 3.

(** The decoding step of [validate_subtitle_file]. *)
Definition decoded `{SubtitleProcessor.Libraries} (self : SubtitleProcessor.t)
    (content : string) : run string :=
  do encoding <- SubtitleProcessor.detect_encoding self content;
  SubtitleProcessor.decode_detected encoding content.

(** ** Sample inputs *)

(** A hit with 500 downloads and a BluRay release, and the result the
    token-auth provider makes of it. *)
Definition bluray_hit : OpenSubtitlesAPI.item :=
  hit "7" "en" 500 "Inception.2010.BluRay.x264" "Inception.srt".

Definition bluray_result : search_result :=
  mk_result (Val "7") (Val "en") 500 (Val "Inception.2010.BluRay.x264")
    (Val "Inception.srt") (Val "") "srt" "opensubtitles" 5100.

(** The hash-lookup service answering with a language list. *)
Definition subdb_lists (languages : string) : SubDBAPI.network :=
  {| SubDBAPI.on_search := Return {| SubDBAPI.status := 200; SubDBAPI.body := Return languages |};
     SubDBAPI.on_download := Raise unreachable |}.


(** An operation whose first two attempts time out and whose third
    returns 7; and one that always times out. *)
Definition timeout : exn := Exception "TimeoutError" "timed out".

Definition third_time_lucky (k : nat) (calls : nat) : run Z * nat :=
  if (k <? 2)%nat then (raise timeout, S calls) else (ret 7, S calls).

Definition never_lucky (k : nat) (calls : nat) : run Z * nat :=
  (raise (Exception "TimeoutError" (if (k =? 2)%nat then "third timeout" else "timed out")),
   S calls).

(** An empty, reachable document store, and the search result stored. *)
Definition empty_server : SubtitleStorage.server :=
  SubtitleStorage.mk_server true [] [] [] [] 1.

Definition stored_once : SubtitleStorage.t :=
  snd (SubtitleStorage.store_subtitle_metadata (SubtitleStorage.init empty_server)
         (seconds 100) "tt1375666" "en" bluray_result).

Definition stored_twice : SubtitleStorage.t :=
  snd (SubtitleStorage.store_subtitle_metadata stored_once
         (seconds 160) "tt1375666" "en" bluray_result).

(** The claim as the specification words it: the second of two identical
    upserts leaves [created_at] as the first one set it. *)
Definition upsert_keeps_created_at : Prop :=
  forall self now1 now2 m l data tr1 self1 tr2 self2 d1 d2,
    SubtitleStorage.store_subtitle_metadata self now1 m l data = ((tr1, Return true), self1) ->
    SubtitleStorage.store_subtitle_metadata self1 now2 m l data = ((tr2, Return true), self2) ->
    record_of m l self1 = Some d1 ->
    record_of m l self2 = Some d2 ->
    SubtitleStorage.created_at d2 = SubtitleStorage.created_at d1.

(** Codecs that leave every text as it is. *)
Definition transparent : SubtitleStorage.Codecs :=
  {| SubtitleStorage.encode_utf8 := fun s => s;
     SubtitleStorage.decode_utf8 := fun b => Ok b;
     SubtitleStorage.decode_utf8_replace := fun b => b;
     SubtitleStorage.gzip_compress := fun b => b;
     SubtitleStorage.gzip_decompress := fun b => Ok b;
     SubtitleStorage.decode_encode := fun s => eq_refl;
     SubtitleStorage.decode_replace_encode := fun s => eq_refl;
     SubtitleStorage.decompress_compress := fun b => eq_refl |}.

(** ["1\n00:00:01,000 --> 00:00:02,000\nHello"] *)
Definition one_cue : string :=
  "1" +:+ SubtitleProcessor.LF +:+ "00:00:01,000 --> 00:00:02,000"
  +:+ SubtitleProcessor.LF +:+ "Hello".

(** The store after the record was written and its text cached. *)
Definition with_blob : SubtitleStorage.t :=
  snd (SubtitleStorage.cache_subtitle_content (H := transparent) stored_once
         (seconds 110) "tt1375666" "en" one_cue true).

(** A Redis server that fails every command. *)
Definition redis_down : CacheManager.server := {| CacheManager.up := false; CacheManager.db := ∅ |}.

(** An initialized facade whose cache server fails every command. *)
Definition degraded : SubtitleDatabase.t :=
  SubtitleDatabase.mk (Some with_blob)
    (Some (CacheManager.set_redis_client (Some redis_down) CacheManager.init))
    (Some SubtitleDatabase.fresh_api_manager) (Some SubtitleProcessor.init) true 0 None.

(** ["WEBVTT\n\n00:00:01.000 --> 00:00:02.000\nHello"] *)
Definition webvtt_sample : string :=
  "WEBVTT" +:+ SubtitleProcessor.LF +:+ SubtitleProcessor.LF
  +:+ "00:00:01.000 --> 00:00:02.000" +:+ SubtitleProcessor.LF +:+ "Hello".

(** ** Vocabulary of the further properties *)

(** ** Rate limiter: the window as a whole *)

(** The instants, among [times], at which the call returned. *)
Fixpoint let_through (results : list (run unit)) (times : list Z) : list Z :=
  match results, times with
  | m :: ms, t :: ts =>
      match ending m with
      | Return _ => t :: let_through ms ts
      | _ => let_through ms ts
      end
  | _, _ => []
  end.

(** The instants of [l] less than [window] seconds before [now]. *)
Definition inside (window now : Z) (l : list Z) : list Z :=
  filter (fun c => now - c < seconds window) l.

(** ** Token-auth provider: processing the hits *)

(** A hit the client can turn into a result: its attributes, download
    count, release and file list are not null, and the file list is not
    empty. *)
Definition usable (it : OpenSubtitlesAPI.item) : bool :=
  match get_or (OpenSubtitlesAPI.attributes_of it) OpenSubtitlesAPI.no_attributes with
  | None => false
  | Some a =>
      match get_or (OpenSubtitlesAPI.files a) [ {| OpenSubtitlesAPI.file_name := Absent |} ],
            get_or (OpenSubtitlesAPI.download_count a) 0,
            get_or (OpenSubtitlesAPI.release a) "" with
      | Some (_ :: _), Some _, Some _ => true
      | _, _, _ => false
      end
  end.

(** The result made of a hit, if one is made. *)
Definition converted (it : OpenSubtitlesAPI.item) : option search_result :=
  match ending (OpenSubtitlesAPI.process_item it) with
  | Return r => Some r
  | _ => None
  end.

(** Descending by quality score. *)
Definition best_first (l : list search_result) : Prop :=
  StronglySorted (fun x y => sr_quality_score y <= sr_quality_score x) l.

(** ** Token-auth provider: credentials and the token *)

(** The client credentials are all set. *)
Definition has_credentials (self : OpenSubtitlesAPI.t) : Prop :=
  truthy (OpenSubtitlesAPI.api_key self) = true /\
  truthy (OpenSubtitlesAPI.username self) = true /\
  truthy (OpenSubtitlesAPI.password self) = true.

(** The login endpoint answering 200 with the given ['token'] entry. *)
Definition login_answers (tok : field string) : OpenSubtitlesAPI.network :=
  {| OpenSubtitlesAPI.on_login :=
       Return {| OpenSubtitlesAPI.login_status := 200;
                 OpenSubtitlesAPI.login_token := Return tok |};
     OpenSubtitlesAPI.on_search := Raise unreachable;
     OpenSubtitlesAPI.on_download := Raise unreachable;
     OpenSubtitlesAPI.on_file := Raise unreachable |}.

(** ** Aggregation manager: the search as a whole *)

(** The two provider calls of a manager's search, each under the retry
    helper. *)
Definition os_search (self : SubtitleAPIManager.t) (env : SubtitleAPIManager.environment)
    (movie_title : string) (imdb_id : option string) (language : string)
    (os : OpenSubtitlesAPI.t) : run (list search_result) * OpenSubtitlesAPI.t :=
  SubtitleAPIManager._retry_operation self
    (fun k os => OpenSubtitlesAPI.search_subtitles os (SubtitleAPIManager.os_network env k)
                   (SubtitleAPIManager.clock env k) imdb_id language (Some movie_title)) os.

Definition subdb_search (self : SubtitleAPIManager.t) (env : SubtitleAPIManager.environment)
    (language : string) (file_hash : option string) : run (list search_result) :=
  fst (SubtitleAPIManager._retry_operation self
         (fun k (_ : unit) =>
            (SubDBAPI.search_by_hash (SubtitleAPIManager.subdb_network env k)
               (fmt file_hash) language, tt)) tt).

(** No two results share a joined key. *)
Definition distinct_keys (l : list search_result) : Prop :=
  NoDup (map SubtitleAPIManager.dedup_key l).

(** Three hits with different file names. *)
Definition three_hits : list OpenSubtitlesAPI.item :=
  [ hit "1" "en" 30 "Inception.2010.BluRay" "a.srt";
    hit "2" "en" 20 "Inception.2010.WEBRip" "b.srt";
    hit "3" "en" 10 "Inception.2010.CAM" "c.srt" ].

(** The token-auth provider answering [hits], the hash-lookup provider
    listing English. *)
Definition both_answer (hits : list OpenSubtitlesAPI.item) : SubtitleAPIManager.environment :=
  {| SubtitleAPIManager.os_network := fun _ => search_answers 200 hits;
     SubtitleAPIManager.subdb_network := fun _ => subdb_lists "en,fr";
     SubtitleAPIManager.clock := fun _ => 0 |}.

(** A stored record whose provider is neither of the two. *)
Definition foreign_result : search_result :=
  mk_result (Val "9") (Val "en") 0 Absent Absent Absent "srt" "podnapisi" 0.

(** ** Cache store: keys, read-back and expiry *)

(** The character does not occur in the text. *)
Fixpoint free_of (c : ascii) (s : string) : bool :=
  match s with
  | EmptyString => true
  | String x s' => negb (Ascii.eqb x c) && free_of c s'
  end.

(** [ttl or self.content_ttl] *)
Definition lifetime (c : CacheManager.t) (ttl : option Z) : Z :=
  match ttl with
  | Some n => if n =? 0 then CacheManager.content_ttl c else n
  | None => CacheManager.content_ttl c
  end.

(** A reachable, empty cache server, and the cache manager connected to it. *)
Definition redis_empty : CacheManager.server := {| CacheManager.up := true; CacheManager.db := ∅ |}.

Definition connected_cache : CacheManager.t :=
  CacheManager.set_redis_client (Some redis_empty) CacheManager.init.

(** ** Durable store: verifying a cached text *)

(** Two servers that differ at most in their usage statistics. *)
Definition same_data (a b : SubtitleStorage.server) : Prop :=
  SubtitleStorage.up a = SubtitleStorage.up b /\
  SubtitleStorage.subtitles_metadata a = SubtitleStorage.subtitles_metadata b /\
  SubtitleStorage.movies_subtitles a = SubtitleStorage.movies_subtitles b /\
  SubtitleStorage.fs a = SubtitleStorage.fs b.

(** What [verify_subtitle_integrity] reports for a pair, read off the
    store: the record must be there and not expired, be marked as cached,
    and its blob must hold a non-empty text; past these three checks the
    report is an error. *)
Definition verdict `{SubtitleStorage.Codecs} (self : SubtitleStorage.t) (now : Z) (m l : string)
  : string :=
  if SubtitleStorage.up (SubtitleStorage.db self) then
    match List.find (SubtitleStorage.current m l now)
            (SubtitleStorage.subtitles_metadata (SubtitleStorage.db self)) with
    | None => "not_found"
    | Some d =>
        if negb (SubtitleStorage.cached_content d) then "not_cached"
        else match nonempty (stored_text self m l) with
             | None => "content_missing"
             | Some _ => "error"
             end
    end
  else if SubtitleStorage._connected self then "not_found" else "error".

(** ** Content processor: compression *)

(** Codecs over [plain_text] that leave every text as it is, and codecs
    that refuse every text. *)
Definition plain_codecs : SubtitleProcessor.Compression (H := plain_text) :=
  {| SubtitleProcessor.encode := fun _ s => Ok s;
     SubtitleProcessor.gzip_compress := fun b => b;
     SubtitleProcessor.gzip_decompress := fun b => Ok b;
     SubtitleProcessor.decode_encode :=
       fun content content_bytes (Hb : Ok content = Ok content_bytes) =>
         (eq_sym Hb : SubtitleProcessor.decode (Libraries := plain_text) "utf-8" content_bytes
                      = Ok content);
     SubtitleProcessor.decompress_compress := fun b => eq_refl |}.

Definition refused : exn := Exception "UnicodeEncodeError" "surrogates not allowed".

Definition refusing_codecs : SubtitleProcessor.Compression (H := plain_text) :=
  {| SubtitleProcessor.encode := fun _ _ => Fail refused;
     SubtitleProcessor.gzip_compress := fun b => b;
     SubtitleProcessor.gzip_decompress := fun b => Ok b;
     SubtitleProcessor.decode_encode :=
       fun content content_bytes (Hb : Fail refused = Ok content_bytes) =>
         match Hb in (_ = y)
               return match y with
                      | Ok b => SubtitleProcessor.decode (Libraries := plain_text) "utf-8" b
                                = Ok content
                      | Fail _ => True
                      end
         with eq_refl => I end;
     SubtitleProcessor.decompress_compress := fun b => eq_refl |}.

(** ** Content processor: timestamps *)

(** The value of a decimal digit. *)
Definition digit_value (c : ascii) : option Z :=
  if SubtitleProcessor.is_digit c then Some (Z.of_N (N_of_ascii c) - 48) else None.

(** The number two, and three, digits spell. *)
Definition two_digits (a b : ascii) : option Z :=
  match digit_value a, digit_value b with
  | Some x, Some y => Some (10 * x + y)
  | _, _ => None
  end.

Definition three_digits (a b c : ascii) : option Z :=
  match digit_value a, two_digits b c with
  | Some x, Some y => Some (100 * x + y)
  | _, _ => None
  end.

(** The milliseconds a text of the form HH:MM:SS.mmm stands for. *)
Definition timestamp_ms (s : string) : option Z :=
  match s with
  | String h1 (String h2 (String ":" (String m1 (String m2 (String ":"
      (String s1 (String s2 (String "." (String f1 (String f2 (String f3 ""))))))))))) =>
      match two_digits h1 h2, two_digits m1 m2, two_digits s1 s2, three_digits f1 f2 f3 with
      | Some h, Some m, Some sec, Some f =>
          if (m <? 60) && (sec <? 60) then Some (((h * 60 + m) * 60 + sec) * 1000 + f) else None
      | _, _, _, _ => None
      end
  | _ => None
  end.

(** The digit for a value below ten, and two- and three-digit numerals. *)
Definition digit_char (d : Z) : ascii := ascii_of_N (48 + Z.to_N d).

Definition two (n : Z) : string :=
  String (digit_char (n / 10)) (String (digit_char (n mod 10)) "").

Definition three (n : Z) : string := String (digit_char (n / 100)) (two (n mod 100)).

(** ** Content processor: guessing the language *)

(** Every character of the text is ASCII. *)
Definition ascii_text (s : string) : Prop :=
  all_in (fun c => (N_of_ascii c <? 128)%N) s = true.

(** The score of one language of the table for a text. *)
Definition language_score (content : string) (entry : string * list string) : nat :=
  SubtitleProcessor.indicator_score (lower content) (snd entry).

(** The entries of [SubtitleProcessor.language_indicators] that score. *)
Definition scored (content : string) (entry : string * list string) : option (string * nat) :=
  if (0 <? language_score content entry)%nat
  then Some (fst entry, language_score content entry) else None.

(** ** Aggregation manager: reading a file name *)

(** A title in normal form: none of the separators [._-[]()] is left, and
    white space occurs only as one blank between two other characters. *)
Definition tidy (t : string) : Prop :=
  forall pre c post, t = pre +:+ String c post ->
    MovieInfo.is_separator c = false /\
    (SubtitleProcessor.is_space c = true ->
     c = " "%char /\ pre <> "" /\
     exists d post', post = String d post' /\ SubtitleProcessor.is_space d = false).

(** A character that may occur in a tidy title. *)
Definition title_char (c : ascii) : bool :=
  negb (MovieInfo.is_separator c) && (negb (SubtitleProcessor.is_space c) || Ascii.eqb c " ").

Definition starts_blank (s : string) : bool :=
  match s with
  | String c _ => SubtitleProcessor.is_space c
  | EmptyString => false
  end.

(** No two white-space characters are adjacent. *)
Fixpoint blanks_apart (s : string) : bool :=
  match s with
  | String c s' => negb (SubtitleProcessor.is_space c && starts_blank s') && blanks_apart s'
  | EmptyString => true
  end.

Fixpoint ends_blank (s : string) : bool :=
  match s with
  | EmptyString => false
  | String c EmptyString => SubtitleProcessor.is_space c
  | String _ s' => ends_blank s'
  end.

(** *** The year *)

(** The last character of a text, or [before] when the text is empty. *)
Fixpoint last_char (before : option ascii) (s : string) : option ascii :=
  match s with
  | EmptyString => before
  | String c s' => last_char (Some c) s'
  end.

(** A word character stands at the end of [pre], at the start of [post]. *)
Definition word_before (pre : string) : bool :=
  match last_char None pre with Some c => MovieInfo.is_word c | None => false end.

Definition word_after (post : string) : bool :=
  match post with String c _ => MovieInfo.is_word c | EmptyString => false end.

(** Four digits that begin with 19 or 20. *)
Definition year_like (y : string) : bool :=
  (String.length y =? 4)%nat && (startswith y "19" || startswith y "20")
  && all_in SubtitleProcessor.is_digit y.

(** [y] stands in [f] between [pre] and [post] as a year on its own: no
    word character touches it. *)
Definition year_at (f pre y post : string) : Prop :=
  f = pre +:+ y +:+ post /\ year_like y = true /\
  word_before pre = false /\ word_after post = false.

(** *** Season and episode *)

(** One or two decimal digits. *)
Definition digit_group (g : string) : bool :=
  all_in SubtitleProcessor.is_digit g
  && (1 <=? String.length g)%nat && (String.length g <=? 2)%nat.

(** [m] is an episode marker: S or s, the season digits [sd], E or e,
    the episode digits [ed]. *)
Definition series_marker (m sd ed : string) : Prop :=
  exists c1 c2 : ascii,
    m = String c1 (sd +:+ String c2 ed) /\
    (c1 = "S" \/ c1 = "s")%char /\ (c2 = "E" \/ c2 = "e")%char /\
    digit_group sd = true /\ digit_group ed = true.

(** ** Hash-lookup provider: the hash of a file *)

(** A text of [2 ^ k] times the length of [s]. *)
Fixpoint doubled (k : nat) (s : string) : string :=
  match k with
  | O => s
  | S k' => doubled k' (s +:+ s)
  end.

(** A file of exactly 64 KiB. *)
Definition one_block : string := doubled 16 "a".

(** A stand-in for the digest: the length of the data, in decimal. *)
Definition length_digest (data : string) : string :=
  str_int (Z.of_nat (String.length data)).

(** ** Facade: initialization *)

(** A document store that cannot be reached. *)
Definition store_down : SubtitleStorage.server := SubtitleStorage.mk_server false [] [] [] [] 1.

(** The facade after a first call with the store down. *)
Definition after_failed_start : SubtitleDatabase.t :=
  snd (SubtitleDatabase.initialize_subtitle_system true store_down redis_down
         SubtitleDatabase.init).

(** ** Cache store: counting requests *)

(** The answers of successive calls of [increment_rate_limit] at the
    given instants, and the cache they leave. *)
Fixpoint increment_all `{CacheManager.Counters} (c : CacheManager.t) (times : list Z)
    (identifier window : string) (ttl max_requests : Z)
  : list (run (bool * Z)) * CacheManager.t :=
  match times with
  | [] => ([], c)
  | now :: rest =>
      let '(m, c1) := CacheManager.increment_rate_limit c now identifier window ttl max_requests in
      let '(ms, c2) := increment_all c1 rest identifier window ttl max_requests in
      (m :: ms, c2)
  end.

(** What a fixed-window counter answers to the [k]-th request of a
    window: allowed and counted up to the limit, refused after. *)
Definition window_answer (max_requests : Z) (k : nat) : run (bool * Z) :=
  if Z.of_nat k <=? max_requests then ret (true, Z.of_nat k) else ret (false, max_requests).

Definition counter_key (c : CacheManager.t) (identifier window : string) : string :=
  CacheManager._make_key c ["rate_limit"; window; identifier].

(** A reading of numerals that takes the texts [str_int] writes. *)
Definition ValueError : exn := Exception "ValueError" "invalid literal for int()".
Definition ResponseError : exn :=
  Exception "ResponseError" "value is not an integer or out of range".

Definition read_decimal (text : string) : fallible Z :=
  match NilZero.int_of_string text with
  | Some d => Ok (Z.of_int d)
  | None => Fail ValueError
  end.

Definition incr_decimal (text : string) : fallible Z :=
  match read_decimal text with
  | Ok n => if (- 2 ^ 63 <=? n) && (n <? 2 ^ 63 - 1) then Ok (n + 1) else Fail ResponseError
  | Fail e => Fail ResponseError
  end.

(** The two readings agree with [str_int] as the cache needs it. *)
Definition decimal_counters : CacheManager.Counters :=
  {| CacheManager.py_int := read_decimal;
     CacheManager.redis_incr := incr_decimal;
     CacheManager.py_int_str := fun n =>
       ltac:(unfold read_decimal, str_int;
             rewrite NilZero.isi;
             [ now rewrite of_to
             | intros E; pose proof (of_to n) as E'; rewrite E in E'; cbn in E'; subst n;
               discriminate E
             | intros E; pose proof (of_to n) as E'; rewrite E in E'; cbn in E'; subst n;
               discriminate E ]);
     CacheManager.redis_incr_str := fun n (Hn : - 2 ^ 63 <= n < 2 ^ 63 - 1) =>
       ltac:(unfold incr_decimal, read_decimal, str_int;
             rewrite NilZero.isi;
             [ rewrite of_to;
               destruct Hn as [H1 H2];
               apply Z.leb_le in H1; apply Z.ltb_lt in H2; now rewrite H1, H2
             | intros E; pose proof (of_to n) as E'; rewrite E in E'; cbn in E'; subst n;
               discriminate E
             | intros E; pose proof (of_to n) as E'; rewrite E in E'; cbn in E'; subst n;
               discriminate E ]) |}.

(** A cache manager whose server has gone down. *)
Definition cache_gone_down : CacheManager.t :=
  CacheManager.set_redis_client (Some redis_down) CacheManager.init.

(** ** Facade: searching and recording *)

(** The key the facade stores the results of a search under:
    [imdb_id or movie_title]. *)
Definition movie_key (imdb_id : option string) (movie_title : string) : string :=
  if truthy imdb_id then fmt imdb_id else movie_title.

(** The cache has no usable answer for the query. *)
Definition cache_miss `{CacheManager.Json} (c : CacheManager.t) (now : Z)
    (movie_title language : string) : Prop :=
  match ending (CacheManager.get_search_results c now movie_title language) with
  | Return (Some value) => CacheManager.json_truthy value = false
  | _ => True
  end.

(** A stand-in for [json] that keeps a decoded value as its text. *)
Definition json_as_text : CacheManager.Json :=
  {| CacheManager.json := string;
     CacheManager.json_loads := fun text => Ok text;
     CacheManager.json_truthy := fun text => negb (String.eqb text "[]");
     CacheManager.dumps_results := fun results =>
       match results with [] => "[]" | _ :: _ => "[...]" end |}.

(** An initialized facade over an empty store, without a cache server. *)
Definition ready : SubtitleDatabase.t :=
  SubtitleDatabase.mk (Some (SubtitleStorage.set_connected true (SubtitleStorage.init empty_server)))
    (Some CacheManager.init) (Some configured) (Some SubtitleProcessor.init) true 0 None.

(** The same with a cache server, still empty. *)
Definition ready_with_cache : SubtitleDatabase.t :=
  SubtitleDatabase.set_cache connected_cache ready.

(** A search for a film by IMDb id, answered with three hits. *)
Definition inception_env : SubtitleAPIManager.environment :=
  always (search_answers 200 three_hits).

Definition inception_found : list search_result :=
  match ending (fst (SubtitleAPIManager.search_subtitles configured inception_env
                       "Inception" (Some "tt1375666") "en" None)) with
  | Return results => results
  | _ => []
  end.

Definition inception_search : run SubtitleDatabase.found * SubtitleDatabase.t :=
  SubtitleDatabase.search_and_cache_subtitles (H := json_as_text) inception_env
    empty_server redis_down 0 "Inception" (Some "tt1375666") "en" None ready.

(** ** Cache store: search results *)

(** [ttl or self.search_ttl] *)
Definition search_lifetime (c : CacheManager.t) (ttl : option Z) : Z :=
  match ttl with
  | Some n => if n =? 0 then CacheManager.search_ttl c else n
  | None => CacheManager.search_ttl c
  end.

(** * Properties *)

(** ** Text and list helpers *)

Lemma append_cons (a : ascii) (p q : string) :
  String a p +:+ q = String a (p +:+ q).
Proof. reflexivity. Qed.

Lemma append_nil (q : string) : "" +:+ q = q.
Proof. reflexivity. Qed.

Lemma startswith_spec (p s : string) :
  startswith s p = true <-> exists post, s = p +:+ post.
Proof.
  revert s. induction p as [|a p IH]; intros s; simpl.
  - split; [intros _; exists s; reflexivity | intros _; destruct s; reflexivity].
  - destruct s as [|b s]; simpl.
    + split; [discriminate | intros [post H]; discriminate].
    + destruct (Ascii.eqb a b) eqn:E.
      * apply Ascii.eqb_eq in E. subst b. rewrite IH.
        split; intros [post H]; exists post; rewrite append_cons in *; congruence.
      * apply Ascii.eqb_neq in E.
        split; [discriminate | intros [post H]; rewrite append_cons in H; congruence].
Qed.

Lemma contains_spec (p s : string) :
  contains p s = true <-> is_substring p s.
Proof.
  unfold is_substring. induction s as [|c s IH].
  - cbn [contains]. rewrite orb_false_r, startswith_spec. split.
    + intros [post H]. exists "", post. exact H.
    + intros [pre [post H]]. destruct pre; [|rewrite append_cons in H; discriminate].
      exists post. exact H.
  - cbn [contains]. rewrite orb_true_iff, startswith_spec, IH. split.
    + intros [[post H] | [pre [post H]]].
      * exists "", post. exact H.
      * exists (String c pre), post. rewrite append_cons. congruence.
    + intros [pre [post H]]. destruct pre as [|c' pre].
      * left. exists post. exact H.
      * right. exists pre, post. rewrite append_cons in H. congruence.
Qed.

Lemma insert_desc_perm {A : Type} (key : A -> Z) (x : A) (l : list A) :
  insert_desc key x l ≡ₚ x :: l.
Proof.
  induction l as [|y ys IH]; simpl; [reflexivity|].
  destruct (key x <? key y); [|reflexivity].
  rewrite IH. apply Permutation_swap.
Qed.

Lemma sorted_desc_perm {A : Type} (key : A -> Z) (l : list A) :
  sorted_desc key l ≡ₚ l.
Proof.
  induction l as [|x l IH]; simpl; [reflexivity|].
  rewrite insert_desc_perm. now rewrite IH.
Qed.

(** ** Scoring (token-auth and hash-lookup providers) *)

Lemma release_terms_test (release : string) :
  existsb (fun term => contains term (lower release)) OpenSubtitlesAPI.release_terms = true
  <-> has_release_term release.
Proof.
  unfold has_release_term. rewrite existsb_exists.
  split; intros [term [Hin H]]; exists term; split; auto; now apply contains_spec.
Qed.

Lemma calculate_quality_score_cases (a : OpenSubtitlesAPI.attributes) :
  (exists e, OpenSubtitlesAPI._calculate_quality_score a = ([], Raise e)) \/
  (exists dc release,
      get_or (OpenSubtitlesAPI.download_count a) 0 = Some dc /\
      get_or (OpenSubtitlesAPI.release a) "" = Some release /\
      OpenSubtitlesAPI._calculate_quality_score a =
        ([], Return (dc * 10 +
                     if existsb (fun term => contains term (lower release))
                          OpenSubtitlesAPI.release_terms
                     then 100 else 0))).
Proof.
  unfold OpenSubtitlesAPI._calculate_quality_score.
  destruct (get_or (OpenSubtitlesAPI.download_count a) 0) as [dc|] eqn:Hdc;
    [|left; eexists; reflexivity].
  destruct (get_or (OpenSubtitlesAPI.release a) "") as [release|] eqn:Hrel;
    [|left; eexists; reflexivity].
  right. exists dc, release. split; [reflexivity|]. split; [reflexivity|].
  cbn [OpenSubtitlesAPI.need bind ret app].
  destruct (existsb _ OpenSubtitlesAPI.release_terms); do 2 f_equal; lia.
Qed.

Lemma process_item_cases (it : OpenSubtitlesAPI.item) :
  (exists e, OpenSubtitlesAPI.process_item it = ([], Raise e)) \/
  (exists r, OpenSubtitlesAPI.process_item it = ([], Return r) /\ scored_by_formula r).
Proof.
  unfold OpenSubtitlesAPI.process_item.
  destruct (get_or (OpenSubtitlesAPI.attributes_of it) _) as [a|];
    [|left; eexists; reflexivity].
  cbn [OpenSubtitlesAPI.need bind ret].
  destruct (get_or (OpenSubtitlesAPI.files a) _) as [fs|];
    [|left; eexists; reflexivity].
  cbn [OpenSubtitlesAPI.need bind ret].
  destruct (head fs) as [f0|]; [|left; eexists; reflexivity].
  cbn [OpenSubtitlesAPI.need bind ret].
  destruct (calculate_quality_score_cases a) as [[e He] | [dc [release [Hdc [Hrel He]]]]];
    rewrite He; [left; eexists; reflexivity|].
  rewrite Hdc, Hrel. right. eexists. split; [reflexivity|].
  exists release. cbn [sr_release sr_quality_score sr_download_count stored].
  split; [reflexivity|].
  rewrite <- release_terms_test.
  destruct (existsb _ OpenSubtitlesAPI.release_terms); split; intros H; try reflexivity;
    try discriminate; exfalso; auto.
Qed.

Lemma process_items_returns (results : list OpenSubtitlesAPI.item) :
  exists tr out,
    OpenSubtitlesAPI.process_items results = (tr, Return out) /\
    Forall scored_by_formula out.
Proof.
  induction results as [|it rest [tr [out [IH Hall]]]]; cbn [OpenSubtitlesAPI.process_items].
  - exists [], []. split; [reflexivity | constructor].
  - destruct (process_item_cases it) as [[e He] | [r [He Hr]]]; rewrite He, IH; cbn.
    + eexists _, out. split; [reflexivity | exact Hall].
    + eexists _, (r :: out). split; [reflexivity | constructor; assumption].
Qed.

Lemma process_search_results_returns (results : list OpenSubtitlesAPI.item) :
  exists tr out,
    OpenSubtitlesAPI._process_search_results results = (tr, Return out) /\
    Forall scored_by_formula out.
Proof.
  unfold OpenSubtitlesAPI._process_search_results.
  destruct (process_items_returns results) as [tr [out [H Hall]]]. rewrite H. cbn.
  eexists _, _. split; [reflexivity|].
  rewrite Forall_forall in *. intros x Hx.
  apply Hall. now rewrite sorted_desc_perm in Hx.
Qed.

Lemma lower_app (s1 s2 : string) : lower (s1 +:+ s2) = lower s1 +:+ lower s2.
Proof.
  induction s1 as [|c s1 IH]; [reflexivity|].
  rewrite append_cons. cbn [lower]. rewrite append_cons. now rewrite IH.
Qed.

Lemma search_request_scored net imdb_id query tr out :
  OpenSubtitlesAPI.search_request net imdb_id query = (tr, Return out) ->
  Forall scored_by_formula out.
Proof.
  unfold OpenSubtitlesAPI.search_request.
  destruct (truthy imdb_id || truthy query);
    [|cbn; intros H; inversion H; constructor].
  destruct (OpenSubtitlesAPI.on_search net) as [response|e|];
    cbn [lift bind try_except]; [| intros H; inversion H; constructor | discriminate].
  destruct (OpenSubtitlesAPI.search_status response =? 200).
  - destruct (OpenSubtitlesAPI.search_data response) as [data|e|];
      cbn [lift bind try_except]; [| intros H; inversion H; constructor | discriminate].
    destruct (get_or data []) as [results|];
      cbn [OpenSubtitlesAPI.need ret raise bind try_except];
      [| intros H; inversion H; constructor].
    destruct (process_search_results_returns results) as [tr1 [out1 [H1 Hall]]].
    rewrite H1. cbn. intros H. inversion H; subst. exact Hall.
  - destruct (OpenSubtitlesAPI.search_status response =? 429);
      cbn; intros H; inversion H; constructor.
Qed.

Lemma os_search_subtitles_scored self net now imdb_id language query tr out self' :
  OpenSubtitlesAPI.search_subtitles self net now imdb_id language query
    = ((tr, Return out), self') ->
  Forall scored_by_formula out.
Proof.
  unfold OpenSubtitlesAPI.search_subtitles, OpenSubtitlesAPI.after_acquire.
  destruct (RateLimiter.call _ now) as [[tr0 [[]|e|]] rl]; try discriminate.
  destruct (OpenSubtitlesAPI._ensure_authenticated _ net now) as [[tr1 [ok|e|]] self2];
    cbn [bind]; try discriminate.
  destruct ok.
  - destruct (OpenSubtitlesAPI.search_request net imdb_id query) as [tr2 o] eqn:E.
    intros H. inversion H; subst. eapply search_request_scored. exact E.
  - cbn. intros H. inversion H; subst. constructor.
Qed.

Lemma subdb_search_by_hash_cases net file_hash language :
  (exists tr, SubDBAPI.search_by_hash net file_hash language = (tr, Return [])) \/
  (exists tr, SubDBAPI.search_by_hash net file_hash language = (tr, Hang)) \/
  SubDBAPI.search_by_hash net file_hash language =
    ([], Return [ mk_result (Val file_hash) (Val language) 0 Absent Absent Absent
                    "srt" "subdb" 50 ]).
Proof.
  unfold SubDBAPI.search_by_hash.
  destruct (SubDBAPI.on_search net) as [response|e|]; cbn [lift bind try_except].
  - destruct (SubDBAPI.status response =? 200).
    + destruct (SubDBAPI.body response) as [languages|e|]; cbn [lift bind try_except].
      * destruct (existsb _ _); cbn; [right; right; reflexivity | left; eexists; reflexivity].
      * left. eexists. reflexivity.
      * right. left. eexists. reflexivity.
    + left. eexists. reflexivity.
  - left. eexists. reflexivity.
  - right. left. eexists. reflexivity.
Qed.

(** C1. Every result the token-auth provider's search returns carries
    [download_count * 10], plus 100 exactly when its lowercased release text
    contains one of 'bluray', 'web-dl', 'webrip'; every result of the
    hash-lookup provider carries the score 50. A hit with download count 500
    whose release contains "BluRay" scores 5100, one with download count 0
    and no such term scores 0. *)
Theorem C1_quality_score :
  (forall self net now imdb_id language query tr out self' r,
      OpenSubtitlesAPI.search_subtitles self net now imdb_id language query
        = ((tr, Return out), self') ->
      In r out -> scored_by_formula r) /\
  (forall net file_hash language tr out r,
      SubDBAPI.search_by_hash net file_hash language = (tr, Return out) ->
      In r out -> sr_quality_score r = 50) /\
  (forall a release,
      OpenSubtitlesAPI.download_count a = Val 500 ->
      OpenSubtitlesAPI.release a = Val release ->
      is_substring "BluRay" release ->
      OpenSubtitlesAPI._calculate_quality_score a = ([], Return 5100)) /\
  (forall a release,
      OpenSubtitlesAPI.download_count a = Val 0 ->
      OpenSubtitlesAPI.release a = Val release ->
      ~ has_release_term release ->
      OpenSubtitlesAPI._calculate_quality_score a = ([], Return 0)).
Proof.
  split; [|split; [|split]].
  - intros self net now imdb_id language query tr out self' r H Hin.
    apply os_search_subtitles_scored in H. rewrite Forall_forall in H.
    apply H. now apply list_elem_of_In.
  - intros net file_hash language tr out r H Hin.
    destruct (subdb_search_by_hash_cases net file_hash language)
      as [[tr' H'] | [[tr' H'] | H']]; rewrite H' in H; inversion H; subst.
    + destruct Hin.
    + destruct Hin as [<- | []]. reflexivity.
  - intros a release Hdc Hrel [pre [post Hsub]].
    assert (Hterm : existsb (fun term => contains term (lower release))
                      OpenSubtitlesAPI.release_terms = true).
    { apply release_terms_test. exists "bluray". split; [left; reflexivity|].
      exists (lower pre), (lower post). subst release. now rewrite !lower_app. }
    destruct (calculate_quality_score_cases a) as [[e He] | [dc [rel [H1 [H2 He]]]]].
    + unfold OpenSubtitlesAPI._calculate_quality_score in He.
      rewrite Hdc, Hrel in He. cbn in He. discriminate.
    + rewrite Hdc in H1. rewrite Hrel in H2. cbn in H1, H2.
      inversion H1; inversion H2; subst. rewrite He, Hterm. reflexivity.
  - intros a release Hdc Hrel Hno.
    assert (Hterm : existsb (fun term => contains term (lower release))
                      OpenSubtitlesAPI.release_terms = false).
    { apply not_true_is_false. intros H. apply Hno. now apply release_terms_test. }
    destruct (calculate_quality_score_cases a) as [[e He] | [dc [rel [H1 [H2 He]]]]].
    + unfold OpenSubtitlesAPI._calculate_quality_score in He.
      rewrite Hdc, Hrel in He. cbn in He. discriminate.
    + rewrite Hdc in H1. rewrite Hrel in H2. cbn in H1, H2.
      inversion H1; inversion H2; subst. rewrite He, Hterm. reflexivity.
Qed.

(** ** Rate limiter *)

Lemma acquire_parked (fuel : nat) (self : RateLimiter.t) (now : Z) :
  RateLimiter.lock_held self = true ->
  RateLimiter.acquire (S fuel) self now = Some (([], Hang), self).
Proof. intros H. cbn [RateLimiter.acquire]. now rewrite H. Qed.

Lemma acquire_under_capacity (fuel : nat) (self : RateLimiter.t) (now : Z) :
  RateLimiter.lock_held self = false ->
  Z.of_nat (length (in_flight self now)) < RateLimiter.max_calls self ->
  RateLimiter.acquire (S fuel) self now =
    Some (([], Return tt),
          RateLimiter.mk (RateLimiter.max_calls self) (RateLimiter.time_window self)
            (in_flight self now ++ [now]) false).
Proof.
  intros Hlock Hlen. cbn [RateLimiter.acquire]. rewrite Hlock.
  fold (in_flight self now). cbn [RateLimiter.set_calls RateLimiter.set_lock
    RateLimiter.max_calls RateLimiter.time_window RateLimiter.calls].
  destruct (Z.geb_spec (Z.of_nat (length (in_flight self now))) (RateLimiter.max_calls self));
    [lia | reflexivity].
Qed.

Lemma acquire_at_capacity (fuel : nat) (self : RateLimiter.t) (now : Z) :
  RateLimiter.lock_held self = false ->
  0 < RateLimiter.max_calls self ->
  RateLimiter.max_calls self <= Z.of_nat (length (in_flight self now)) ->
  exists c0 rest,
    in_flight self now = c0 :: rest /\
    0 < seconds (RateLimiter.time_window self) - (now - c0) /\
    RateLimiter.acquire (S (S fuel)) self now =
      Some (([EvSleep (seconds (RateLimiter.time_window self) - (now - c0))], Hang),
            RateLimiter.mk (RateLimiter.max_calls self) (RateLimiter.time_window self)
              (in_flight self now) true).
Proof.
  intros Hlock Hpos Hlen.
  destruct (in_flight self now) as [|c0 rest] eqn:Hkept; [simpl in Hlen; lia|].
  exists c0, rest. split; [reflexivity|].
  assert (Hc0 : RateLimiter.in_window self now c0 = true).
  { assert (Hin : c0 ∈ in_flight self now) by (rewrite Hkept; left).
    unfold in_flight in Hin. apply list_elem_of_filter in Hin. tauto. }
  unfold RateLimiter.in_window in Hc0. apply Z.ltb_lt in Hc0.
  split; [lia|].
  cbn [RateLimiter.acquire]. rewrite Hlock. fold (in_flight self now). rewrite Hkept.
  cbn [RateLimiter.set_calls RateLimiter.set_lock RateLimiter.lock_held
    RateLimiter.max_calls RateLimiter.time_window RateLimiter.calls].
  destruct (Z.geb_spec (Z.of_nat (length (c0 :: rest))) (RateLimiter.max_calls self));
    [|lia].
  destruct (Z.ltb_spec 0 (seconds (RateLimiter.time_window self) - (now - c0))); [|lia].
  reflexivity.
Qed.

(** Two levels of recursion are all [acquire] ever uses. *)
Lemma acquire_fuel (fuel : nat) (self : RateLimiter.t) (now : Z) :
  RateLimiter.acquire (S (S fuel)) self now = Some (RateLimiter.call self now).
Proof.
  unfold RateLimiter.call.
  assert (H : RateLimiter.acquire (S (S fuel)) self now = RateLimiter.acquire 2 self now).
  { cbn [RateLimiter.acquire].
    destruct (RateLimiter.lock_held self); [reflexivity|].
    cbn [RateLimiter.set_calls RateLimiter.set_lock RateLimiter.lock_held].
    reflexivity. }
  rewrite H. cbn [RateLimiter.acquire].
  destruct (RateLimiter.lock_held self); [reflexivity|].
  cbn [RateLimiter.set_calls RateLimiter.set_lock RateLimiter.lock_held].
  destruct (_ >=? _); [|reflexivity].
  destruct (filter _ _); [reflexivity|].
  destruct (0 <? _); reflexivity.
Qed.

Lemma call_under_capacity (self : RateLimiter.t) (now : Z) :
  RateLimiter.lock_held self = false ->
  Z.of_nat (length (in_flight self now)) < RateLimiter.max_calls self ->
  RateLimiter.call self now =
    (([], Return tt),
     RateLimiter.mk (RateLimiter.max_calls self) (RateLimiter.time_window self)
       (in_flight self now ++ [now]) false).
Proof.
  intros Hlock Hlen. unfold RateLimiter.call.
  now rewrite acquire_under_capacity.
Qed.

Lemma in_flight_length (self : RateLimiter.t) (now : Z) :
  (length (in_flight self now) <= length (RateLimiter.calls self))%nat.
Proof. apply length_filter. Qed.

Lemma burst_no_delay (times : list Z) : forall self : RateLimiter.t,
  RateLimiter.lock_held self = false ->
  Z.of_nat (length (RateLimiter.calls self) + length times) <= RateLimiter.max_calls self ->
  fst (acquire_all self times) = repeat ([], Return tt) (length times) /\
  RateLimiter.lock_held (snd (acquire_all self times)) = false.
Proof.
  induction times as [|now later IH]; intros self Hlock Hlen; [now split|].
  cbn [acquire_all length repeat] in *.
  pose proof (in_flight_length self now) as Hle.
  rewrite call_under_capacity by (auto; lia).
  match goal with |- context [acquire_all ?s later] =>
    destruct (IH s) as [IH1 IH2];
      [reflexivity
      | cbn [RateLimiter.calls RateLimiter.max_calls]; rewrite length_app; simpl; lia
      | destruct (acquire_all s later) as [ms self2] eqn:E ]
  end.
  cbn [fst snd] in *. split; [now rewrite IH1 | exact IH2].
Qed.

Lemma filter_all {A : Type} (P : A -> Prop) `{!forall x, Decision (P x)} (l : list A) :
  Forall P l -> filter P l = l.
Proof.
  induction 1 as [|x l Hx Hl IH]; [reflexivity|].
  rewrite filter_cons_True by assumption. now rewrite IH.
Qed.

Lemma burst_state (times : list Z) : forall self : RateLimiter.t,
  RateLimiter.lock_held self = false ->
  Z.of_nat (length (RateLimiter.calls self) + length times) <= RateLimiter.max_calls self ->
  within_one_window self (RateLimiter.calls self ++ times) times ->
  snd (acquire_all self times) =
    RateLimiter.mk (RateLimiter.max_calls self) (RateLimiter.time_window self)
      (RateLimiter.calls self ++ times) false.
Proof.
  induction times as [|now later IH]; intros self Hlock Hlen Hwin.
  - destruct self. cbn in *. subst. now rewrite app_nil_r.
  - cbn [acquire_all length] in *.
    assert (Hkept : in_flight self now = RateLimiter.calls self).
    { apply filter_all. rewrite Forall_forall. intros c Hc.
      unfold RateLimiter.in_window. apply Z.ltb_lt.
      apply Hwin; [apply elem_of_app; now left | left]. }
    rewrite call_under_capacity by (auto; rewrite Hkept; lia).
    rewrite Hkept.
    match goal with |- context [acquire_all ?s later] =>
      specialize (IH s); destruct (acquire_all s later) as [ms self2] eqn:E
    end.
    cbn [fst snd RateLimiter.calls RateLimiter.max_calls RateLimiter.time_window
         RateLimiter.lock_held] in *.
    rewrite IH; [now rewrite <- app_assoc | reflexivity | rewrite length_app; simpl; lia |].
    intros t t' Ht Ht'. apply Hwin; [|now right].
    rewrite <- app_assoc in Ht. exact Ht.
Qed.

(** C4. Up to [max_calls] calls go through at once; but a call that finds
    the window full sleeps and then waits for the lock its own frame holds,
    so it never returns: no amount of fuel makes [acquire] return, and the
    [(max_calls+1)]th call of a burst inside one window ends in [Hang] with
    the lock still held. *)
Theorem C4_acquire_at_capacity_never_returns :
  (forall (self : RateLimiter.t) times,
      RateLimiter.lock_held self = false ->
      RateLimiter.calls self = [] ->
      Z.of_nat (length times) <= RateLimiter.max_calls self ->
      fst (acquire_all self times) = repeat ([], Return tt) (length times)) /\
  (forall (self : RateLimiter.t) now fuel tr st,
      RateLimiter.lock_held self = false ->
      0 < RateLimiter.max_calls self ->
      RateLimiter.max_calls self <= Z.of_nat (length (in_flight self now)) ->
      RateLimiter.acquire fuel self now <> Some ((tr, Return tt), st)) /\
  (forall (self : RateLimiter.t) times now,
      RateLimiter.lock_held self = false ->
      RateLimiter.calls self = [] ->
      0 < RateLimiter.max_calls self ->
      Z.of_nat (length times) = RateLimiter.max_calls self ->
      within_one_window self times (times ++ [now]) ->
      exists d st,
        0 < d /\
        RateLimiter.call (snd (acquire_all self times)) now = (([EvSleep d], Hang), st) /\
        RateLimiter.lock_held st = true).
Proof.
  split; [|split].
  - intros self times Hlock Hcalls Hlen.
    apply burst_no_delay; [assumption | rewrite Hcalls; simpl; lia].
  - intros self now fuel tr st Hlock Hpos Hlen.
    destruct fuel as [|[|fuel]].
    + discriminate.
    + destruct (in_flight self now) as [|c0 rest] eqn:Hkept; [simpl in Hlen; lia|].
      assert (Hc0 : RateLimiter.in_window self now c0 = true).
      { assert (Hin : c0 ∈ in_flight self now) by (rewrite Hkept; left).
        unfold in_flight in Hin. apply list_elem_of_filter in Hin. tauto. }
      unfold RateLimiter.in_window in Hc0. apply Z.ltb_lt in Hc0.
      cbn [RateLimiter.acquire]. rewrite Hlock. fold (in_flight self now). rewrite Hkept.
      cbn [RateLimiter.set_calls RateLimiter.set_lock RateLimiter.max_calls
           RateLimiter.time_window].
      destruct (Z.geb_spec (Z.of_nat (length (c0 :: rest))) (RateLimiter.max_calls self));
        [|lia].
      destruct (Z.ltb_spec 0 (seconds (RateLimiter.time_window self) - (now - c0)));
        [discriminate | lia].
    + destruct (acquire_at_capacity fuel self now Hlock Hpos Hlen) as [c0 [rest [_ [_ E]]]].
      rewrite E. discriminate.
  - intros self times now Hlock Hcalls Hpos Hlen Hwin.
    assert (Hst : snd (acquire_all self times) =
                  RateLimiter.mk (RateLimiter.max_calls self) (RateLimiter.time_window self)
                    times false).
    { rewrite burst_state; [now rewrite Hcalls | assumption | rewrite Hcalls; simpl; lia |].
      rewrite Hcalls. intros t t' Ht Ht'. apply Hwin; [exact Ht | apply elem_of_app; now left]. }
    rewrite Hst. set (full := RateLimiter.mk _ _ times false).
    assert (Hkept : in_flight full now = times).
    { apply filter_all. rewrite Forall_forall. intros c Hc.
      unfold RateLimiter.in_window. apply Z.ltb_lt.
      apply Hwin; [exact Hc | apply elem_of_app; right; left]. }
    destruct (acquire_at_capacity 0 full now) as [c0 [rest [E [Hd Hacq]]]];
      [reflexivity | exact Hpos | rewrite Hkept; cbn; lia |].
    unfold RateLimiter.call. rewrite Hacq.
    eexists _, _. split; [exact Hd|]. split; reflexivity.
Qed.

(** ** Retry helper *)

Lemma sleeps_app (tr1 tr2 : list event) : sleeps (tr1 ++ tr2) = sleeps tr1 ++ sleeps tr2.
Proof. unfold sleeps. apply omap_app. Qed.

Lemma retry_loop_succeeds {St A : Type} (R d : Z) (op : nat -> St -> run A * St) (st : St) :
  forall (len from k : nat) (last : option exn),
    (from <= k < from + len)%nat ->
    (from + len <= Z.to_nat R)%nat ->
    (forall j, (from <= j < k)%nat -> raises (attempt op st j)) ->
    ~ raises (attempt op st k) ->
    let r := fst (SubtitleAPIManager.retry_loop R d op (seq from len) last
                    (state_before op st from)) in
    ending r = ending (attempt op st k) /\
    slept r = backoff_sleeps d op st from (k - from) ++ slept (attempt op st k).
Proof.
  induction len as [|len IH]; intros from k last Hk HR Hfail Hok; [lia|].
  cbn [seq SubtitleAPIManager.retry_loop].
  destruct (op from (state_before op st from)) as [[tr o] st1] eqn:E.
  assert (Hatt : attempt op st from = (tr, o)) by (unfold attempt; now rewrite E).
  destruct (decide (k = from)) as [->|Hne].
  - replace (from - from)%nat with 0%nat by lia.
    unfold raises in Hok. rewrite Hatt in Hok. cbn [ending snd] in Hok.
    destruct o as [a|e|]; [| exfalso; eauto |]; rewrite Hatt; now split.
  - assert (Hraise : raises (attempt op st from)) by (apply Hfail; lia).
    unfold raises in Hraise. rewrite Hatt in Hraise. cbn [ending snd] in Hraise.
    destruct Hraise as [e ->].
    assert (Hst : st1 = state_before op st (S from)) by (cbn [state_before]; now rewrite E).
    rewrite Hst.
    specialize (IH (S from) k (Some e)).
    destruct (SubtitleAPIManager.retry_loop R d op (seq (S from) len) (Some e)
                (state_before op st (S from))) as [[tr' o'] st2] eqn:E'.
    cbn [fst snd] in IH. destruct IH as [IH1 IH2]; [lia | lia | intros; apply Hfail; lia | exact Hok |].
    cbn [fst]. split; [exact IH1|].
    unfold slept in *. cbn [events fst] in *.
    replace (k - from)%nat with (S (k - S from)) by lia.
    unfold backoff_sleeps in *. cbn [seq flat_map].
    rewrite Hatt. cbn [events fst]. rewrite !sleeps_app, IH2.
    destruct (Z.ltb_spec (Z.of_nat from) (R - 1)); [|lia].
    cbn. rewrite <- !app_assoc. reflexivity.
Qed.

Lemma retry_loop_cons {St A : Type} (R d : Z) (op : nat -> St -> run A * St)
    (a : nat) (rest : list nat) (last : option exn) (st : St) :
  SubtitleAPIManager.retry_loop R d op (a :: rest) last st =
  match op a st with
  | ((tr, Raise e), st1) =>
      let handler :=
        if Z.of_nat a <? R - 1 then
          [EvLog Warning' ("Attempt failed, retrying: " +:+ exn_text e);
           EvSleep (seconds (d * 2 ^ Z.of_nat a))]
        else [EvLog Error' ("All attempts failed: " +:+ exn_text e)] in
      let '((tr', o), st2) := SubtitleAPIManager.retry_loop R d op rest (Some e) st1 in
      ((tr ++ handler ++ tr', o), st2)
  | returned_or_hung => returned_or_hung
  end.
Proof. reflexivity. Qed.

Lemma retry_loop_exhausted {St A : Type} (R d : Z) (op : nat -> St -> run A * St) (st : St) :
  forall (len from : nat) (last : option exn),
    (from + S len = Z.to_nat R)%nat ->
    (forall j, (from <= j < from + S len)%nat -> raises (attempt op st j)) ->
    let r := fst (SubtitleAPIManager.retry_loop R d op (seq from (S len)) last
                    (state_before op st from)) in
    ending r = ending (attempt op st (from + len)) /\
    slept r = backoff_sleeps d op st from len ++ slept (attempt op st (from + len)).
Proof.
  induction len as [|len IH]; intros from last HR Hfail;
    rewrite <- cons_seq, retry_loop_cons;
    destruct (op from (state_before op st from)) as [[tr o] st1] eqn:E;
    assert (Hatt : attempt op st from = (tr, o)) by (unfold attempt; now rewrite E);
    assert (Hraise : raises (attempt op st from)) by (apply Hfail; lia);
    unfold raises in Hraise; rewrite Hatt in Hraise; cbn [ending snd] in Hraise;
    destruct Hraise as [e ->].
  - replace (from + 0)%nat with from by lia. rewrite Hatt.
    destruct (Z.ltb_spec (Z.of_nat from) (R - 1)); [lia|].
    cbn. unfold slept, backoff_sleeps. cbn. rewrite !sleeps_app. cbn.
    split; [reflexivity | now rewrite app_nil_r].
  - assert (Hst : st1 = state_before op st (S from)) by (cbn [state_before]; now rewrite E).
    rewrite Hst. specialize (IH (S from) (Some e)).
    destruct (SubtitleAPIManager.retry_loop R d op (seq (S from) (S len)) (Some e)
                (state_before op st (S from))) as [[tr' o'] st2] eqn:E'.
    cbn [fst snd] in IH. destruct IH as [IH1 IH2]; [lia | intros; apply Hfail; lia |].
    replace (from + S len)%nat with (S from + len)%nat by lia.
    cbn [fst]. split; [exact IH1|].
    unfold slept in *. cbn [events fst] in *.
    unfold backoff_sleeps in *. cbn [seq flat_map].
    rewrite Hatt. cbn [events fst]. rewrite !sleeps_app, IH2.
    destruct (Z.ltb_spec (Z.of_nat from) (R - 1)); [|lia].
    cbn. rewrite <- !app_assoc. reflexivity.
Qed.

(** C6. The retry helper runs the operation at most [retry_attempts]
    times. If attempts [0 .. k-1] fail and attempt [k] (with
    [k < retry_attempts]) does not, the helper ends as attempt [k] does,
    having slept [retry_delay * 2^i] seconds after each failed attempt [i];
    if all [retry_attempts] attempts fail it ends with the last attempt's
    exception, having slept after every failed attempt but the last. *)
Theorem C6_retry_operation {St A : Type} (self : SubtitleAPIManager.t)
    (op : nat -> St -> run A * St) (st : St) :
  let n := Z.to_nat (SubtitleAPIManager.retry_attempts self) in
  let d := SubtitleAPIManager.retry_delay self in
  let r := fst (SubtitleAPIManager._retry_operation self op st) in
  (forall k,
      (k < n)%nat ->
      (forall j, (j < k)%nat -> raises (attempt op st j)) ->
      ~ raises (attempt op st k) ->
      ending r = ending (attempt op st k) /\
      slept r = backoff_sleeps d op st 0 k ++ slept (attempt op st k)) /\
  ((0 < n)%nat ->
   (forall j, (j < n)%nat -> raises (attempt op st j)) ->
   ending r = ending (attempt op st (n - 1)) /\
   slept r = backoff_sleeps d op st 0 (n - 1) ++ slept (attempt op st (n - 1))).
Proof.
  cbn zeta. unfold SubtitleAPIManager._retry_operation. split.
  - intros k Hk Hfail Hok.
    pose proof (retry_loop_succeeds (SubtitleAPIManager.retry_attempts self)
                  (SubtitleAPIManager.retry_delay self) op st
                  (Z.to_nat (SubtitleAPIManager.retry_attempts self)) 0 k None) as H.
    cbn zeta in H. replace (k - 0)%nat with k in H by lia.
    apply H; [lia | lia | intros; apply Hfail; lia | exact Hok].
  - intros Hn Hfail.
    destruct (Z.to_nat (SubtitleAPIManager.retry_attempts self)) as [|len] eqn:En; [lia|].
    pose proof (retry_loop_exhausted (SubtitleAPIManager.retry_attempts self)
                  (SubtitleAPIManager.retry_delay self) op st len 0 None) as H.
    cbn zeta in H. replace (S len - 1)%nat with len by lia.
    cbn [Nat.add] in H. apply H; [lia | intros; apply Hfail; lia].
Qed.


(** ** Token-auth provider: replies other than 200 *)












(** ** De-duplication *)

Lemma foldl_dedup_step (results : list search_result) :
  forall seen unique_results,
    snd (foldl SubtitleAPIManager.dedup_step (seen, unique_results) results) =
    unique_results ++ dedup_from seen results.
Proof.
  induction results as [|r rest IH]; intros seen unique_results.
  - cbn. now rewrite app_nil_r.
  - cbn [foldl dedup_from]. unfold SubtitleAPIManager.dedup_step at 2.
    destruct (decide (SubtitleAPIManager.dedup_key r ∈ seen)).
    + apply IH.
    + rewrite IH. now rewrite <- app_assoc.
Qed.

Lemma deduplicate_results_eq (results : list search_result) :
  SubtitleAPIManager._deduplicate_results results = dedup_from ∅ results.
Proof. unfold SubtitleAPIManager._deduplicate_results. now rewrite foldl_dedup_step. Qed.

Lemma dedup_from_sub (results : list search_result) :
  forall seen r, r ∈ dedup_from seen results -> r ∈ results.
Proof.
  induction results as [|x rest IH]; intros seen r; cbn [dedup_from]; [easy|].
  destruct (decide _).
  - intros H. right. eapply IH, H.
  - intros [->|H]%elem_of_cons; [left | right; eapply IH, H].
Qed.

Lemma count_key_dedup_from (k : string) (results : list search_result) :
  forall seen,
    count_key k (dedup_from seen results) =
    if decide (k ∈ seen) then 0%nat
    else if decide (k ∈ map SubtitleAPIManager.dedup_key results) then 1%nat else 0%nat.
Proof.
  unfold count_key.
  induction results as [|r rest IH]; intros seen; cbn [dedup_from map].
  - destruct (decide (k ∈ seen)); [reflexivity|].
    destruct (decide (k ∈ [])) as [H|]; [inversion H | reflexivity].
  - destruct (decide (SubtitleAPIManager.dedup_key r ∈ seen)) as [Hseen|Hnew].
    + rewrite IH. destruct (decide (k ∈ seen)) as [|Hk]; [reflexivity|].
      assert (Hne : SubtitleAPIManager.dedup_key r <> k) by (intros <-; contradiction).
      destruct (decide (k ∈ map _ rest)), (decide (k ∈ _ :: map _ rest)) as [H|H];
        try reflexivity.
      * exfalso. apply H. now right.
      * exfalso. apply elem_of_cons in H as [H|H]; [congruence | contradiction].
    + destruct (decide (SubtitleAPIManager.dedup_key r = k)) as [Heq|Hne].
      * rewrite filter_cons_True by assumption. cbn [length]. rewrite IH. subst k.
        destruct (decide (_ ∈ {[ _ ]} ∪ seen)) as [|H]; [|exfalso; apply H; set_solver].
        destruct (decide (_ ∈ seen)); [contradiction|].
        destruct (decide (_ ∈ _ :: _)) as [|H]; [reflexivity | exfalso; apply H; left].
      * rewrite filter_cons_False by assumption. rewrite IH.
        destruct (decide (k ∈ {[ _ ]} ∪ seen)) as [Hin|Hout],
                 (decide (k ∈ seen)) as [Hold|Hfresh];
          try reflexivity.
        -- exfalso. apply elem_of_union in Hin as [Hin|Hin]; [|contradiction].
           apply elem_of_singleton in Hin. congruence.
        -- exfalso. apply Hout. apply elem_of_union. now right.
        -- destruct (decide (k ∈ map _ rest)), (decide (k ∈ _ :: map _ rest)) as [H1|H1];
             try reflexivity.
           ++ exfalso. apply H1. now right.
           ++ exfalso. apply elem_of_cons in H1 as [H1|H1]; [congruence | contradiction].
Qed.

(** Exactly one result is kept for every joined key of the input. *)
Lemma deduplicate_one_per_key (results : list search_result) (r : search_result) :
  r ∈ results ->
  count_key (SubtitleAPIManager.dedup_key r)
    (SubtitleAPIManager._deduplicate_results results) = 1%nat.
Proof.
  intros Hr. rewrite deduplicate_results_eq, count_key_dedup_from.
  destruct (decide (_ ∈ ∅)) as [H|_]; [set_solver|].
  destruct (decide (_ ∈ map _ results)) as [|H]; [reflexivity|].
  exfalso. apply H. apply list_elem_of_fmap. exists r. split; [reflexivity | exact Hr].
Qed.

Lemma filter_length_ext {A : Type} (P Q : A -> Prop)
    `{!forall x, Decision (P x)} `{!forall x, Decision (Q x)} (l : list A) :
  (forall x, x ∈ l -> (P x <-> Q x)) ->
  length (filter P l) = length (filter Q l).
Proof.
  induction l as [|x l IH]; intros Hext; [reflexivity|].
  assert (Hx : P x <-> Q x) by (apply Hext; left).
  assert (Hl : forall y, y ∈ l -> (P y <-> Q y)) by (intros y Hy; apply Hext; now right).
  destruct (decide (P x)) as [HP|HP].
  - rewrite !filter_cons_True by tauto. cbn. now rewrite IH.
  - rewrite !filter_cons_False by tauto. now apply IH.
Qed.

Lemma dedup_key_of_pair (x y : search_result) :
  file_and_language x = file_and_language y ->
  SubtitleAPIManager.dedup_key x = SubtitleAPIManager.dedup_key y.
Proof.
  unfold file_and_language, SubtitleAPIManager.dedup_key. intros H.
  inversion H as [[H1 H2]]. now rewrite H1, H2.
Qed.

(** Where no two different (filename, language) pairs of the input render
    the same joined key, exactly one result is kept per pair. *)
Lemma deduplicate_one_per_pair (results : list search_result) (r : search_result) :
  r ∈ results ->
  (forall x, x ∈ results ->
     SubtitleAPIManager.dedup_key x = SubtitleAPIManager.dedup_key r ->
     file_and_language x = file_and_language r) ->
  count_pair (file_and_language r) (SubtitleAPIManager._deduplicate_results results) = 1%nat.
Proof.
  intros Hr Hinj. rewrite <- (deduplicate_one_per_key results r Hr).
  unfold count_pair, count_key. apply filter_length_ext.
  intros x Hx. split; [apply dedup_key_of_pair|].
  apply Hinj. rewrite deduplicate_results_eq in Hx. eapply dedup_from_sub, Hx.
Qed.

(** *** The failing input: three hits whose joined keys coincide *)

(** C3. The key joins filename and language with ["_"], so
    ("Inception", "pt_br") and ("Inception_pt", "br") render the same key:
    of three hits, two of them filed under ("Inception_pt", "br"), the
    search keeps the first only, and none filed under that pair. *)
Theorem C3_joined_key_conflates_pairs :
  exists raw kept,
    ending (fst (OpenSubtitlesAPI.search_subtitles logged_in
                   (search_answers 200 colliding_hits) 0 None "br" (Some "Inception")))
      = Return raw /\
    ending (fst (SubtitleAPIManager.search_subtitles configured
                   (always (search_answers 200 colliding_hits)) "Inception" None "br" None))
      = Return [kept] /\
    file_and_language kept = (Some "Inception", Some "pt_br") /\
    count_pair (Some "Inception_pt", Some "br") raw = 2%nat /\
    count_pair (Some "Inception_pt", Some "br") [kept] = 0%nat.
Proof.
  eexists _, _. split; [vm_compute; reflexivity|].
  split; [vm_compute; reflexivity|].
  split; [reflexivity|]. split; vm_compute; reflexivity.
Qed.

(** ** Durable store: metadata upsert *)

Lemma replace_first_none matches replacement docs :
  SubtitleStorage.replace_first matches replacement docs = None ->
  List.filter matches docs = [].
Proof.
  induction docs as [|d rest IH]; cbn; [reflexivity|].
  destruct (matches d); [discriminate|].
  destruct (SubtitleStorage.replace_first matches replacement rest); [discriminate|].
  intros _. now apply IH.
Qed.

Lemma replace_first_some matches replacement docs docs' :
  matches replacement = true ->
  SubtitleStorage.replace_first matches replacement docs = Some docs' ->
  List.find matches docs' = Some replacement /\
  length (List.filter matches docs') = length (List.filter matches docs).
Proof.
  intros Hm. revert docs'. induction docs as [|d rest IH]; cbn; intros docs'; [discriminate|].
  destruct (matches d) eqn:Hd.
  - intros H. inversion H; subst. cbn. rewrite Hm. now split.
  - destruct (SubtitleStorage.replace_first matches replacement rest) as [rest'|];
      [|discriminate].
    intros H. inversion H; subst. cbn. rewrite Hd. now apply IH.
Qed.

Lemma find_app_none {A : Type} (f : A -> bool) (l : list A) (x : A) :
  List.filter f l = [] -> f x = true -> List.find f (l ++ [x]) = Some x.
Proof.
  induction l as [|y l IH]; cbn; intros Hl Hx; [now rewrite Hx|].
  destruct (f y); [discriminate | now apply IH].
Qed.

Lemma replace_one_upsert_spec matches replacement docs :
  matches replacement = true ->
  List.find matches (SubtitleStorage.replace_one_upsert matches replacement docs)
    = Some replacement /\
  length (List.filter matches (SubtitleStorage.replace_one_upsert matches replacement docs))
    = Nat.max 1 (length (List.filter matches docs)).
Proof.
  intros Hm. unfold SubtitleStorage.replace_one_upsert.
  destruct (SubtitleStorage.replace_first matches replacement docs) as [docs'|] eqn:E.
  - destruct (replace_first_some _ _ _ _ Hm E) as [H1 H2]. split; [exact H1|].
    rewrite H2. destruct (List.filter matches docs) eqn:Ef; [|cbn; lia].
    exfalso. clear H1 H2. revert docs' E Ef.
    induction docs as [|d rest IH]; cbn; intros docs' E Ef; [discriminate|].
    destruct (matches d); [discriminate|].
    destruct (SubtitleStorage.replace_first matches replacement rest); [|discriminate].
    eapply IH; eauto.
  - pose proof (replace_first_none _ _ _ E) as Hnone. split.
    + now apply find_app_none.
    + rewrite List.filter_app, Hnone. cbn. now rewrite Hm.
Qed.

Lemma same_key_new_document self now m l data :
  SubtitleStorage.same_key m l (SubtitleStorage.new_document self now m l data) = true.
Proof.
  unfold SubtitleStorage.same_key. cbn. now rewrite !String.eqb_refl.
Qed.

(** What a successful upsert leaves behind. *)
Lemma store_subtitle_metadata_true self now m l data tr self' :
  SubtitleStorage.store_subtitle_metadata self now m l data = ((tr, Return true), self') ->
  SubtitleStorage.up (SubtitleStorage.db self) = true /\
  SubtitleStorage.up (SubtitleStorage.db self') = true /\
  SubtitleStorage.cache_duration self' = SubtitleStorage.cache_duration self /\
  SubtitleStorage.subtitles_metadata (SubtitleStorage.db self') =
    SubtitleStorage.replace_one_upsert (SubtitleStorage.same_key m l)
      (SubtitleStorage.new_document self now m l data)
      (SubtitleStorage.subtitles_metadata (SubtitleStorage.db self)) /\
  SubtitleStorage.fs (SubtitleStorage.db self') = SubtitleStorage.fs (SubtitleStorage.db self).
Proof.
  unfold SubtitleStorage.store_subtitle_metadata, SubtitleStorage.ensure_connected,
    SubtitleStorage.connect, SubtitleStorage._update_movie_subtitle_count.
  destruct self as [conn dur srv]. cbn [SubtitleStorage._connected SubtitleStorage.db
    SubtitleStorage.cache_duration SubtitleStorage.set_connected].
  destruct conn; cbn [SubtitleStorage._connected]; destruct (SubtitleStorage.up srv) eqn:Hup;
    cbn [SubtitleStorage.db SubtitleStorage.set_db SubtitleStorage.set_subtitles
         SubtitleStorage.up SubtitleStorage.set_connected SubtitleStorage.cache_duration];
    try rewrite Hup; cbn; intros H; inversion H; subst; cbn; auto.
Qed.

Lemma store_subtitle_metadata_up self now m l data :
  SubtitleStorage.up (SubtitleStorage.db self) = true ->
  exists tr self',
    SubtitleStorage.store_subtitle_metadata self now m l data = ((tr, Return true), self').
Proof.
  unfold SubtitleStorage.store_subtitle_metadata, SubtitleStorage.ensure_connected,
    SubtitleStorage.connect, SubtitleStorage._update_movie_subtitle_count.
  destruct self as [conn dur srv]. cbn [SubtitleStorage._connected SubtitleStorage.db
    SubtitleStorage.cache_duration SubtitleStorage.set_connected].
  intros Hup. destruct conn; cbn [SubtitleStorage._connected]; rewrite ?Hup;
    cbn [SubtitleStorage.db SubtitleStorage.set_db SubtitleStorage.set_subtitles
         SubtitleStorage.up SubtitleStorage.set_connected SubtitleStorage.cache_duration];
    rewrite ?Hup; cbn; eexists _, _; reflexivity.
Qed.

Lemma replace_first_again matches replacement docs docs' :
  matches replacement = true ->
  SubtitleStorage.replace_first matches replacement docs = Some docs' ->
  SubtitleStorage.replace_first matches replacement docs' = Some docs'.
Proof.
  intros Hm. revert docs'. induction docs as [|d rest IH]; cbn; intros docs'; [discriminate|].
  destruct (matches d) eqn:Hd.
  - intros H. inversion H; subst. cbn. now rewrite Hm.
  - destruct (SubtitleStorage.replace_first matches replacement rest) as [rest'|] eqn:E;
      [|discriminate].
    intros H. inversion H; subst. cbn. rewrite Hd. now rewrite (IH rest').
Qed.

Lemma replace_first_appended matches replacement docs :
  matches replacement = true ->
  SubtitleStorage.replace_first matches replacement docs = None ->
  SubtitleStorage.replace_first matches replacement (docs ++ [replacement])
    = Some (docs ++ [replacement]).
Proof.
  intros Hm. induction docs as [|d rest IH]; cbn; [now rewrite Hm|].
  destruct (matches d); [discriminate|].
  destruct (SubtitleStorage.replace_first matches replacement rest); [discriminate|].
  intros _. now rewrite IH.
Qed.

(** Replacing by the same document a second time changes nothing. *)
Lemma replace_one_upsert_idempotent matches replacement docs :
  matches replacement = true ->
  SubtitleStorage.replace_one_upsert matches replacement
    (SubtitleStorage.replace_one_upsert matches replacement docs)
  = SubtitleStorage.replace_one_upsert matches replacement docs.
Proof.
  intros Hm. unfold SubtitleStorage.replace_one_upsert at 2 3.
  destruct (SubtitleStorage.replace_first matches replacement docs) as [docs'|] eqn:E;
    unfold SubtitleStorage.replace_one_upsert.
  - now rewrite (replace_first_again _ _ _ _ Hm E).
  - now rewrite (replace_first_appended _ _ _ Hm E).
Qed.

(** C10. A successful upsert leaves, under its (movie, language) key, the
    freshly built record: not marked as cached, without blob reference,
    with no local downloads and verification pending, whatever was stored
    before; the blob store is not touched, so a blob of that pair stays. *)
Theorem C10_upsert_writes_fresh_record self now m l data tr self' :
  SubtitleStorage.store_subtitle_metadata self now m l data = ((tr, Return true), self') ->
  exists d,
    record_of m l self' = Some d /\
    d = SubtitleStorage.new_document self now m l data /\
    SubtitleStorage.cached_content d = false /\
    SubtitleStorage.gridfs_file_id d = None /\
    SubtitleStorage.local_downloads d = 0 /\
    SubtitleStorage.verification_status d = "pending" /\
    SubtitleStorage.fs (SubtitleStorage.db self') = SubtitleStorage.fs (SubtitleStorage.db self).
Proof.
  intros H. apply store_subtitle_metadata_true in H as (_ & _ & _ & Hdocs & Hfs).
  exists (SubtitleStorage.new_document self now m l data).
  unfold record_of. rewrite Hdocs.
  split; [apply replace_one_upsert_spec, same_key_new_document|].
  repeat split; auto.
Qed.

(** C2 (as amended). With at most one record stored for the pair (the
    unique index), two successful upserts with the same data leave exactly
    one; it is the record built by the second call, so [created_at] is the
    instant of the second call. When both calls read the same instant the
    second one changes nothing in the collection. *)
Theorem C2_upsert_twice self now1 now2 m l data tr1 self1 tr2 self2 :
  (records_for m l (SubtitleStorage.subtitles_metadata (SubtitleStorage.db self)) <= 1)%nat ->
  SubtitleStorage.store_subtitle_metadata self now1 m l data = ((tr1, Return true), self1) ->
  SubtitleStorage.store_subtitle_metadata self1 now2 m l data = ((tr2, Return true), self2) ->
  records_for m l (SubtitleStorage.subtitles_metadata (SubtitleStorage.db self2)) = 1%nat /\
  record_of m l self2 = Some (SubtitleStorage.new_document self now2 m l data) /\
  (forall d, record_of m l self2 = Some d -> SubtitleStorage.created_at d = now2) /\
  (now1 = now2 ->
   SubtitleStorage.subtitles_metadata (SubtitleStorage.db self2) =
   SubtitleStorage.subtitles_metadata (SubtitleStorage.db self1)).
Proof.
  intros Hone H1 H2.
  apply store_subtitle_metadata_true in H1 as (_ & _ & Hdur1 & Hdocs1 & _).
  apply store_subtitle_metadata_true in H2 as (_ & _ & _ & Hdocs2 & _).
  assert (Hdoc : SubtitleStorage.new_document self1 now2 m l data =
                 SubtitleStorage.new_document self now2 m l data).
  { unfold SubtitleStorage.new_document. now rewrite Hdur1. }
  rewrite Hdoc in Hdocs2.
  pose proof (same_key_new_document self now1 m l data) as Hk1.
  pose proof (same_key_new_document self now2 m l data) as Hk2.
  destruct (replace_one_upsert_spec _ _
              (SubtitleStorage.subtitles_metadata (SubtitleStorage.db self)) Hk1) as [_ Hc1].
  destruct (replace_one_upsert_spec _ _
              (SubtitleStorage.subtitles_metadata (SubtitleStorage.db self1)) Hk2) as [Hf2 Hc2].
  assert (Hrec : record_of m l self2 = Some (SubtitleStorage.new_document self now2 m l data))
    by (unfold record_of; now rewrite Hdocs2).
  split; [|split; [exact Hrec | split]].
  - unfold records_for in *. rewrite Hdocs2, Hc2, Hdocs1, Hc1. lia.
  - intros d Hd. rewrite Hrec in Hd. inversion Hd. reflexivity.
  - intros ->. rewrite Hdocs2, Hdocs1. now apply replace_one_upsert_idempotent.
Qed.

(** ** Cache degradation *)

Lemma cache_get_unavailable c now m l :
  cache_unavailable c ->
  exists tr, CacheManager.get_subtitle_content c now m l = (tr, Return None).
Proof.
  unfold cache_unavailable, CacheManager.get_subtitle_content, CacheManager.redis_get.
  destruct (CacheManager.redis_client c) as [srv|]; [|intros _; eexists; reflexivity].
  intros ->. cbn. eexists. reflexivity.
Qed.

Lemma cache_set_returns c now m l content ttl :
  exists tr b c', CacheManager.set_subtitle_content c now m l content ttl = ((tr, Return b), c').
Proof.
  unfold CacheManager.set_subtitle_content, CacheManager.redis_setex.
  destruct (CacheManager.redis_client c) as [srv|]; [|eexists _, _, _; reflexivity].
  destruct (_ <? _); [eexists _, _, _; reflexivity|].
  destruct (CacheManager.up srv); cbn; eexists _, _, _; reflexivity.
Qed.

Lemma storage_get_returns `{SubtitleStorage.Codecs} st now m l :
  exists tr st',
    SubtitleStorage.get_cached_subtitle_content st now m l
      = ((tr, Return (stored_text st m l)), st').
Proof.
  unfold SubtitleStorage.get_cached_subtitle_content, SubtitleStorage.ensure_connected,
    SubtitleStorage.connect, SubtitleStorage._record_cache_hit, stored_text.
  destruct st as [conn dur srv].
  cbn [SubtitleStorage._connected SubtitleStorage.db SubtitleStorage.set_connected].
  destruct conn; cbn [SubtitleStorage._connected];
    destruct (SubtitleStorage.up srv) eqn:Hup;
    cbn [SubtitleStorage.db SubtitleStorage.set_connected]; rewrite ?Hup;
    try (destruct (List.find _ (SubtitleStorage.fs srv)));
    cbn; eexists _, _; reflexivity.
Qed.

Lemma read_through_cache_down `{SubtitleStorage.Codecs} self st c now m l :
  SubtitleDatabase.storage self = Some st ->
  SubtitleDatabase.cache self = Some c ->
  cache_unavailable c ->
  ending (fst (SubtitleDatabase.read_through self now m l))
    = Return (nonempty (stored_text st m l)).
Proof.
  intros Hst Hc Hdown. unfold SubtitleDatabase.read_through. rewrite Hc, Hst.
  destruct (cache_get_unavailable c now m l Hdown) as [tr ->].
  cbn [truthy].
  destruct (storage_get_returns st now m l) as [tr' [st' ->]].
  unfold nonempty. destruct (truthy (stored_text st m l)) eqn:Ht.
  - destruct (cache_set_returns c now m l (fmt (stored_text st m l)) None)
      as [tr'' [b [c' ->]]].
    reflexivity.
  - reflexivity.
Qed.

Lemma filter_out_named name (files : list SubtitleStorage.grid_file) :
  List.filter (SubtitleStorage.named name)
    (List.filter (fun f => negb (SubtitleStorage.named name f)) files) = [].
Proof.
  induction files as [|f files IH]; [reflexivity|].
  cbn [List.filter]. destruct (SubtitleStorage.named name f) eqn:E; cbn [negb List.filter].
  - exact IH.
  - now rewrite E.
Qed.

(** A blob written by [cache_subtitle_content] reads back as the text
    that was cached. *)
Lemma cached_blob_reads_back `{SubtitleStorage.Codecs} st now m l content compress tr id st' :
  SubtitleStorage.cache_subtitle_content st now m l content compress
    = ((tr, Return (Some id)), st') ->
  stored_text st' m l = Some content.
Proof.
  unfold SubtitleStorage.cache_subtitle_content, SubtitleStorage.ensure_connected,
    SubtitleStorage.connect, stored_text.
  destruct st as [conn dur srv].
  cbn [SubtitleStorage._connected SubtitleStorage.db SubtitleStorage.set_connected].
  assert (Hread : forall others,
    List.filter (SubtitleStorage.named (SubtitleStorage.blob_name m l)) others = [] ->
    forall i t,
    option_map SubtitleStorage.blob_text
      (List.find (SubtitleStorage.named (SubtitleStorage.blob_name m l))
         (others ++ [ {| SubtitleStorage.file_id := i;
                         SubtitleStorage.file_name := SubtitleStorage.blob_name m l;
                         SubtitleStorage.data :=
                           if compress
                           then SubtitleStorage.gzip_compress (SubtitleStorage.encode_utf8 content)
                           else SubtitleStorage.encode_utf8 content;
                         SubtitleStorage.compressed := compress;
                         SubtitleStorage.original_size := Z.of_nat (String.length content);
                         SubtitleStorage.compressed_size := t;
                         SubtitleStorage.cached_at := now |} ]))
    = Some content).
  { intros others Hothers i t. rewrite find_app_none; [|exact Hothers|].
    - cbn [option_map]. unfold SubtitleStorage.blob_text. cbn.
      destruct compress.
      + now rewrite SubtitleStorage.decompress_compress, SubtitleStorage.decode_encode.
      + now rewrite SubtitleStorage.decode_replace_encode.
    - unfold SubtitleStorage.named. cbn. apply String.eqb_refl. }
  destruct conn; cbn [SubtitleStorage._connected];
    destruct (SubtitleStorage.up srv) eqn:Hup;
    cbn [SubtitleStorage.db SubtitleStorage.set_connected]; rewrite ?Hup; cbn;
    intros E; inversion E; subst; cbn; rewrite ?Hup;
    apply Hread, filter_out_named.
Qed.

(** C7. With the cache store unavailable, [get_subtitle_content] returns
    what the blob store holds for the pair (a non-empty text, else [None]):
    for an initialized facade, and for a facade that still has to
    initialize while the document store is up and the cache store is down.
    It ends by returning, never by raising. Text cached through
    [cache_subtitle_content] is the text the blob store holds. *)
Theorem C7_cache_unavailable_degrades `{SubtitleStorage.Codecs} :
  (forall self st c mongo redis now m l,
      SubtitleDatabase._initialized self = true ->
      SubtitleDatabase.storage self = Some st ->
      SubtitleDatabase.cache self = Some c ->
      cache_unavailable c ->
      ending (fst (SubtitleDatabase.get_subtitle_content self mongo redis now m l))
        = Return (nonempty (stored_text st m l))) /\
  (forall self mongo redis now m l,
      SubtitleDatabase._initialized self = false ->
      SubtitleStorage.up mongo = true ->
      CacheManager.up redis = false ->
      ending (fst (SubtitleDatabase.get_subtitle_content self mongo redis now m l))
        = Return (nonempty (stored_text (SubtitleStorage.init mongo) m l))) /\
  (forall st now m l content compress tr id st',
      SubtitleStorage.cache_subtitle_content st now m l content compress
        = ((tr, Return (Some id)), st') ->
      stored_text st' m l = Some content).
Proof.
  split; [|split].
  - intros self st c mongo redis now m l Hinit Hst Hc Hdown.
    unfold SubtitleDatabase.get_subtitle_content, SubtitleDatabase.ensure_initialized.
    rewrite Hinit. cbn [ret].
    pose proof (read_through_cache_down self st c now m l Hst Hc Hdown) as Hr.
    destruct (SubtitleDatabase.read_through self now m l) as [[tr o] self2].
    exact Hr.
  - intros self mongo redis now m l Hinit Hup Hdown.
    unfold SubtitleDatabase.get_subtitle_content, SubtitleDatabase.ensure_initialized,
      SubtitleDatabase.initialize, SubtitleStorage.connect, CacheManager.connect.
    rewrite Hinit. cbn [SubtitleStorage.init SubtitleStorage._connected SubtitleStorage.db].
    rewrite Hup, Hdown. cbn [log emit bind ret SubtitleDatabase._initialized events fst].
    match goal with |- context [SubtitleDatabase.read_through ?s now m l] =>
      pose proof (read_through_cache_down s
                    (SubtitleStorage.set_connected true (SubtitleStorage.init mongo))
                    (CacheManager.set_redis_client None CacheManager.init)
                    now m l eq_refl eq_refl I) as Hr;
      destruct (SubtitleDatabase.read_through s now m l) as [[tr o] self2]
    end.
    exact Hr.
  - intros st now m l content compress tr id st'. apply cached_blob_reads_back.
Qed.

(** ** Content processor: the exception boundary *)

Lemma no_hang_ret {A : Type} (a : A) : no_hang (ret a).
Proof. discriminate. Qed.

Lemma no_hang_raise {A : Type} (e : exn) : no_hang (@raise A e).
Proof. discriminate. Qed.

Lemma no_hang_call {A : Type} (f : fallible A) : no_hang (call f).
Proof. destruct f; discriminate. Qed.

Lemma no_hang_log lvl msg : no_hang (log lvl msg).
Proof. discriminate. Qed.

Lemma no_hang_bind {A B : Type} (m : run A) (k : A -> run B) :
  no_hang m -> (forall a, no_hang (k a)) -> no_hang (bind m k).
Proof.
  unfold no_hang. destruct m as [tr [a|e|]]; cbn; intros Hm Hk; try discriminate.
  - specialize (Hk a). destruct (k a) as [tr' o]. exact Hk.
  - contradiction.
Qed.

Lemma no_hang_try_except {A : Type} (m : run A) (h : exn -> run A) :
  no_hang m -> (forall e, no_hang (h e)) -> no_hang (try_except m h).
Proof.
  unfold no_hang. destruct m as [tr [a|e|]]; cbn; intros Hm Hh; try discriminate.
  - specialize (Hh e). destruct (h e) as [tr' o]. exact Hh.
  - contradiction.
Qed.

Lemma returns_try_except {A : Type} (m : run A) (h : exn -> run A) :
  no_hang m -> (forall e, returns (h e)) -> returns (try_except m h).
Proof.
  unfold no_hang, returns. destruct m as [tr [a|e|]]; cbn; intros Hm Hh.
  - eexists _, _. reflexivity.
  - destruct (Hh e) as [tr' [a ->]]. eexists _, _. reflexivity.
  - contradiction.
Qed.

Ltac boundary :=
  repeat first
    [ apply no_hang_ret | apply no_hang_raise | apply no_hang_call | apply no_hang_log
    | apply no_hang_bind; [|intros ?]
    | apply no_hang_try_except; [|intros ?]
    | match goal with
      | |- no_hang (if ?b then _ else _) => destruct b
      | |- no_hang (match ?x with _ => _ end) => destruct x
      | |- no_hang (let '(_, _) := ?x in _) => destruct x
      end ].

Section Boundary.
Context `{L : SubtitleProcessor.Libraries}.

Lemma no_hang_need {A : Type} (o : option A) (e : exn) : no_hang (SubtitleProcessor.need o e).
Proof. destruct o; discriminate. Qed.

Lemma no_hang_try_fallbacks content encoding fallbacks :
  no_hang (SubtitleProcessor.try_fallbacks content encoding fallbacks).
Proof.
  induction fallbacks as [|fb rest IH]; cbn [SubtitleProcessor.try_fallbacks].
  - discriminate.
  - destruct (SubtitleProcessor.decode fb content) as [s|e]; [discriminate|].
    destruct (SubtitleProcessor.is_unicode_decode_error e); [exact IH | discriminate].
Qed.

Lemma detect_encoding_returns self content :
  returns (SubtitleProcessor.detect_encoding self content).
Proof.
  unfold SubtitleProcessor.detect_encoding. apply returns_try_except.
  - apply no_hang_bind; [apply no_hang_call | intros d].
    apply no_hang_bind; [apply no_hang_need | intros c].
    apply no_hang_bind; [|intros enc; boundary].
    destruct (negb _); [apply no_hang_try_fallbacks | discriminate].
  - intros e. eexists _, _. reflexivity.
Qed.

Lemma no_hang_decode_detected encoding content :
  no_hang (SubtitleProcessor.decode_detected encoding content).
Proof.
  unfold SubtitleProcessor.decode_detected.
  apply no_hang_bind; [apply no_hang_need | intros; apply no_hang_call].
Qed.

Lemma validate_returns self content :
  exists tr b msg,
    SubtitleProcessor.validate_subtitle_file self content = (tr, Return (b, msg)) /\
    msg <> "".
Proof.
  unfold SubtitleProcessor.validate_subtitle_file.
  destruct (_ <? _); [eexists _, _, _; split; [reflexivity | discriminate]|].
  destruct (_ =? _); [eexists _, _, _; split; [reflexivity | discriminate]|].
  destruct (detect_encoding_returns self content) as [tr [enc ->]].
  cbn [bind].
  pose proof (no_hang_decode_detected enc content) as Hd.
  destruct (SubtitleProcessor.decode_detected enc content) as [tr' [text|e|]];
    [| |exfalso; now apply Hd].
  - cbn [bind]. destruct (SubtitleProcessor._is_valid_subtitle_format text); cbn;
      eexists _, _, _; (split; [reflexivity | discriminate]).
  - cbn. eexists _, _, _. split; [reflexivity | discriminate].
Qed.

(** [process_subtitle_file] returns a text with "Success", or [None]
    with a message that is not empty. *)
Lemma process_returns self content target_format :
  exists tr v msg,
    SubtitleProcessor.process_subtitle_file self content target_format
      = (tr, Return (v, msg)) /\
    msg <> "" /\ (v <> None -> msg = "Success").
Proof.
  unfold SubtitleProcessor.process_subtitle_file.
  destruct (validate_returns self content) as [tr [b [msg [-> Hmsg]]]].
  cbn [bind]. destruct b; cbn [negb].
  2:{ cbn. eexists _, _, _. split; [reflexivity|]. split; [exact Hmsg | congruence]. }
  destruct (detect_encoding_returns self content) as [tr1 [enc ->]].
  cbn [bind].
  pose proof (no_hang_decode_detected enc content) as Hd.
  destruct (SubtitleProcessor.decode_detected enc content) as [tr2 [text|e|]];
    [| |exfalso; now apply Hd].
  2:{ cbn. eexists _, _, _. split; [reflexivity|]. split; [discriminate | congruence]. }
  cbn [bind].
  destruct (SubtitleProcessor.from_string _) as [subtitles|e]; cbn [call bind ret raise].
  2:{ cbn. eexists _, _, _. split; [reflexivity|]. split; [discriminate | congruence]. }
  destruct (_ =? _)%nat.
  { cbn. eexists _, _, _. split; [reflexivity|]. split; [discriminate | congruence]. }
  destruct (SubtitleProcessor.to_string _ _) as [output|e]; cbn.
  - eexists _, _, _. split; [reflexivity|]. split; [discriminate | reflexivity].
  - eexists _, _, _. split; [reflexivity|]. split; [discriminate | congruence].
Qed.

Lemma convert_format_boundary content source_format target_format :
  text_or_logged (SubtitleProcessor.convert_format content source_format target_format).
Proof.
  unfold SubtitleProcessor.convert_format, text_or_logged.
  destruct (SubtitleProcessor.from_string content) as [subtitles|e]; cbn.
  - destruct (SubtitleProcessor.to_string _ _) as [output|e]; cbn;
      eexists; (split; [reflexivity|]); [discriminate | intros _; discriminate].
  - eexists. split; [reflexivity|]. intros _. discriminate.
Qed.

Lemma sync_subtitles_boundary content offset_ms :
  text_or_logged (SubtitleProcessor.sync_subtitles content offset_ms).
Proof.
  unfold SubtitleProcessor.sync_subtitles, text_or_logged.
  destruct (SubtitleProcessor.from_string content) as [subtitles|e]; cbn;
    [|eexists; split; [reflexivity | intros _; discriminate]].
  destruct offset_ms as [ms|e]; cbn;
    [|eexists; split; [reflexivity | intros _; discriminate]].
  destruct (SubtitleProcessor.shift _ _) as [shifted|e]; cbn;
    [|eexists; split; [reflexivity | intros _; discriminate]].
  destruct (SubtitleProcessor.to_string _ _) as [output|e]; cbn;
    eexists; (split; [reflexivity|]); [discriminate | intros _; discriminate].
Qed.

Lemma merge_into_cases merged subtitle_contents :
  (exists f, SubtitleProcessor.merge_into merged subtitle_contents = ([], Return f)) \/
  (exists e, SubtitleProcessor.merge_into merged subtitle_contents = ([], Raise e)).
Proof.
  revert merged. induction subtitle_contents as [|content rest IH]; intros merged;
    cbn [SubtitleProcessor.merge_into].
  - left. eexists. reflexivity.
  - destruct (SubtitleProcessor.from_string content) as [subtitles|e]; cbn;
      [|right; eexists; reflexivity].
    destruct (SubtitleProcessor.extend merged subtitles) as [merged'|e]; cbn;
      [|right; eexists; reflexivity].
    destruct (IH merged') as [[f ->] | [e ->]]; [left | right]; eexists; reflexivity.
Qed.

Lemma merge_subtitle_files_boundary subtitle_contents :
  text_or_logged (SubtitleProcessor.merge_subtitle_files subtitle_contents).
Proof.
  unfold SubtitleProcessor.merge_subtitle_files, text_or_logged.
  destruct (merge_into_cases SubtitleProcessor.new_file subtitle_contents)
    as [[f ->] | [e ->]]; cbn;
    [|eexists; split; [reflexivity | intros _; discriminate]].
  destruct (SubtitleProcessor.sort f) as [sorted|e]; cbn;
    [|eexists; split; [reflexivity | intros _; discriminate]].
  destruct (SubtitleProcessor.to_string _ _) as [output|e]; cbn;
    eexists; (split; [reflexivity|]); [discriminate | intros _; discriminate].
Qed.

Lemma at_boundary_call (label : string) (work : fallible string) :
  at_boundary label work
    (try_except (do output <- call work; ret (Some output))
       (fun e => exec log Error' (label +:+ exn_text e); ret None)).
Proof.
  split; [intros out -> | intros e ->]; reflexivity.
Qed.

Lemma call_then_call {A B C : Type} (x : fallible A) (k : A -> fallible B) (g : B -> run C) :
  (do b <- call (then_call x k); g b) = (do a <- call x; do b <- call (k a); g b).
Proof.
  destruct x as [a|e]; cbn [then_call call]; [|reflexivity].
  cbn [bind ret]. destruct (do b <- call (k a); g b) as [tr o]. reflexivity.
Qed.

Lemma convert_format_at_boundary content source_format target_format :
  at_boundary "Format conversion error: " (conversion content target_format)
    (SubtitleProcessor.convert_format content source_format target_format).
Proof.
  unfold SubtitleProcessor.convert_format, conversion.
  rewrite <- call_then_call. apply at_boundary_call.
Qed.

Lemma sync_subtitles_at_boundary content offset_ms :
  at_boundary "Sync error: " (shifting content offset_ms)
    (SubtitleProcessor.sync_subtitles content offset_ms).
Proof.
  unfold SubtitleProcessor.sync_subtitles, shifting, at_boundary.
  destruct (SubtitleProcessor.from_string content) as [subtitles|e0]; cbn [then_call];
    [|split; intros ? E; inversion E; reflexivity].
  destruct offset_ms as [ms|e0]; cbn [then_call];
    [|split; intros ? E; inversion E; reflexivity].
  destruct (SubtitleProcessor.shift subtitles ms) as [shifted|e0] eqn:Hs; cbn [then_call];
    [|split; intros ? E; inversion E; subst; cbn; rewrite Hs; reflexivity].
  destruct (SubtitleProcessor.to_string shifted "srt") as [output|e0] eqn:Ht;
    split; intros ? E; inversion E; subst; cbn; rewrite Hs; cbn; rewrite Ht; reflexivity.
Qed.

Lemma merge_into_appending subtitle_contents : forall merged,
  SubtitleProcessor.merge_into merged subtitle_contents
  = call (appending merged subtitle_contents).
Proof.
  induction subtitle_contents as [|content rest IH]; intros merged;
    cbn [SubtitleProcessor.merge_into appending]; [reflexivity|].
  destruct (SubtitleProcessor.from_string content) as [subtitles|e]; cbn [then_call];
    [|reflexivity].
  cbn [call bind ret].
  destruct (SubtitleProcessor.extend merged subtitles) as [merged'|e]; cbn [then_call];
    [|reflexivity].
  cbn [call bind ret]. rewrite IH.
  destruct (call (appending merged' rest)) as [tr o]. reflexivity.
Qed.

Lemma merge_subtitle_files_at_boundary subtitle_contents :
  at_boundary "Merge error: " (merging subtitle_contents)
    (SubtitleProcessor.merge_subtitle_files subtitle_contents).
Proof.
  unfold SubtitleProcessor.merge_subtitle_files, merging, at_boundary.
  rewrite merge_into_appending.
  destruct (appending SubtitleProcessor.new_file subtitle_contents) as [merged|e0];
    cbn [then_call]; [|split; intros ? E; inversion E; reflexivity].
  destruct (SubtitleProcessor.sort merged) as [sorted|e0] eqn:Hs; cbn [then_call];
    [|split; intros ? E; inversion E; subst; cbn; rewrite Hs; reflexivity].
  destruct (SubtitleProcessor.to_string sorted "srt") as [output|e0] eqn:Ht;
    split; intros ? E; inversion E; subst; cbn; rewrite Hs; cbn; rewrite Ht; reflexivity.
Qed.

(** The message of a failed validation is never "Success". *)
Lemma validate_message self content tr msg :
  SubtitleProcessor.validate_subtitle_file self content = (tr, Return (false, msg)) ->
  msg <> "Success".
Proof.
  unfold SubtitleProcessor.validate_subtitle_file.
  destruct (_ <? _); [intros E; inversion E; discriminate|].
  destruct (_ =? _); [intros E; inversion E; discriminate|].
  destruct (detect_encoding_returns self content) as [tr0 [enc ->]].
  cbn [bind].
  destruct (SubtitleProcessor.decode_detected enc content) as [tr' [text|e|]]; cbn.
  - destruct (SubtitleProcessor._is_valid_subtitle_format text); cbn;
      intros E; inversion E; discriminate.
  - intros E; inversion E. try rewrite append_cons. discriminate.
  - discriminate.
Qed.

(** What [process_subtitle_file] returns, case by case. *)
Lemma process_cases self content target_format :
  (forall tr msg,
      SubtitleProcessor.validate_subtitle_file self content = (tr, Return (false, msg)) ->
      ending (SubtitleProcessor.process_subtitle_file self content target_format)
        = Return (None, msg)) /\
  (forall tr1 msg tr2 encoding tr3 text f,
      SubtitleProcessor.validate_subtitle_file self content = (tr1, Return (true, msg)) ->
      SubtitleProcessor.detect_encoding self content = (tr2, Return encoding) ->
      SubtitleProcessor.decode_detected encoding content = (tr3, Return text) ->
      SubtitleProcessor.from_string (SubtitleProcessor.clean_subtitle_content text) = Ok f ->
      (SubtitleProcessor.entries f = 0%nat ->
       ending (SubtitleProcessor.process_subtitle_file self content target_format)
         = Return (None, "No subtitle entries found")) /\
      (forall e,
          SubtitleProcessor.entries f <> 0%nat ->
          SubtitleProcessor.to_string f (SubtitleProcessor.output_format target_format)
            = Fail e ->
          ending (SubtitleProcessor.process_subtitle_file self content target_format)
            = Return (None, "Processing failed: " +:+ exn_text e))).
Proof.
  split.
  - intros tr msg Hv. unfold SubtitleProcessor.process_subtitle_file. rewrite Hv. reflexivity.
  - intros tr1 msg tr2 encoding tr3 text f Hv Hd Ht Hf.
    unfold SubtitleProcessor.process_subtitle_file. rewrite Hv. cbn [bind negb].
    rewrite Hd. cbn [bind]. rewrite Ht. cbn [bind]. rewrite Hf. cbn [call bind ret].
    split.
    + intros ->. reflexivity.
    + intros e Hn He.
      destruct (Nat.eqb_spec (SubtitleProcessor.entries f) 0); [contradiction|].
      rewrite He. reflexivity.
Qed.

(** [process_subtitle_file] returns a text exactly with "Success". *)
Lemma process_success_only_with_text self content target_format tr v :
  SubtitleProcessor.process_subtitle_file self content target_format
    = (tr, Return (v, "Success")) ->
  v <> None.
Proof.
  unfold SubtitleProcessor.process_subtitle_file.
  destruct (validate_returns self content) as [tr0 [b [msg [Hv Hmsg]]]].
  rewrite Hv. cbn [bind]. destruct b; cbn [negb].
  2:{ pose proof (validate_message _ _ _ _ Hv) as Hneq. cbn.
      intros E. inversion E. subst. contradiction. }
  destruct (detect_encoding_returns self content) as [tr1 [enc ->]].
  cbn [bind].
  destruct (SubtitleProcessor.decode_detected enc content) as [tr2 [text|e|]].
  2:{ cbn. intros E. inversion E as [[E1 E2 E3]]; try (rewrite append_cons in E3; discriminate). }
  2:{ cbn. discriminate. }
  cbn [bind].
  destruct (SubtitleProcessor.from_string _) as [subtitles|e]; cbn [call bind ret raise].
  2:{ cbn. intros E. inversion E as [[E1 E2 E3]]; try (rewrite append_cons in E3; discriminate). }
  destruct (_ =? _)%nat.
  { cbn. intros E. inversion E. }
  destruct (SubtitleProcessor.to_string _ _) as [output|e]; cbn.
  - intros E. inversion E. discriminate.
  - intros E. inversion E as [[E1 E2 E3]]; try (rewrite append_cons in E3; discriminate).
Qed.

End Boundary.

(** C9 (as amended). None of the four operations raises.
    [process_subtitle_file] returns a text together with "Success", or
    [None] together with a message that is neither empty nor "Success":
    the validation message, "No subtitle entries found", or "Processing
    failed: " and the text of the exception of the parse or conversion
    that failed. [convert_format], [sync_subtitles] and
    [merge_subtitle_files] return the text whenever every library call
    succeeds, and [None] whenever one fails; the reason of a [None] is
    the one line written to the log and is not part of what they
    return. *)
Theorem C9_processor_boundary `{L : SubtitleProcessor.Libraries} :
  (forall self content target_format,
      exists tr v msg,
        SubtitleProcessor.process_subtitle_file self content target_format
          = (tr, Return (v, msg)) /\
        msg <> "" /\ (v <> None <-> msg = "Success")) /\
  (forall content source_format target_format,
      text_or_logged (SubtitleProcessor.convert_format content source_format target_format)) /\
  (forall content offset_ms,
      text_or_logged (SubtitleProcessor.sync_subtitles content offset_ms)) /\
  (forall subtitle_contents,
      text_or_logged (SubtitleProcessor.merge_subtitle_files subtitle_contents)) /\
  (forall content source_format target_format f out,
      SubtitleProcessor.from_string content = Ok f ->
      SubtitleProcessor.to_string f (SubtitleProcessor.converted_format target_format) = Ok out ->
      SubtitleProcessor.convert_format content source_format target_format
        = ([], Return (Some out))) /\
  (forall self content target_format tr1 msg tr2 encoding tr3 text,
      SubtitleProcessor.validate_subtitle_file self content = (tr1, Return (true, msg)) ->
      SubtitleProcessor.detect_encoding self content = (tr2, Return encoding) ->
      SubtitleProcessor.decode_detected encoding content = (tr3, Return text) ->
      match SubtitleProcessor.from_string (SubtitleProcessor.clean_subtitle_content text) with
      | Fail e =>
          ending (SubtitleProcessor.process_subtitle_file self content target_format)
            = Return (None, "Processing failed: " +:+ exn_text e)
      | Ok f =>
          forall out,
            SubtitleProcessor.entries f <> 0%nat ->
            SubtitleProcessor.to_string f (SubtitleProcessor.output_format target_format)
              = Ok out ->
            ending (SubtitleProcessor.process_subtitle_file self content target_format)
              = Return (Some (SubtitleProcessor.clean_subtitle_content out), "Success")
      end) /\
  (forall content source_format target_format,
      at_boundary "Format conversion error: " (conversion content target_format)
        (SubtitleProcessor.convert_format content source_format target_format)) /\
  (forall content offset_ms,
      at_boundary "Sync error: " (shifting content offset_ms)
        (SubtitleProcessor.sync_subtitles content offset_ms)) /\
  (forall subtitle_contents,
      at_boundary "Merge error: " (merging subtitle_contents)
        (SubtitleProcessor.merge_subtitle_files subtitle_contents)) /\
  (forall self content target_format tr msg,
      SubtitleProcessor.validate_subtitle_file self content = (tr, Return (false, msg)) ->
      ending (SubtitleProcessor.process_subtitle_file self content target_format)
        = Return (None, msg)) /\
  (forall self content target_format tr1 msg tr2 encoding tr3 text f,
      SubtitleProcessor.validate_subtitle_file self content = (tr1, Return (true, msg)) ->
      SubtitleProcessor.detect_encoding self content = (tr2, Return encoding) ->
      SubtitleProcessor.decode_detected encoding content = (tr3, Return text) ->
      SubtitleProcessor.from_string (SubtitleProcessor.clean_subtitle_content text) = Ok f ->
      (SubtitleProcessor.entries f = 0%nat ->
       ending (SubtitleProcessor.process_subtitle_file self content target_format)
         = Return (None, "No subtitle entries found")) /\
      (forall e,
          SubtitleProcessor.entries f <> 0%nat ->
          SubtitleProcessor.to_string f (SubtitleProcessor.output_format target_format)
            = Fail e ->
          ending (SubtitleProcessor.process_subtitle_file self content target_format)
            = Return (None, "Processing failed: " +:+ exn_text e))).
Proof.
  split.
  { intros self content target_format.
    destruct (process_returns self content target_format) as (tr & v & msg & E & Hmsg & Hv).
    exists tr, v, msg. split; [exact E|]. split; [exact Hmsg|].
    split; [exact Hv|]. intros ->.
    exact (process_success_only_with_text self content target_format tr v E). }
  split; [apply convert_format_boundary|].
  split; [apply sync_subtitles_boundary|].
  split; [apply merge_subtitle_files_boundary|].
  split.
  { intros content source_format target_format f out Hf Hout.
    unfold SubtitleProcessor.convert_format. rewrite Hf. cbn. now rewrite Hout. }
  split.
  { intros self content target_format tr1 msg tr2 encoding tr3 text Hv Hd Ht.
    unfold SubtitleProcessor.process_subtitle_file. rewrite Hv. cbn [bind negb].
    rewrite Hd. cbn [bind]. rewrite Ht. cbn [bind].
    destruct (SubtitleProcessor.from_string _) as [f|e]; [|reflexivity].
    intros out Hn Hout. cbn [call bind ret].
    destruct (Nat.eqb_spec (SubtitleProcessor.entries f) 0); [contradiction|].
    rewrite Hout. reflexivity. }
  split; [apply convert_format_at_boundary|].
  split; [apply sync_subtitles_at_boundary|].
  split; [apply merge_subtitle_files_at_boundary|].
  split.
  - intros self content target_format. apply process_cases.
  - intros self content target_format. apply process_cases.
Qed.

(** C9, the claim as stated, refuted: two conversions fail for different
    reasons and return the same value, [None]. *)
Lemma C9_convert_format_returns_no_reason : ~ convert_format_returns_reason.
Proof.
  intros [reason_of H].
  destruct (H (failing_with (Exception "ValueError" "bad timestamp")) "x" "srt" "vtt"
              (Exception "ValueError" "bad timestamp") eq_refl) as [v1 [E1 R1]].
  destruct (H (failing_with (Exception "ValueError" "no cues")) "x" "srt" "vtt"
              (Exception "ValueError" "no cues") eq_refl) as [v2 [E2 R2]].
  cbn in E1, E2. inversion E1. inversion E2. subst.
  rewrite R1 in R2. discriminate.
Qed.

(** ** Content processor: what the patterns match *)

Lemma append_assoc (a b c : string) : (a +:+ b) +:+ c = a +:+ b +:+ c.
Proof. induction a as [|x a IH]; [reflexivity|]. rewrite !append_cons. now rewrite IH. Qed.

Lemma append_empty (a b : string) : a +:+ b = "" -> a = "" /\ b = "".
Proof. destruct a; [now split | rewrite append_cons; discriminate]. Qed.

Lemma star_spec (k : string -> bool) (cls : ascii -> bool) (s : string) :
  SubtitleProcessor.star k cls s = true <->
  exists u rest, s = u +:+ rest /\ all_in cls u = true /\ k rest = true.
Proof.
  induction s as [|c s IH]; cbn [SubtitleProcessor.star].
  - rewrite orb_false_r. split.
    + intros H. exists "", "". auto.
    + intros (u & rest & Hs & _ & Hk). symmetry in Hs.
      apply append_empty in Hs as [_ ->]. exact Hk.
  - rewrite orb_true_iff, andb_true_iff, IH. split.
    + intros [Hk | [Hc (u & rest & -> & Hu & Hk)]].
      * exists "", (String c s). auto.
      * exists (String c u), rest. rewrite append_cons. cbn [all_in]. rewrite Hc, Hu. auto.
    + intros (u & rest & Hs & Hu & Hk). destruct u as [|c' u].
      * left. rewrite append_nil in Hs. now subst rest.
      * right. rewrite append_cons in Hs. inversion Hs; subst.
        cbn [all_in] in Hu. apply andb_true_iff in Hu as [Hc Hu].
        split; [exact Hc|]. exists u, rest. auto.
Qed.

Lemma match_here_spec (p : SubtitleProcessor.pattern) : forall s,
  SubtitleProcessor.match_here p s = true <->
  exists w rest, s = w +:+ rest /\ matches p w.
Proof.
  induction p as [|a p IH]; intros s; cbn [SubtitleProcessor.match_here].
  - split; [intros _; exists "", s; split; [reflexivity | constructor]|reflexivity].
  - destruct (SubtitleProcessor.repeats a) eqn:Hq.
    + destruct s as [|c s].
      * split; [discriminate|]. intros (w & rest & Hs & Hm).
        inversion Hm; subst; try congruence. rewrite append_cons in Hs. discriminate.
      * rewrite andb_true_iff, IH. split.
        -- intros [Hc (w & rest & -> & Hm)]. exists (String c w), rest.
           split; [reflexivity | now constructor].
        -- intros (w & rest & Hs & Hm). inversion Hm; subst; try congruence.
           rewrite append_cons in Hs. inversion Hs; subst. split; [assumption|].
           eexists _, _. split; [reflexivity | eassumption].
    + rewrite star_spec. split.
      * intros (u & rest & -> & Hu & Hk). apply IH in Hk as (w & rest' & -> & Hm).
        exists (u +:+ w), rest'. rewrite append_assoc. split; [reflexivity|].
        now apply matches_star.
      * intros (w & rest & -> & Hm). inversion Hm; subst; try congruence.
        eexists _, _. rewrite append_assoc. split; [reflexivity|]. split; [assumption|].
        apply IH. eexists _, _. split; [reflexivity | eassumption].
    + destruct s as [|c s].
      * split; [discriminate|]. intros (w & rest & Hs & Hm).
        inversion Hm; subst; try congruence. rewrite append_cons in Hs. discriminate.
      * rewrite andb_true_iff, star_spec. split.
        -- intros [Hc (u & rest & -> & Hu & Hk)]. apply IH in Hk as (w & rest' & -> & Hm).
           exists (String c (u +:+ w)), rest'. rewrite append_cons, append_assoc.
           split; [reflexivity|]. now apply matches_plus.
        -- intros (w & rest & Hs & Hm). inversion Hm; subst; try congruence.
           rewrite append_cons, append_assoc in Hs. inversion Hs; subst.
           split; [assumption|]. eexists _, _. split; [reflexivity|]. split; [assumption|].
           apply IH. eexists _, _. split; [reflexivity | eassumption].
Qed.

Lemma search_spec (p : SubtitleProcessor.pattern) (s : string) :
  SubtitleProcessor.search p s = true <-> occurs p s.
Proof.
  unfold occurs. induction s as [|c s IH]; cbn [SubtitleProcessor.search].
  - rewrite orb_false_r, match_here_spec. split.
    + intros (w & rest & Hs & Hm). exists "", w, rest. auto.
    + intros (pre & w & post & Hs & Hm). symmetry in Hs.
      apply append_empty in Hs as [-> Hs]. exists w, post. auto.
  - rewrite orb_true_iff, match_here_spec, IH. split.
    + intros [(w & rest & Hs & Hm) | (pre & w & post & -> & Hm)].
      * exists "", w, rest. auto.
      * exists (String c pre), w, post. rewrite append_cons. auto.
    + intros (pre & w & post & Hs & Hm). destruct pre as [|c' pre].
      * left. exists w, post. auto.
      * right. rewrite append_cons in Hs. inversion Hs; subst.
        exists pre, w, post. auto.
Qed.

(** *** Counting matches of a fixed-length pattern *)

Lemma matches_length p w :
  all_once p -> matches p w -> String.length w = length p.
Proof.
  intros Hp Hm. induction Hm as [|a p c w Hq Hc Hm IH| |]; [reflexivity | | |];
    inversion Hp; subst; try congruence.
  cbn. now rewrite IH.
Qed.

Lemma drop_chars_append (w rest : string) : drop_chars (String.length w) (w +:+ rest) = rest.
Proof. induction w as [|c w IH]; [now destruct rest | exact IH]. Qed.

Lemma count_matches_skip p s : forall skip,
  SubtitleProcessor.count_matches p s skip
  = SubtitleProcessor.count_matches p (drop_chars skip s) 0.
Proof.
  induction s as [|c s IH]; intros [|k]; try reflexivity.
  cbn [SubtitleProcessor.count_matches drop_chars]. apply IH.
Qed.

Lemma occurrences_prefix p x s k : occurrences p s k -> occurrences p (x +:+ s) k.
Proof.
  intros [s'|pre w rest k' Hm Hk]; [constructor|].
  rewrite <- append_assoc. now constructor.
Qed.

(** If [w ++ rest = u ++ rest'] and [w] is no longer than [u], then
    [rest'] is a suffix of [rest]. *)
Lemma append_suffix (w : string) : forall u rest rest',
  w +:+ rest = u +:+ rest' ->
  (String.length w <= String.length u)%nat ->
  exists x, rest = x +:+ rest'.
Proof.
  induction w as [|c w IH]; intros u rest rest' E Hlen.
  - exists u. exact E.
  - destruct u as [|c' u]; [cbn in Hlen; lia|].
    rewrite !append_cons in E. inversion E; subst.
    eapply IH; [eassumption | cbn in Hlen; lia].
Qed.

Lemma length_append (a b : string) :
  String.length (a +:+ b) = (String.length a + String.length b)%nat.
Proof. induction a as [|c a IH]; [reflexivity|]. rewrite append_cons. cbn. now rewrite IH. Qed.

(** Taking matches greedily from the left finds as many as can be placed
    one after the other. *)
Lemma count_matches_spec p :
  all_once p -> p <> [] ->
  forall n s k,
    (String.length s <= n)%nat ->
    (k <= SubtitleProcessor.count_matches p s 0)%nat <-> occurrences p s k.
Proof.
  intros Hp Hne.
  assert (Hpos : (1 <= length p)%nat) by (destruct p; [contradiction | cbn; lia]).
  induction n as [|n IH]; intros s k Hlen.
  - destruct s; [|cbn in Hlen; lia]. cbn. split.
    + intros H. replace k with 0%nat by lia. constructor.
    + intros H. inversion H as [|pre w rest k' Hm Hk E]; subst; [lia|].
      apply append_empty in E as [_ E]. apply append_empty in E as [-> _].
      apply (matches_length _ _ Hp) in Hm. cbn in Hm. lia.
  - destruct s as [|c s]; [apply IH; cbn; lia|].
    cbn [SubtitleProcessor.count_matches].
    destruct (SubtitleProcessor.match_here p (String c s)) eqn:Hhere.
    + apply match_here_spec in Hhere as (w & rest & Hs & Hm).
      pose proof (matches_length _ _ Hp Hm) as Hw.
      destruct w as [|c' w]; [cbn in Hw; lia|].
      rewrite append_cons in Hs. inversion Hs; subst c' s. cbn in Hw.
      rewrite count_matches_skip.
      replace (length p - 1)%nat with (String.length w) by lia.
      rewrite drop_chars_append.
      assert (Hrest : (String.length rest <= n)%nat).
      { cbn in Hlen. rewrite length_append in Hlen. lia. }
      split.
      * intros Hk. destruct k as [|k]; [constructor|].
        rewrite <- append_cons. apply (occurrences_more p "" (String c w) rest k Hm).
        apply (IH rest k Hrest). lia.
      * intros Hk. destruct k as [|k]; [lia|].
        inversion Hk as [|pre w1 rest1 k' Hm1 Hk1 E]; subst.
        apply le_n_S. apply (IH rest k Hrest).
        pose proof (matches_length _ _ Hp Hm1) as Hw1.
        rewrite <- append_cons, <- append_assoc in E.
        symmetry in E. apply append_suffix in E as [x ->].
        -- now apply occurrences_prefix.
        -- rewrite length_append. cbn. lia.
    + split.
      * intros Hk. change (String c s) with (String c "" +:+ s).
        apply occurrences_prefix. apply (IH s k); [cbn in Hlen; lia | exact Hk].
      * intros Hk. destruct k as [|k]; [lia|].
        inversion Hk as [|pre w1 rest1 k' Hm1 Hk1 E]; subst.
        destruct pre as [|c' pre].
        -- exfalso. rewrite append_nil in E.
           assert (SubtitleProcessor.match_here p (String c s) = true) as Habs
             by (apply match_here_spec; exists w1, rest1; auto).
           congruence.
        -- rewrite append_cons in E. inversion E; subst.
           apply (IH _ (S k)); [cbn in Hlen; lia|]. now constructor.
Qed.

Lemma findall_count_spec p s k :
  all_once p -> p <> [] ->
  (k <= SubtitleProcessor.findall_count p s)%nat <-> occurrences p s k.
Proof.
  intros Hp Hne. unfold SubtitleProcessor.findall_count.
  now apply (count_matches_spec p Hp Hne (String.length s)).
Qed.

(** ** Content processor: validation *)

Lemma time_pattern_fixed :
  all_once SubtitleProcessor.time_pattern /\ SubtitleProcessor.time_pattern <> [].
Proof. split; [repeat constructor | discriminate]. Qed.

Lemma is_valid_subtitle_format_spec (text : string) :
  SubtitleProcessor._is_valid_subtitle_format text = true <-> looks_like_subtitles text.
Proof.
  unfold SubtitleProcessor._is_valid_subtitle_format, looks_like_subtitles.
  destruct time_pattern_fixed as [Hp Hne].
  rewrite <- search_spec, <- !contains_spec,
    <- (findall_count_spec SubtitleProcessor.time_pattern text 3 Hp Hne).
  destruct (SubtitleProcessor.search _ text); [tauto|].
  destruct (contains "WEBVTT" _); [tauto|].
  destruct (contains "[Script Info]" text); [cbn; tauto|].
  destruct (contains "[V4+ Styles]" text); [cbn; tauto|].
  cbn [orb].
  destruct (Nat.ltb_spec 2 (SubtitleProcessor.findall_count SubtitleProcessor.time_pattern text)).
  - split; [intros _; right; right; right; lia | reflexivity].
  - split; [discriminate|].
    intros [H'|[H'|[[H'|H']|H']]]; try discriminate. lia.
Qed.

(** C8. Validation always returns a verdict. The verdict is a failure for
    empty input and for input longer than the configured maximum; for any
    other input it is a success exactly when the input decodes to a text
    that shows one of the four marks. *)
Theorem C8_validate_subtitle_file `{L : SubtitleProcessor.Libraries}
    (self : SubtitleProcessor.t) (content : string) :
  exists tr ok msg,
    SubtitleProcessor.validate_subtitle_file self content = (tr, Return (ok, msg)) /\
    (String.length content = 0%nat -> ok = false) /\
    (SubtitleProcessor.max_file_size self < Z.of_nat (String.length content) -> ok = false) /\
    (0 < Z.of_nat (String.length content) <= SubtitleProcessor.max_file_size self ->
     (ok = true <->
      exists text, ending (decoded self content) = Return text /\ looks_like_subtitles text)).
Proof.
  unfold SubtitleProcessor.validate_subtitle_file, decoded.
  destruct (Z.ltb_spec (SubtitleProcessor.max_file_size self) (Z.of_nat (String.length content)))
    as [Hbig|Hfit].
  { eexists _, _, _. split; [reflexivity|]. repeat split; auto; lia. }
  destruct (Z.eqb_spec (Z.of_nat (String.length content)) 0) as [Hzero|Hsome].
  { eexists _, _, _. split; [reflexivity|]. repeat split; auto; lia. }
  destruct (detect_encoding_returns self content) as [tr [enc ->]]. cbn [bind].
  pose proof (no_hang_decode_detected enc content) as Hd.
  destruct (SubtitleProcessor.decode_detected enc content) as [tr' [text|e|]];
    [| |exfalso; now apply Hd]; cbn [bind].
  - destruct (SubtitleProcessor._is_valid_subtitle_format text) eqn:Hvalid; cbn;
      eexists _, _, _; (split; [reflexivity|]);
      (split; [lia|]); (split; [lia|]); intros _.
    + split; [|reflexivity]. intros _. exists text. split; [reflexivity|].
      now apply is_valid_subtitle_format_spec.
    + split; [discriminate|]. intros (text' & E & Hlooks). inversion E; subst.
      apply is_valid_subtitle_format_spec in Hlooks. congruence.
  - cbn. eexists _, _, _. split; [reflexivity|].
    split; [lia|]. split; [lia|]. intros _.
    split; [discriminate|]. intros (text' & E & _). discriminate.
Qed.

(** ** The theorems at concrete inputs *)

Lemma C1_quality_score_at_sample_hits :
  scored_by_formula bluray_result /\
  sr_quality_score
    (mk_result (Val "9f8e") (Val "en") 0 Absent Absent Absent "srt" "subdb" 50) = 50 /\
  OpenSubtitlesAPI._calculate_quality_score
    {| OpenSubtitlesAPI.language := Val "en";
       OpenSubtitlesAPI.download_count := Val 500;
       OpenSubtitlesAPI.release := Val "Inception.2010.BluRay.x264";
       OpenSubtitlesAPI.files := Absent;
       OpenSubtitlesAPI.url := Absent |} = ([], Return 5100) /\
  OpenSubtitlesAPI._calculate_quality_score
    {| OpenSubtitlesAPI.language := Val "en";
       OpenSubtitlesAPI.download_count := Val 0;
       OpenSubtitlesAPI.release := Val "";
       OpenSubtitlesAPI.files := Absent;
       OpenSubtitlesAPI.url := Absent |} = ([], Return 0).
Proof.
  destruct C1_quality_score as (Hos & Hsubdb & Hblu & Hzero).
  split; [|split; [|split]].
  - eapply (Hos logged_in (search_answers 200 [bluray_hit]) 0 None "en" (Some "Inception"));
      [vm_compute; reflexivity | left; reflexivity].
  - eapply (Hsubdb (subdb_lists "fr,en") "9f8e" "en");
      [vm_compute; reflexivity | left; reflexivity].
  - apply (Hblu _ "Inception.2010.BluRay.x264"); [reflexivity | reflexivity |].
    exists "Inception.2010.", ".x264". reflexivity.
  - apply (Hzero _ ""); [reflexivity | reflexivity |].
    intros [term [Hin Hsub]]. apply contains_spec in Hsub.
    cbn in Hin. destruct Hin as [<-|[<-|[<-|[]]]]; discriminate.
Defined.

Lemma C4_second_call_in_the_window_hangs :
  exists d st,
    0 < d /\
    RateLimiter.call (snd (acquire_all (RateLimiter.init 1 60) [0])) (seconds 1)
      = (([EvSleep d], Hang), st) /\
    RateLimiter.lock_held st = true.
Proof.
  apply (proj2 (proj2 C4_acquire_at_capacity_never_returns) (RateLimiter.init 1 60) [0]
           (seconds 1)); try reflexivity.
  intros t t' Ht Ht'. apply list_elem_of_singleton in Ht. subst t.
  apply elem_of_cons in Ht' as [->|Ht']; [reflexivity|].
  apply list_elem_of_singleton in Ht'. subst t'. reflexivity.
Defined.

(** Evaluated: the second call sleeps 59 s and is then parked for good. *)
Example second_call_hangs :
  RateLimiter.acquire 2 (RateLimiter.mk 1 60 [0] false) (seconds 1)
  = Some (([EvSleep (seconds 59)], Hang), RateLimiter.mk 1 60 [0] true).
Proof. reflexivity. Qed.



Lemma C6_two_failures_then_success :
  (ending (fst (SubtitleAPIManager._retry_operation configured third_time_lucky 0%nat))
     = Return 7 /\
   slept (fst (SubtitleAPIManager._retry_operation configured third_time_lucky 0%nat))
     = [seconds 1; seconds 2]) /\
  (ending (fst (SubtitleAPIManager._retry_operation configured never_lucky 0%nat))
     = Raise (Exception "TimeoutError" "third timeout") /\
   slept (fst (SubtitleAPIManager._retry_operation configured never_lucky 0%nat))
     = [seconds 1; seconds 2]).
Proof.
  split.
  - apply (proj1 (C6_retry_operation configured third_time_lucky 0%nat) 2%nat).
    + cbn. lia.
    + intros j Hj. exists timeout.
      destruct j as [|[|j]]; [reflexivity | reflexivity | lia].
    + intros [e He]. discriminate.
  - apply (proj2 (C6_retry_operation configured never_lucky 0%nat)).
    + cbn. lia.
    + intros j Hj. eexists. reflexivity.
Defined.

Lemma C2_two_upserts_a_minute_apart :
  records_for "tt1375666" "en"
    (SubtitleStorage.subtitles_metadata (SubtitleStorage.db stored_twice)) = 1%nat /\
  option_map SubtitleStorage.created_at (record_of "tt1375666" "en" stored_twice)
    = Some (seconds 160).
Proof.
  destruct (C2_upsert_twice (SubtitleStorage.init empty_server) (seconds 100) (seconds 160)
              "tt1375666" "en" bluray_result
              (fst (fst (SubtitleStorage.store_subtitle_metadata
                           (SubtitleStorage.init empty_server)
                           (seconds 100) "tt1375666" "en" bluray_result)))
              stored_once
              (fst (fst (SubtitleStorage.store_subtitle_metadata stored_once
                           (seconds 160) "tt1375666" "en" bluray_result)))
              stored_twice)
    as (Hone & Hrec & _ & _).
  - cbn. lia.
  - reflexivity.
  - reflexivity.
  - split; [exact Hone|]. rewrite Hrec. reflexivity.
Defined.

(** C2, the claim as stated, refuted: upserting at 100 s and again at 160 s
    leaves one record, created at 160 s. *)
Lemma C2_second_upsert_resets_created_at :
  option_map SubtitleStorage.created_at (record_of "tt1375666" "en" stored_once)
    = Some (seconds 100) /\
  option_map SubtitleStorage.created_at (record_of "tt1375666" "en" stored_twice)
    = Some (seconds 160) /\
  ~ upsert_keeps_created_at.
Proof.
  split; [reflexivity|]. split; [reflexivity|].
  intros H.
  specialize (H (SubtitleStorage.init empty_server) (seconds 100) (seconds 160)
                "tt1375666" "en" bluray_result _ stored_once _ stored_twice
                _ _ eq_refl eq_refl eq_refl eq_refl).
  vm_compute in H. discriminate.
Qed.

Lemma C7_content_served_with_cache_down :
  ending (fst (SubtitleDatabase.get_subtitle_content (H := transparent) degraded
                 empty_server redis_down (seconds 120) "tt1375666" "en"))
    = Return (Some one_cue) /\
  ending (fst (SubtitleDatabase.get_subtitle_content (H := transparent) SubtitleDatabase.init
                 (SubtitleStorage.db with_blob) redis_down (seconds 120) "tt1375666" "en"))
    = Return (Some one_cue).
Proof.
  destruct (C7_cache_unavailable_degrades (H := transparent)) as (Hready & Hfresh & Hblob).
  assert (Htext : stored_text (H := transparent) with_blob "tt1375666" "en" = Some one_cue).
  { eapply (Hblob stored_once (seconds 110) "tt1375666" "en" one_cue true). reflexivity. }
  split.
  - rewrite (Hready degraded with_blob
               (CacheManager.set_redis_client (Some redis_down) CacheManager.init)
               empty_server redis_down (seconds 120) "tt1375666" "en"
               eq_refl eq_refl eq_refl eq_refl).
    rewrite Htext. reflexivity.
  - rewrite (Hfresh SubtitleDatabase.init (SubtitleStorage.db with_blob) redis_down
               (seconds 120) "tt1375666" "en" eq_refl eq_refl eq_refl).
    reflexivity.
Defined.

Lemma C8_webvtt_sample_is_valid :
  exists text,
    ending (decoded (H := plain_text) SubtitleProcessor.init webvtt_sample) = Return text /\
    looks_like_subtitles text.
Proof.
  destruct (C8_validate_subtitle_file (L := plain_text) SubtitleProcessor.init webvtt_sample)
    as (tr & ok & msg & Hrun & _ & _ & Hiff).
  vm_compute in Hrun. inversion Hrun; subst.
  apply Hiff; [|reflexivity]. vm_compute. split; [reflexivity | discriminate].
Defined.

Lemma C9_conversion_of_the_sample :
  SubtitleProcessor.convert_format (H := plain_text) webvtt_sample "vtt" "srt"
    = ([], Return (Some webvtt_sample)) /\
  ending (SubtitleProcessor.process_subtitle_file (H := plain_text) SubtitleProcessor.init
            webvtt_sample "srt")
    = Return (Some webvtt_sample, "Success") /\
  SubtitleProcessor.convert_format (H := plain_text) "" "vtt" "srt"
    = ([EvLog Error' "Format conversion error: no format"], Return None) /\
  SubtitleProcessor.sync_subtitles (H := plain_text) webvtt_sample (Ok 1500)
    = ([], Return (Some webvtt_sample)) /\
  SubtitleProcessor.sync_subtitles (H := plain_text) webvtt_sample
      (Fail (Exception "OverflowError" "cannot convert float infinity to integer"))
    = ([EvLog Error' "Sync error: cannot convert float infinity to integer"], Return None) /\
  SubtitleProcessor.merge_subtitle_files (H := plain_text) [webvtt_sample; ""]
    = ([EvLog Error' "Merge error: no format"], Return None) /\
  ending (SubtitleProcessor.process_subtitle_file (H := plain_text) SubtitleProcessor.init
            "" "srt")
    = Return (None, "Empty subtitle file").
Proof.
  destruct (C9_processor_boundary (L := plain_text))
    as (_ & _ & _ & _ & Hconvert & Hprocess & Hconv & Hsync & Hmerge & Hinvalid & _).
  split.
  { apply (Hconvert webvtt_sample "vtt" "srt" webvtt_sample webvtt_sample); reflexivity. }
  split.
  { specialize (Hprocess SubtitleProcessor.init webvtt_sample "srt"
                  (fst (SubtitleProcessor.validate_subtitle_file (H := plain_text)
                          SubtitleProcessor.init webvtt_sample))
                  "Valid subtitle file"
                  (fst (SubtitleProcessor.detect_encoding (H := plain_text)
                          SubtitleProcessor.init webvtt_sample))
                  (Some "utf-8") [] webvtt_sample).
    cbv beta iota in Hprocess.
    apply (Hprocess ltac:(vm_compute; reflexivity) ltac:(vm_compute; reflexivity)
             ltac:(vm_compute; reflexivity) webvtt_sample);
      [discriminate | reflexivity]. }
  split.
  { apply (proj2 (Hconv "" "vtt" "srt")
             (Exception "FormatAutodetectionError" "no format")). reflexivity. }
  split.
  { apply (proj1 (Hsync webvtt_sample (Ok 1500)) webvtt_sample). reflexivity. }
  split.
  { apply (proj2 (Hsync webvtt_sample
                    (Fail (Exception "OverflowError"
                             "cannot convert float infinity to integer")))
             (Exception "OverflowError" "cannot convert float infinity to integer")).
    reflexivity. }
  split.
  { apply (proj2 (Hmerge [webvtt_sample; ""])
             (Exception "FormatAutodetectionError" "no format")). reflexivity. }
  apply (Hinvalid SubtitleProcessor.init "" "srt" []). reflexivity.
Defined.

Lemma C10_refresh_drops_the_cache_marker :
  option_map SubtitleStorage.cached_content (record_of "tt1375666" "en" with_blob)
    = Some true /\
  exists d,
    record_of "tt1375666" "en"
      (snd (SubtitleStorage.store_subtitle_metadata with_blob (seconds 160)
              "tt1375666" "en" bluray_result)) = Some d /\
    SubtitleStorage.cached_content d = false /\
    SubtitleStorage.gridfs_file_id d = None /\
    SubtitleStorage.fs
      (SubtitleStorage.db
         (snd (SubtitleStorage.store_subtitle_metadata with_blob (seconds 160)
                 "tt1375666" "en" bluray_result)))
    = SubtitleStorage.fs (SubtitleStorage.db with_blob) /\
    length (SubtitleStorage.fs (SubtitleStorage.db with_blob)) = 1%nat.
Proof.
  split; [reflexivity|].
  destruct (C10_upsert_writes_fresh_record with_blob (seconds 160) "tt1375666" "en"
              bluray_result
              (fst (fst (SubtitleStorage.store_subtitle_metadata with_blob (seconds 160)
                           "tt1375666" "en" bluray_result)))
              (snd (SubtitleStorage.store_subtitle_metadata with_blob (seconds 160)
                      "tt1375666" "en" bluray_result))
              eq_refl)
    as (d & Hrec & _ & Hcached & Hfile & _ & _ & Hfs).
  exists d. repeat split; assumption || reflexivity.
Defined.

(** The specification's scenario: the hit with 1200 downloads and release
    "BluRay" comes first with score 12100, the one with 5 downloads and
    release "CAM" second with score 50. *)
Example inception_scenario :
  match ending (fst (SubtitleAPIManager.search_subtitles configured
                       (always (search_answers 200
                                  [ hit "2" "en" 5 "CAM" "cam.srt";
                                    hit "1" "en" 1200 "BluRay" "bluray.srt" ]))
                       "Inception" None "en" None)) with
  | Return out => map (fun r => (sr_release r, sr_quality_score r)) out
  | _ => []
  end = [ (Val "BluRay", 12100); (Val "CAM", 50) ].
Proof. vm_compute. reflexivity. Qed.

(** A provider call that raises is retried by the manager: with a limiter
    of capacity 0 every [acquire()] raises [IndexError]; the search is
    attempted three times, 1 s and 2 s apart, and the manager then returns
    what it has, the empty list. *)
Example raising_search_is_retried :
  let manager :=
    SubtitleAPIManager.mk
      (Some (OpenSubtitlesAPI.mk (Some "key") (Some "user") (Some "secret") (Some "token")
               None (RateLimiter.init 0 60))) 3 1 in
  let m := fst (SubtitleAPIManager.search_subtitles manager (always (search_answers 200 []))
                  "Inception" None "en" None) in
  slept m = [seconds 1; seconds 2] /\ ending m = Return [].
Proof. vm_compute. split; reflexivity. Qed.

(** * Further properties *)

(** ** Rate limiter: the window as a whole *)

Lemma in_flight_inside self now :
  in_flight self now = inside (RateLimiter.time_window self) now (RateLimiter.calls self).
Proof.
  unfold in_flight, inside, RateLimiter.in_window.
  induction (RateLimiter.calls self) as [|c l IH]; [reflexivity|].
  destruct (Z.ltb_spec (now - c) (seconds (RateLimiter.time_window self))) as [H|H].
  - rewrite !filter_cons_True by (assumption || now apply Z.ltb_lt). now rewrite IH.
  - rewrite !filter_cons_False; [exact IH | lia | rewrite (proj2 (Z.ltb_ge _ _) H); discriminate].
Qed.

Lemma inside_app w now l1 l2 : inside w now (l1 ++ l2) = inside w now l1 ++ inside w now l2.
Proof. apply filter_app. Qed.

Lemma inside_later w t now l : t <= now -> inside w now (inside w t l) = inside w now l.
Proof.
  intros Hle. unfold inside. induction l as [|c l IH]; [reflexivity|].
  destruct (decide (t - c < seconds w)) as [Ht|Ht].
  - rewrite (filter_cons_True _ c l) by exact Ht.
    destruct (decide (now - c < seconds w)) as [Hn|Hn].
    + rewrite !filter_cons_True by assumption. now rewrite IH.
    + rewrite !filter_cons_False by assumption. exact IH.
  - rewrite (filter_cons_False _ c l) by exact Ht.
    rewrite filter_cons_False by lia. exact IH.
Qed.

Lemma acquire_all_parked times : forall self,
  RateLimiter.lock_held self = true ->
  let_through (fst (acquire_all self times)) times = [].
Proof.
  induction times as [|t later IH]; intros self Hlock; [reflexivity|].
  cbn [acquire_all]. unfold RateLimiter.call.
  rewrite acquire_parked by exact Hlock.
  specialize (IH self Hlock).
  destruct (acquire_all self later) as [ms self2]. cbn in *. exact IH.
Qed.

(** What one call does to a limiter whose lock is free: it is let through and
    recorded, or it does not return and records nothing. *)
Lemma call_cases (self : RateLimiter.t) (now : Z) :
  RateLimiter.lock_held self = false ->
  exists tr o self',
    RateLimiter.call self now = ((tr, o), self') /\
    RateLimiter.max_calls self' = RateLimiter.max_calls self /\
    RateLimiter.time_window self' = RateLimiter.time_window self /\
    ((Z.of_nat (length (in_flight self now)) < RateLimiter.max_calls self /\
      o = Return tt /\ RateLimiter.calls self' = in_flight self now ++ [now]) \/
     ((forall u, o <> Return u) /\ RateLimiter.calls self' = in_flight self now)).
Proof.
  intros Hlock.
  destruct (Z_lt_le_dec (Z.of_nat (length (in_flight self now))) (RateLimiter.max_calls self))
    as [Hlt|Hge].
  { rewrite call_under_capacity by assumption.
    eexists _, _, _. split; [reflexivity|]. split; [reflexivity|]. split; [reflexivity|].
    left. repeat split. exact Hlt. }
  unfold RateLimiter.call. cbn [RateLimiter.acquire]. rewrite Hlock.
  fold (in_flight self now).
  cbn [RateLimiter.set_calls RateLimiter.set_lock RateLimiter.lock_held
       RateLimiter.max_calls RateLimiter.time_window RateLimiter.calls].
  destruct (Z.geb_spec (Z.of_nat (length (in_flight self now))) (RateLimiter.max_calls self));
    [|lia].
  destruct (in_flight self now) as [|c0 rest] eqn:Hkept.
  - eexists _, _, _. split; [reflexivity|]. split; [reflexivity|]. split; [reflexivity|].
    right. split; [discriminate | reflexivity].
  - assert (Hc0 : RateLimiter.in_window self now c0 = true).
    { assert (Hin : c0 ∈ in_flight self now) by (rewrite Hkept; left).
      unfold in_flight in Hin. apply list_elem_of_filter in Hin. tauto. }
    unfold RateLimiter.in_window in Hc0. apply Z.ltb_lt in Hc0.
    destruct (Z.ltb_spec 0 (seconds (RateLimiter.time_window self) - (now - c0))); [|lia].
    eexists _, _, _. split; [reflexivity|]. split; [reflexivity|]. split; [reflexivity|].
    right. split; [discriminate | reflexivity].
Qed.

Lemma let_through_window (w m : Z) times : forall (self : RateLimiter.t) (adm : list Z) (last : Z),
  RateLimiter.time_window self = w ->
  RateLimiter.max_calls self = m ->
  Sorted Z.le (last :: times) ->
  (forall now, last <= now -> inside w now (RateLimiter.calls self) = inside w now adm) ->
  (forall now, last <= now -> Z.of_nat (length (inside w now adm)) <= Z.max 0 m) ->
  forall now,
    Forall (fun t => t <= now) (last :: times) ->
    Z.of_nat (length (inside w now (adm ++ let_through (fst (acquire_all self times)) times)))
      <= Z.max 0 m.
Proof.
  induction times as [|t later IH]; intros self adm last Hw Hm Hsorted Hinv Hcap now Hnow.
  - cbn. rewrite app_nil_r. apply Hcap. now inversion Hnow.
  - destruct (RateLimiter.lock_held self) eqn:Hlock.
    { rewrite acquire_all_parked by exact Hlock. rewrite app_nil_r.
      apply Hcap. now inversion Hnow. }
    assert (Hlt : last <= t).
    { apply Sorted_inv in Hsorted as [_ Hhd]. now inversion Hhd. }
    assert (Hsorted' : Sorted Z.le (t :: later)) by now apply Sorted_inv in Hsorted.
    assert (Hnow' : Forall (fun t => t <= now) (t :: later)) by now inversion Hnow.
    assert (Hkept : in_flight self t = inside w t adm).
    { rewrite in_flight_inside, Hw. now apply Hinv. }
    cbn [acquire_all].
    destruct (call_cases self t Hlock) as [tr [o [self' [E [Hm' [Hw' Hcases]]]]]].
    rewrite E.
    destruct (acquire_all self' later) as [ms self2] eqn:E2.
    cbn [fst let_through ending snd].
    destruct Hcases as [[Hunder [-> Hc]]|[Ho Hc]].
    + replace (adm ++ t :: let_through ms later) with ((adm ++ [t]) ++ let_through ms later)
        by now rewrite <- app_assoc.
      replace ms with (fst (acquire_all self' later)) by now rewrite E2.
      apply (IH self' (adm ++ [t]) t); [congruence | congruence | exact Hsorted' | | | exact Hnow'].
      * intros n Hn. rewrite Hc, !inside_app, Hkept. f_equal. now apply inside_later.
      * intros n Hn. rewrite inside_app.
        rewrite <- (inside_later w t n adm) by exact Hn.
        rewrite <- Hkept, <- inside_app.
        pose proof (length_filter (fun c => n - c < seconds w) (in_flight self t ++ [t])) as Hlen.
        fold (inside w n (in_flight self t ++ [t])) in Hlen.
        rewrite (length_app (in_flight self t)) in Hlen. cbn [length] in Hlen. lia.
    + assert (Hadm : match o with
                     | Return _ => t :: let_through ms later
                     | _ => let_through ms later
                     end = let_through ms later).
      { destruct o as [u| |]; [now destruct (Ho u) | reflexivity | reflexivity]. }
      rewrite Hadm.
      replace ms with (fst (acquire_all self' later)) by now rewrite E2.
      apply (IH self' adm t); [congruence | congruence | exact Hsorted' | | | exact Hnow'].
      * intros n Hn. rewrite Hc, Hkept. now apply inside_later.
      * intros n Hn. apply Hcap. lia.
Qed.

(** X1. Safety of the limiter, whatever its configuration: after any
    sequence of [acquire()] calls at non-decreasing instants on a fresh
    limiter, the calls that were let through (returned) within the last
    [time_window] seconds number at most [max_calls] (none, when
    [max_calls] is not positive). *)
Theorem X1_rate_limiter_never_exceeds_its_capacity (max_calls time_window : Z) (times : list Z) (now : Z) :
  Sorted Z.le times ->
  Forall (fun t => t <= now) times ->
  let limiter := RateLimiter.init max_calls time_window in
  Z.of_nat (length (inside time_window now (let_through (fst (acquire_all limiter times)) times)))
    <= Z.max 0 max_calls.
Proof.
  intros Hsorted Hnow limiter.
  destruct times as [|t0 later]; [cbn; lia|].
  apply (let_through_window time_window max_calls (t0 :: later) limiter [] t0).
  - reflexivity.
  - reflexivity.
  - constructor; [exact Hsorted | constructor; lia].
  - reflexivity.
  - intros n _. cbn. lia.
  - constructor; [now inversion Hnow | exact Hnow].
Qed.

Lemma X1_burst_of_three_with_capacity_two :
  let limiter := RateLimiter.init 2 60 in
  let times := [0; seconds 1; seconds 2] in
  Sorted Z.le times /\
  Forall (fun t => t <= seconds 2) times /\
  let_through (fst (acquire_all limiter times)) times = [0; seconds 1] /\
  Z.of_nat (length (inside 60 (seconds 2)
                      (let_through (fst (acquire_all limiter times)) times))) <= Z.max 0 2.
Proof.
  assert (Hs : Sorted Z.le [0; seconds 1; seconds 2]).
  { repeat constructor; unfold seconds; lia. }
  assert (Hn : Forall (fun t => t <= seconds 2) [0; seconds 1; seconds 2]).
  { repeat constructor; unfold seconds; lia. }
  split; [exact Hs|]. split; [exact Hn|]. split; [reflexivity|].
  exact (X1_rate_limiter_never_exceeds_its_capacity 2 60 [0; seconds 1; seconds 2] (seconds 2) Hs Hn).
Defined.

(** ** Token-auth provider: processing the hits *)

Lemma insert_desc_sorted {A : Type} (key : A -> Z) (x : A) (l : list A) :
  StronglySorted (fun a b => key b <= key a) l ->
  StronglySorted (fun a b => key b <= key a) (insert_desc key x l).
Proof.
  induction 1 as [|y ys Hys IH Hy]; cbn [insert_desc]; [repeat constructor|].
  destruct (Z.ltb_spec (key x) (key y)) as [Hlt|Hge].
  - constructor; [exact IH|].
    rewrite Forall_forall. intros z Hz.
    rewrite insert_desc_perm in Hz. apply elem_of_cons in Hz as [->|Hz]; [lia|].
    rewrite Forall_forall in Hy. now apply Hy.
  - constructor; [now constructor|].
    constructor; [exact Hge|].
    rewrite Forall_forall in *. intros z Hz. specialize (Hy z Hz). cbn in Hy. lia.
Qed.

Lemma sorted_desc_sorted {A : Type} (key : A -> Z) (l : list A) :
  StronglySorted (fun a b => key b <= key a) (sorted_desc key l).
Proof.
  induction l as [|x l IH]; cbn; [constructor | now apply insert_desc_sorted].
Qed.

Lemma converted_usable (it : OpenSubtitlesAPI.item) :
  (usable it = true /\ exists r, OpenSubtitlesAPI.process_item it = ([], Return r)
                                 /\ converted it = Some r) \/
  (usable it = false /\ exists e, OpenSubtitlesAPI.process_item it = ([], Raise e)
                                  /\ converted it = None).
Proof.
  unfold converted, usable, OpenSubtitlesAPI.process_item.
  destruct (get_or (OpenSubtitlesAPI.attributes_of it) _) as [a|];
    [|right; split; [reflexivity | eexists; split; reflexivity]].
  cbn [OpenSubtitlesAPI.need bind ret].
  destruct (get_or (OpenSubtitlesAPI.files a) _) as [[|f0 fs]|];
    try (right; split; [reflexivity | eexists; split; reflexivity]).
  cbn [OpenSubtitlesAPI.need bind ret head].
  unfold OpenSubtitlesAPI._calculate_quality_score.
  destruct (get_or (OpenSubtitlesAPI.download_count a) 0) as [dc|];
    [|right; split; [reflexivity | eexists; split; reflexivity]].
  destruct (get_or (OpenSubtitlesAPI.release a) "") as [release|];
    [|right; split; [reflexivity | eexists; split; reflexivity]].
  left. split; [reflexivity|]. eexists. split; reflexivity.
Qed.

Lemma process_items_spec (results : list OpenSubtitlesAPI.item) :
  exists tr,
    OpenSubtitlesAPI.process_items results = (tr, Return (omap converted results)) /\
    sleeps tr = [] /\
    length (log_lines tr) = length (List.filter (fun it => negb (usable it)) results).
Proof.
  induction results as [|it rest [tr [IH [Hs Hl]]]]; cbn [OpenSubtitlesAPI.process_items].
  - exists []. repeat split.
  - destruct (converted_usable it) as [[Hu [r [He Hc]]] | [Hu [e [He Hc]]]];
      rewrite He, IH; cbn [List.filter omap list_omap]; rewrite Hu, Hc; cbn.
    + exists tr. rewrite app_nil_r. split; [reflexivity|]. split; [exact Hs | exact Hl].
    + eexists. rewrite app_nil_r. split; [reflexivity|]. split; [exact Hs|].
      change (S (length (log_lines tr)) = S (length (List.filter (fun it0 => negb (usable it0)) rest))).
      now rewrite Hl.
Qed.

(** X2. The token-auth provider turns the hits of a reply into results one
    by one: a hit it cannot read (null attributes, download count, release
    or file list, or an empty file list) costs one log line and is left out,
    the others are all kept; the results come back ordered by quality
    score, best first. *)
Theorem X2_process_search_results (results : list OpenSubtitlesAPI.item) :
  exists tr out,
    OpenSubtitlesAPI._process_search_results results = (tr, Return out) /\
    out ≡ₚ omap converted results /\
    best_first out /\
    (forall it, converted it = None <-> usable it = false) /\
    length out = length (List.filter usable results) /\
    length (log_lines tr) = length (List.filter (fun it => negb (usable it)) results).
Proof.
  unfold OpenSubtitlesAPI._process_search_results.
  destruct (process_items_spec results) as [tr [H [_ Hl]]]. rewrite H. cbn [bind ret].
  eexists _, _. split; [reflexivity|].
  split; [apply sorted_desc_perm|].
  split; [apply sorted_desc_sorted|].
  split.
  { intros it. destruct (converted_usable it) as [[Hu [r [_ Hc]]] | [Hu [e [_ Hc]]]];
      rewrite Hu, Hc; split; congruence. }
  split.
  - rewrite sorted_desc_perm. clear.
    induction results as [|it rest IH]; [reflexivity|]. cbn [omap list_omap List.filter].
    destruct (converted_usable it) as [[Hu [r [_ Hc]]] | [Hu [e [_ Hc]]]];
      rewrite Hu, Hc; cbn; now rewrite IH.
  - rewrite app_nil_r. exact Hl.
Qed.

(** ** Token-auth provider: credentials and the token *)

(** X3. A client that holds no token and lacks one of its three credentials
    sends nothing: once admitted by the limiter, a search returns the empty
    list and a download returns [None], whatever the network would answer,
    after logging that the credentials are missing and that authentication
    failed. *)
Theorem X3_no_credentials_no_request self net now imdb_id language query subtitle_id :
  truthy (OpenSubtitlesAPI.token self) = false ->
  truthy (OpenSubtitlesAPI.api_key self) = false \/
  truthy (OpenSubtitlesAPI.username self) = false \/
  truthy (OpenSubtitlesAPI.password self) = false ->
  RateLimiter.lock_held (OpenSubtitlesAPI.rate_limiter self) = false ->
  Z.of_nat (length (in_flight (OpenSubtitlesAPI.rate_limiter self) now))
    < RateLimiter.max_calls (OpenSubtitlesAPI.rate_limiter self) ->
  let said := [EvLog Warning' "OpenSubtitles credentials not provided";
               EvLog Error' "Authentication failed"] in
  fst (OpenSubtitlesAPI.search_subtitles self net now imdb_id language query)
    = (said, Return []) /\
  fst (OpenSubtitlesAPI.download_subtitle self net now subtitle_id)
    = (said, Return None).
Proof.
  intros Htok Hcred Hlock Hcap said.
  assert (Hlogin : forall s : OpenSubtitlesAPI.t,
             OpenSubtitlesAPI.token s = OpenSubtitlesAPI.token self ->
             OpenSubtitlesAPI.api_key s = OpenSubtitlesAPI.api_key self ->
             OpenSubtitlesAPI.username s = OpenSubtitlesAPI.username self ->
             OpenSubtitlesAPI.password s = OpenSubtitlesAPI.password self ->
             OpenSubtitlesAPI._ensure_authenticated s net now =
               (exec log Warning' "OpenSubtitles credentials not provided"; ret false, s)).
  { intros s E1 E2 E3 E4.
    unfold OpenSubtitlesAPI._ensure_authenticated, OpenSubtitlesAPI._login.
    rewrite E1, E2, E3, E4, Htok. cbn [negb orb].
    destruct Hcred as [H|[H|H]]; rewrite H; cbn [negb orb];
      repeat (destruct (truthy _); cbn [negb orb]); reflexivity. }
  unfold OpenSubtitlesAPI.search_subtitles, OpenSubtitlesAPI.download_subtitle,
    OpenSubtitlesAPI.after_acquire.
  rewrite call_under_capacity by assumption.
  rewrite Hlogin by reflexivity.
  split; reflexivity.
Qed.

Lemma X3_search_without_a_password :
  let client := OpenSubtitlesAPI.mk (Some "key") (Some "user") None None None
                  (RateLimiter.init 60 60) in
  fst (OpenSubtitlesAPI.search_subtitles client (search_answers 200 [bluray_hit]) 0
         (Some "tt1375666") "en" None)
    = ([EvLog Warning' "OpenSubtitles credentials not provided";
        EvLog Error' "Authentication failed"], Return []) /\
  fst (OpenSubtitlesAPI.download_subtitle client (search_answers 200 [bluray_hit]) 0 (Some "7"))
    = ([EvLog Warning' "OpenSubtitles credentials not provided";
        EvLog Error' "Authentication failed"], Return None).
Proof.
  apply (X3_no_credentials_no_request
           (OpenSubtitlesAPI.mk (Some "key") (Some "user") None None None
              (RateLimiter.init 60 60))).
  - reflexivity.
  - right. right. reflexivity.
  - reflexivity.
  - cbn. lia.
Defined.

(** X4. A login answered with status 200 at instant [now] succeeds. If the
    reply carries a non-empty token, the client does not log in again
    before [now] + 23 hours, and does at the first call from then on; if
    the reply carries no token (or an empty one) the login still reports
    success, and the very next call logs in again. *)
Theorem X4_token_lifetime self net now r tok :
  has_credentials self ->
  OpenSubtitlesAPI.on_login net = Return r ->
  OpenSubtitlesAPI.login_status r = 200 ->
  OpenSubtitlesAPI.login_token r = Return tok ->
  let self' := snd (OpenSubtitlesAPI._login self net now) in
  ending (fst (OpenSubtitlesAPI._login self net now)) = Return true /\
  OpenSubtitlesAPI.token self' = get tok /\
  (forall net' now',
     truthy (get tok) = true ->
     now' < now + seconds (23 * 3600) ->
     OpenSubtitlesAPI._ensure_authenticated self' net' now' = (ret true, self')) /\
  (forall net' now',
     truthy (get tok) = false \/ now + seconds (23 * 3600) <= now' ->
     OpenSubtitlesAPI._ensure_authenticated self' net' now'
       = OpenSubtitlesAPI._login self' net' now').
Proof.
  intros [Hk [Hu Hp]] Hnet Hstatus Htok self'.
  assert (E : OpenSubtitlesAPI._login self net now =
              (exec log Info' "Successfully logged in to OpenSubtitles"; ret true,
               OpenSubtitlesAPI.set_token (get tok) (Some (now + seconds (23 * 3600))) self)).
  { unfold OpenSubtitlesAPI._login. rewrite Hk, Hu, Hp, Hnet, Hstatus, Htok. reflexivity. }
  subst self'. rewrite E. cbn [fst snd].
  split; [reflexivity|]. split; [reflexivity|]. split.
  - intros net' now' Ht Hnow. unfold OpenSubtitlesAPI._ensure_authenticated.
    cbn [OpenSubtitlesAPI.set_token OpenSubtitlesAPI.token OpenSubtitlesAPI.token_expires].
    rewrite Ht. cbn [negb orb].
    destruct (Z.leb_spec (now + seconds (23 * 3600)) now'); [lia | reflexivity].
  - intros net' now' Hcase. unfold OpenSubtitlesAPI._ensure_authenticated.
    cbn [OpenSubtitlesAPI.set_token OpenSubtitlesAPI.token OpenSubtitlesAPI.token_expires].
    destruct Hcase as [Ht|Hnow].
    + rewrite Ht. reflexivity.
    + destruct (Z.leb_spec (now + seconds (23 * 3600)) now'); [|lia].
      now rewrite orb_true_r.
Qed.

Lemma X4_token_of_a_login_at_noon :
  let self := OpenSubtitlesAPI.mk (Some "key") (Some "user") (Some "secret") None None
                (RateLimiter.init 60 60) in
  let noon := seconds (12 * 3600) in
  let self' := snd (OpenSubtitlesAPI._login self (login_answers (Val "abc")) noon) in
  OpenSubtitlesAPI.token self' = Some "abc" /\
  OpenSubtitlesAPI._ensure_authenticated self' (login_answers Absent) (noon + seconds 3600)
    = (ret true, self').
Proof.
  pose proof (X4_token_lifetime
                (OpenSubtitlesAPI.mk (Some "key") (Some "user") (Some "secret") None None
                   (RateLimiter.init 60 60))
                (login_answers (Val "abc")) (seconds (12 * 3600)) _ (Val "abc")
                (conj eq_refl (conj eq_refl eq_refl)) eq_refl eq_refl eq_refl)
    as [_ [Htok [Hkeep _]]].
  split; [exact Htok|].
  apply Hkeep; [reflexivity | unfold seconds; lia].
Defined.

(** ** Aggregation manager: the search as a whole *)

Lemma dedup_from_distinct (results : list search_result) : forall seen,
  NoDup (map SubtitleAPIManager.dedup_key (dedup_from seen results)) /\
  forall r, r ∈ dedup_from seen results -> SubtitleAPIManager.dedup_key r ∉ seen.
Proof.
  induction results as [|x rest IH]; intros seen; cbn [dedup_from].
  - split; [constructor | intros r Hr; inversion Hr].
  - destruct (decide (SubtitleAPIManager.dedup_key x ∈ seen)) as [Hseen|Hnew]; [apply IH|].
    destruct (IH ({[ SubtitleAPIManager.dedup_key x ]} ∪ seen)) as [Hnd Hout].
    split.
    + cbn [map]. constructor; [|exact Hnd].
      intros Hin. apply list_elem_of_fmap in Hin as [r [Hk Hr]].
      apply (Hout r Hr). rewrite <- Hk. apply elem_of_union. left. now apply elem_of_singleton.
    + intros r [->|Hr]%elem_of_cons; [exact Hnew|].
      intros Hin. apply (Hout r Hr). apply elem_of_union. now right.
Qed.

Lemma extend_with_cases all_results label (m : run (list search_result)) :
  (exists tr found, m = (tr, Return found) /\
     SubtitleAPIManager.extend_with all_results label m
       = (tr ++ [EvLog Info' (label +:+ " found results")], Return (all_results ++ found))) \/
  (exists tr e, m = (tr, Raise e) /\
     SubtitleAPIManager.extend_with all_results label m
       = (tr ++ [EvLog Error' (label +:+ " search failed: " +:+ exn_text e)],
          Return all_results)) \/
  (exists tr, m = (tr, Hang) /\
     SubtitleAPIManager.extend_with all_results label m = (tr, Hang)).
Proof.
  destruct m as [tr [found|e|]].
  - left. exists tr, found. split; reflexivity.
  - right. left. exists tr, e. split; reflexivity.
  - right. right. exists tr. split; reflexivity.
Qed.

(** The search, in terms of what was gathered from the providers. *)
Lemma manager_search_cases self env movie_title imdb_id language file_hash :
  let m := fst (SubtitleAPIManager.search_subtitles self env movie_title imdb_id language
                  file_hash) in
  (exists tr gathered,
      m = (tr, Return (sorted_desc sr_quality_score
                         (SubtitleAPIManager._deduplicate_results gathered)))) \/
  (exists tr, m = (tr, Hang) /\
     ((exists os, SubtitleAPIManager.opensubtitles self = Some os /\
                  ending (fst (os_search self env movie_title imdb_id language os)) = Hang) \/
      ending (subdb_search self env language file_hash) = Hang)).
Proof.
  intros m. subst m. unfold SubtitleAPIManager.search_subtitles.
  destruct (SubtitleAPIManager.opensubtitles self) as [os|] eqn:Hos.
  - fold (os_search self env movie_title imdb_id language os).
    destruct (os_search self env movie_title imdb_id language os) as [m os1] eqn:Em.
    cbn [fst].
    destruct (extend_with_cases [] "OpenSubtitles" m)
      as [[tr [found [-> E]]] | [[tr [e [-> E]]] | [tr [-> E]]]]; rewrite E; cbn [bind].
    + destruct (truthy file_hash && _).
      * fold (subdb_search self env language file_hash).
        destruct (extend_with_cases ([] ++ found) "SubDB" (subdb_search self env language file_hash))
          as [[tr2 [f2 [E2 E3]]] | [[tr2 [e2 [E2 E3]]] | [tr2 [E2 E3]]]]; rewrite E3; cbn [bind ret].
        -- left. eexists _, _. reflexivity.
        -- left. eexists _, _. reflexivity.
        -- right. eexists. split; [reflexivity|]. right. now rewrite E2.
      * cbn [bind ret]. left. eexists _, _. reflexivity.
    + destruct (truthy file_hash && _).
      * fold (subdb_search self env language file_hash).
        destruct (extend_with_cases [] "SubDB" (subdb_search self env language file_hash))
          as [[tr2 [f2 [E2 E3]]] | [[tr2 [e2 [E2 E3]]] | [tr2 [E2 E3]]]]; rewrite E3; cbn [bind ret].
        -- left. eexists _, _. reflexivity.
        -- left. eexists _, _. reflexivity.
        -- right. eexists. split; [reflexivity|]. right. now rewrite E2.
      * cbn [bind ret]. left. eexists _, _. reflexivity.
    + right. eexists. split; [reflexivity|]. left. exists os. split; [reflexivity|].
      now rewrite Em.
  - cbn [fst ret bind app].
    destruct (truthy file_hash && _).
    + fold (subdb_search self env language file_hash).
      destruct (extend_with_cases [] "SubDB" (subdb_search self env language file_hash))
        as [[tr2 [f2 [E2 E3]]] | [[tr2 [e2 [E2 E3]]] | [tr2 [E2 E3]]]]; rewrite E3; cbn [bind ret].
      * left. eexists _, _. reflexivity.
      * left. eexists _, _. reflexivity.
      * right. eexists. split; [reflexivity|]. right. now rewrite E2.
    + cbn [bind ret]. left. eexists _, _. reflexivity.
Qed.

(** X5. The manager's search never raises, whatever the providers do and
    however the manager is configured: it returns unless a provider call
    never returns, and the list it returns is ordered by quality score,
    best first, and holds no two results with the same joined
    filename-and-language key. *)
Theorem X5_manager_search_boundary self env movie_title imdb_id language file_hash :
  let m := fst (SubtitleAPIManager.search_subtitles self env movie_title imdb_id language
                  file_hash) in
  ~ raises m /\
  (ending m = Hang ->
     (exists os, SubtitleAPIManager.opensubtitles self = Some os /\
                 ending (fst (os_search self env movie_title imdb_id language os)) = Hang) \/
     ending (subdb_search self env language file_hash) = Hang) /\
  (forall out, ending m = Return out -> best_first out /\ distinct_keys out).
Proof.
  intros m.
  destruct (manager_search_cases self env movie_title imdb_id language file_hash)
    as [[tr [gathered E]] | [tr [E Hwho]]]; fold m in E; rewrite E.
  - split; [intros [e He]; discriminate|]. split; [discriminate|].
    intros out Hout. cbn in Hout. inversion Hout; subst out.
    split; [apply sorted_desc_sorted|].
    unfold distinct_keys. rewrite sorted_desc_perm.
    rewrite deduplicate_results_eq. apply dedup_from_distinct.
  - split; [intros [e He]; discriminate|]. split; [intros _; exact Hwho | discriminate].
Qed.

(** X6. The hash-lookup provider is a fallback: when no file hash is
    given, or the token-auth provider delivered three results or more, the
    search is the one that would have been made without a hash, and the
    hash-lookup service is not asked. *)
Theorem X6_fallback_only_when_needed self env movie_title imdb_id language file_hash :
  truthy file_hash = false \/
  (exists os tr found os1,
      SubtitleAPIManager.opensubtitles self = Some os /\
      os_search self env movie_title imdb_id language os = ((tr, Return found), os1) /\
      (3 <= length found)%nat) ->
  SubtitleAPIManager.search_subtitles self env movie_title imdb_id language file_hash
  = SubtitleAPIManager.search_subtitles self env movie_title imdb_id language None.
Proof.
  intros [Hnone | [os [tr [found [os1 [Hos [E Hlen]]]]]]];
    unfold SubtitleAPIManager.search_subtitles.
  - rewrite Hnone. reflexivity.
  - rewrite Hos. fold (os_search self env movie_title imdb_id language os). rewrite E.
    cbn [SubtitleAPIManager.extend_with bind try_except log emit ret app].
    destruct (Z.ltb_spec (Z.of_nat (length found)) 3) as [H|H]; [lia|].
    rewrite andb_false_r. reflexivity.
Qed.

Lemma X6_three_hits_leave_the_hash_unused :
  length (match ending (fst (SubtitleAPIManager.search_subtitles configured
                               (both_answer three_hits) "Inception" None "en"
                               (Some "ffd8d4aa68033dc03d1c8ef373b9028c"))) with
          | Return out => out
          | _ => []
          end) = 3%nat /\
  SubtitleAPIManager.search_subtitles configured (both_answer three_hits) "Inception" None "en"
    (Some "ffd8d4aa68033dc03d1c8ef373b9028c")
  = SubtitleAPIManager.search_subtitles configured (both_answer three_hits) "Inception" None "en"
      None.
Proof.
  split; [vm_compute; reflexivity|].
  apply X6_fallback_only_when_needed. right.
  eexists _, _, _, _. split; [reflexivity|]. split; [vm_compute; reflexivity|].
  cbn. lia.
Defined.

(** X7. A download through the manager never raises. A provider name
    other than the two known ones, or the token-auth provider when its
    client is not configured, gives [None] and one log line, with no
    request made; so does a missing ['id']. *)
Theorem X7_manager_download_boundary :
  (forall self env subtitle_info,
      ~ raises (fst (SubtitleAPIManager.download_subtitle_content self env subtitle_info))) /\
  (forall self env subtitle_info,
      sr_provider subtitle_info <> "subdb" ->
      sr_provider subtitle_info <> "opensubtitles"
        \/ SubtitleAPIManager.opensubtitles self = None ->
      SubtitleAPIManager.download_subtitle_content self env subtitle_info
        = (([EvLog Error' "Unknown provider"], Return None), self)) /\
  (forall self env subtitle_info,
      sr_provider subtitle_info = "subdb" \/
      (sr_provider subtitle_info = "opensubtitles"
         /\ SubtitleAPIManager.opensubtitles self <> None) ->
      sr_id subtitle_info = Absent ->
      SubtitleAPIManager.download_subtitle_content self env subtitle_info
        = (([EvLog Error' ("Download failed: " +:+ exn_text SubtitleAPIManager.KeyError)],
            Return None), self)).
Proof.
  split; [|split].
  - intros self env info [e He]. revert He.
    unfold SubtitleAPIManager.download_subtitle_content.
    assert (Hsub : forall e, ending (SubtitleAPIManager.download_from_subdb self env info)
                             <> Raise e).
    { intros e'. unfold SubtitleAPIManager.download_from_subdb.
      destruct (sr_id info), (sr_language info); try discriminate;
        match goal with |- context [SubtitleAPIManager._retry_operation ?s ?op ?st] =>
          destruct (SubtitleAPIManager._retry_operation s op st) as [[tr [v|e0|]] []]
        end; discriminate. }
    destruct (String.eqb (sr_provider info) "opensubtitles"),
             (SubtitleAPIManager.opensubtitles self) as [os|];
      try (destruct (String.eqb (sr_provider info) "subdb"); cbn [fst];
           [apply Hsub | discriminate]).
    destruct (sr_id info); try discriminate;
      match goal with |- context [SubtitleAPIManager._retry_operation ?s ?op ?st] =>
        destruct (SubtitleAPIManager._retry_operation s op st) as [[tr [v|e0|]] os1]
      end; discriminate.
  - intros self env info Hsub Hos.
    unfold SubtitleAPIManager.download_subtitle_content.
    destruct (String.eqb_spec (sr_provider info) "subdb") as [|_]; [contradiction|].
    destruct Hos as [Hos|Hos].
    + destruct (String.eqb_spec (sr_provider info) "opensubtitles") as [|_]; [contradiction|].
      reflexivity.
    + rewrite Hos. destruct (String.eqb (sr_provider info) "opensubtitles"); reflexivity.
  - intros self env info Hprov Hid.
    unfold SubtitleAPIManager.download_subtitle_content,
      SubtitleAPIManager.download_from_subdb.
    rewrite Hid.
    destruct Hprov as [Hp | [Hp Hos]]; rewrite Hp; cbn [String.eqb].
    + destruct (SubtitleAPIManager.opensubtitles self); reflexivity.
    + destruct (SubtitleAPIManager.opensubtitles self); [reflexivity | contradiction].
Qed.

Lemma X7_unknown_provider_gives_nothing :
  SubtitleAPIManager.download_subtitle_content configured (both_answer []) foreign_result
    = (([EvLog Error' "Unknown provider"], Return None), configured).
Proof.
  apply (proj1 (proj2 X7_manager_download_boundary)).
  - discriminate.
  - left. discriminate.
Defined.

(** ** Cache store: keys, read-back and expiry *)

Lemma append_inj_l (p x y : string) : p +:+ x = p +:+ y -> x = y.
Proof.
  induction p as [|c p IH]; [easy|]. rewrite !append_cons. intros H. apply IH. congruence.
Qed.

(** Two texts free of the separator, each followed by the separator, start
    the same text only if they are equal. *)
Lemma separated_inj (sep : ascii) (m m' rest rest' : string) :
  free_of sep m = true -> free_of sep m' = true ->
  m +:+ String sep rest = m' +:+ String sep rest' ->
  m = m' /\ rest = rest'.
Proof.
  revert m'. induction m as [|c m IH]; intros [|c' m'] Hm Hm' H.
  - rewrite !append_nil in H. split; congruence.
  - rewrite append_nil, append_cons in H. inversion H; subst c'.
    cbn in Hm'. rewrite Ascii.eqb_refl in Hm'. discriminate.
  - rewrite append_nil, append_cons in H. inversion H; subst c.
    cbn in Hm. rewrite Ascii.eqb_refl in Hm. discriminate.
  - rewrite !append_cons in H. inversion H; subst c'.
    cbn in Hm, Hm'. apply andb_true_iff in Hm as [_ Hm]. apply andb_true_iff in Hm' as [_ Hm'].
    destruct (IH m' Hm Hm' H2) as [-> ->]. now split.
Qed.

Lemma content_key_inj (c : CacheManager.t) (m l m' l' : string) :
  free_of ":" m = true -> free_of ":" m' = true ->
  CacheManager._make_key c ["content"; m; l] = CacheManager._make_key c ["content"; m'; l'] ->
  m = m' /\ l = l'.
Proof.
  intros Hm Hm' H. unfold CacheManager._make_key in H. apply append_inj_l in H.
  cbn [CacheManager.join] in H.
  apply (append_inj_l "content:") in H.
  change (m +:+ String ":" l = m' +:+ String ":" l') in H.
  now apply separated_inj in H.
Qed.

(** X8. Read-back and expiry of cached text. With the cache server up, a
    text no larger than the size limit is stored, and until its lifetime
    is over (the given TTL, by default 24 hours) a read of the same movie
    and language returns it; from that instant on the read returns [None].
    An empty text is stored as well, but reads back as [None] from the
    start. *)
Theorem X8_cached_content_reads_back c srv now m l content ttl now' :
  CacheManager.redis_client c = Some srv ->
  CacheManager.up srv = true ->
  CacheManager.utf8_length content <= CacheManager.max_cache_size ->
  0 < lifetime c ttl ->
  let written := CacheManager.set_subtitle_content c now m l content ttl in
  ending (fst written) = Return true /\
  ending (CacheManager.get_subtitle_content (snd written) now' m l)
    = Return (if now' <? now + seconds (lifetime c ttl) then nonempty (Some content) else None).
Proof.
  intros Hc Hup Hsize Httl written. subst written.
  unfold CacheManager.set_subtitle_content. rewrite Hc.
  fold (lifetime c ttl).
  destruct (Z.ltb_spec CacheManager.max_cache_size (CacheManager.utf8_length content)); [lia|].
  unfold CacheManager.redis_setex. rewrite Hup. cbn [fst snd].
  split; [reflexivity|].
  unfold CacheManager.get_subtitle_content, CacheManager.set_redis_client.
  cbn [CacheManager.redis_client CacheManager.prefix CacheManager._make_key].
  unfold CacheManager.redis_get. cbn [CacheManager.up CacheManager.db].
  change (CacheManager._make_key
            {| CacheManager.redis_client :=
                 Some {| CacheManager.up := true;
                         CacheManager.db :=
                           <[CacheManager._make_key c ["content"; m; l] :=
                               (content, now + seconds (lifetime c ttl))]> (CacheManager.db srv) |};
               CacheManager.prefix := CacheManager.prefix c;
               CacheManager.metadata_ttl := CacheManager.metadata_ttl c;
               CacheManager.content_ttl := CacheManager.content_ttl c;
               CacheManager.search_ttl := CacheManager.search_ttl c |} ["content"; m; l])
    with (CacheManager._make_key c ["content"; m; l]).
  rewrite lookup_insert_eq. cbn [ret bind].
  destruct (now' <? now + seconds (lifetime c ttl)); [|reflexivity].
  unfold nonempty. destruct (truthy (Some content)); reflexivity.
Qed.

Lemma X8_one_cue_for_a_day :
  let written :=
    CacheManager.set_subtitle_content connected_cache 0 "tt1375666" "en" one_cue None in
  ending (fst written) = Return true /\
  ending (CacheManager.get_subtitle_content (snd written) (seconds 86399) "tt1375666" "en")
    = Return (Some one_cue) /\
  ending (CacheManager.get_subtitle_content (snd written) (seconds 86400) "tt1375666" "en")
    = Return None.
Proof.
  assert (H : forall now',
    let written :=
      CacheManager.set_subtitle_content connected_cache 0 "tt1375666" "en" one_cue None in
    ending (fst written) = Return true /\
    ending (CacheManager.get_subtitle_content (snd written) now' "tt1375666" "en")
      = Return (if now' <? 0 + seconds (lifetime connected_cache None)
                then nonempty (Some one_cue) else None)).
  { intros now'.
    apply (X8_cached_content_reads_back connected_cache redis_empty 0 "tt1375666" "en"
             one_cue None now'); [reflexivity | reflexivity | vm_compute; discriminate
                                 | reflexivity]. }
  split; [exact (proj1 (H 0))|].
  split; [exact (proj2 (H (seconds 86399))) | exact (proj2 (H (seconds 86400)))].
Defined.

Lemma cache_set_state c now m l content ttl :
  snd (CacheManager.set_subtitle_content c now m l content ttl) = c \/
  exists srv,
    CacheManager.redis_client c = Some srv /\
    CacheManager.up srv = true /\
    snd (CacheManager.set_subtitle_content c now m l content ttl) =
      CacheManager.set_redis_client
        (Some {| CacheManager.up := true;
                 CacheManager.db :=
                   <[CacheManager._make_key c ["content"; m; l] :=
                       (content, now + seconds (lifetime c ttl))]> (CacheManager.db srv) |}) c.
Proof.
  unfold CacheManager.set_subtitle_content.
  destruct (CacheManager.redis_client c) as [srv|] eqn:Hc; [|now left].
  fold (lifetime c ttl).
  destruct (_ <? _); [now left|].
  unfold CacheManager.redis_setex. destruct (CacheManager.up srv) eqn:Hup; cbn [snd].
  - right. exists srv. split; [reflexivity|]. split; [exact Hup | reflexivity].
  - left. unfold CacheManager.set_redis_client. destruct c; cbn in *. now rewrite Hc.
Qed.

(** X9. Entries do not disturb one another: caching a text for one movie
    and language leaves every read of a different movie or language as it
    was, provided the two movie identifiers contain no colon (the key joins
    its parts with colons). *)
Theorem X9_cached_content_is_per_pair c now m l content ttl now' m' l' :
  free_of ":" m = true ->
  free_of ":" m' = true ->
  (m, l) <> (m', l') ->
  CacheManager.get_subtitle_content
    (snd (CacheManager.set_subtitle_content c now m l content ttl)) now' m' l'
  = CacheManager.get_subtitle_content c now' m' l'.
Proof.
  intros Hm Hm' Hne.
  destruct (cache_set_state c now m l content ttl) as [-> | [srv [Hc [Hup ->]]]]; [reflexivity|].
  unfold CacheManager.get_subtitle_content, CacheManager.set_redis_client.
  cbn [CacheManager.redis_client]. rewrite Hc.
  unfold CacheManager.redis_get. cbn [CacheManager.up CacheManager.db].
  change (CacheManager._make_key (CacheManager.mk _ (CacheManager.prefix c) _ _ _)
            ["content"; m'; l'])
    with (CacheManager._make_key c ["content"; m'; l']).
  rewrite Hup, lookup_insert_ne; [reflexivity|].
  intros Hk. apply content_key_inj in Hk as [-> ->]; auto.
Qed.

(** Without the proviso two pairs can share a key. *)
Example colon_in_the_movie_id :
  CacheManager._make_key CacheManager.init ["content"; "a:b"; "c"]
  = CacheManager._make_key CacheManager.init ["content"; "a"; "b:c"].
Proof. reflexivity. Qed.

Lemma X9_another_language_is_untouched :
  CacheManager.get_subtitle_content
    (snd (CacheManager.set_subtitle_content connected_cache 0 "tt1375666" "en" one_cue None))
    (seconds 5) "tt1375666" "fr"
  = CacheManager.get_subtitle_content connected_cache (seconds 5) "tt1375666" "fr".
Proof.
  apply X9_cached_content_is_per_pair; [reflexivity | reflexivity | discriminate].
Defined.

(** ** Durable store: reading the metadata back *)

Lemma find_unique {A : Type} (f g : A -> bool) (l : list A) (d : A) :
  (forall x, g x = true -> f x = true) ->
  List.find f l = Some d ->
  length (List.filter f l) = 1%nat ->
  List.find g l = if g d then Some d else None.
Proof.
  intros Hgf. induction l as [|x l IH]; [discriminate|]. cbn [List.find List.filter].
  destruct (f x) eqn:Hfx.
  - intros Hd Hlen. inversion Hd; subst x. cbn [length] in Hlen.
    destruct (g d); [reflexivity|].
    assert (Hnil : List.filter f l = []) by (destruct (List.filter f l); [reflexivity | discriminate]).
    clear -Hnil Hgf. induction l as [|y l IH]; [reflexivity|].
    cbn [List.filter] in Hnil. cbn [List.find].
    destruct (f y) eqn:Hfy; [discriminate|].
    destruct (g y) eqn:Hgy; [apply Hgf in Hgy; congruence | now apply IH].
  - intros Hd Hlen.
    destruct (g x) eqn:Hgx; [apply Hgf in Hgx; congruence | now apply IH].
Qed.

Lemma ensure_connected_cases (self : SubtitleStorage.t) :
  SubtitleStorage.up (SubtitleStorage.db self) = true ->
  exists tr self1,
    SubtitleStorage.ensure_connected self = ((tr, Return tt), self1) /\
    SubtitleStorage.db self1 = SubtitleStorage.db self /\
    SubtitleStorage.cache_duration self1 = SubtitleStorage.cache_duration self /\
    sleeps tr = [].
Proof.
  intros Hup. unfold SubtitleStorage.ensure_connected, SubtitleStorage.connect.
  destruct (SubtitleStorage._connected self).
  - eexists _, _. repeat split.
  - rewrite Hup. eexists _, _. repeat split.
Qed.

(** X10. A stored record is found again until it expires: when
    [store_subtitle_metadata] has returned [True] for a (movie, language)
    pair that had at most one record, [get_subtitle_metadata] for the pair
    returns the record just built at every instant before its
    [expires_at] (24 hours after the store), and [None] from then on. *)
Theorem X10_metadata_reads_back self now m l data tr self1 now' :
  (records_for m l (SubtitleStorage.subtitles_metadata (SubtitleStorage.db self)) <= 1)%nat ->
  SubtitleStorage.store_subtitle_metadata self now m l data = ((tr, Return true), self1) ->
  ending (fst (SubtitleStorage.get_subtitle_metadata self1 now' m l))
  = Return (if now' <? now + seconds (SubtitleStorage.cache_duration self)
            then Some (SubtitleStorage.new_document self now m l data)
            else None).
Proof.
  intros Hone Hstore.
  destruct (store_subtitle_metadata_true _ _ _ _ _ _ _ Hstore) as [Hup [Hup1 [Hdur [Hdocs _]]]].
  pose proof (replace_one_upsert_spec (SubtitleStorage.same_key m l)
                (SubtitleStorage.new_document self now m l data)
                (SubtitleStorage.subtitles_metadata (SubtitleStorage.db self))
                (same_key_new_document self now m l data)) as [Hfind Hlen].
  rewrite <- Hdocs in Hfind, Hlen.
  assert (Hlen1 : length (List.filter (SubtitleStorage.same_key m l)
                            (SubtitleStorage.subtitles_metadata (SubtitleStorage.db self1)))
                  = 1%nat).
  { rewrite Hlen. unfold records_for in Hone. lia. }
  pose proof (find_unique (SubtitleStorage.same_key m l) (SubtitleStorage.current m l now')
                _ _ (fun x Hx => proj1 (andb_prop _ _ Hx)) Hfind Hlen1) as Hcur.
  unfold SubtitleStorage.get_subtitle_metadata.
  destruct (ensure_connected_cases self1 Hup1) as [tr0 [self2 [E [Hdb [_ _]]]]].
  rewrite E, Hdb, Hup1, Hcur.
  unfold SubtitleStorage.current at 1.
  rewrite same_key_new_document. cbn [andb SubtitleStorage.new_document SubtitleStorage.expires_at].
  destruct (now' <? now + seconds (SubtitleStorage.cache_duration self)); [|reflexivity].
  unfold SubtitleStorage._record_access. rewrite Hdb, Hup1. reflexivity.
Qed.

Lemma X10_a_record_lives_for_a_day :
  ending (fst (SubtitleStorage.get_subtitle_metadata stored_once (seconds 86499) "tt1375666" "en"))
    = Return (Some (SubtitleStorage.new_document (SubtitleStorage.init empty_server)
                      (seconds 100) "tt1375666" "en" bluray_result)) /\
  ending (fst (SubtitleStorage.get_subtitle_metadata stored_once (seconds 86500) "tt1375666" "en"))
    = Return None.
Proof.
  assert (H : forall now',
    ending (fst (SubtitleStorage.get_subtitle_metadata stored_once now' "tt1375666" "en"))
    = Return (if now' <? seconds 100
                         + seconds (SubtitleStorage.cache_duration
                                      (SubtitleStorage.init empty_server))
              then Some (SubtitleStorage.new_document (SubtitleStorage.init empty_server)
                           (seconds 100) "tt1375666" "en" bluray_result)
              else None)).
  { intros now'.
    apply (X10_metadata_reads_back (SubtitleStorage.init empty_server) (seconds 100)
             "tt1375666" "en" bluray_result
             (fst (fst (SubtitleStorage.store_subtitle_metadata
                          (SubtitleStorage.init empty_server) (seconds 100)
                          "tt1375666" "en" bluray_result)))
             stored_once now'); [cbn; lia | reflexivity]. }
  split; [exact (H (seconds 86499)) | exact (H (seconds 86500))].
Defined.

(** ** Durable store: verifying a cached text *)

Lemma same_data_refl a : same_data a a.
Proof. repeat split. Qed.

Lemma same_data_trans a b c : same_data a b -> same_data b c -> same_data a c.
Proof. intros [? [? [? ?]]] [? [? [? ?]]]. repeat split; congruence. Qed.

Lemma ensure_connected_same (self : SubtitleStorage.t) :
  SubtitleStorage.db (snd (SubtitleStorage.ensure_connected self)) = SubtitleStorage.db self.
Proof.
  unfold SubtitleStorage.ensure_connected, SubtitleStorage.connect.
  destruct (SubtitleStorage._connected self); [reflexivity|].
  destruct (SubtitleStorage.up (SubtitleStorage.db self)); reflexivity.
Qed.

Lemma ensure_connected_down (self : SubtitleStorage.t) :
  SubtitleStorage.up (SubtitleStorage.db self) = false ->
  exists tr self1,
    SubtitleStorage.db self1 = SubtitleStorage.db self /\
    SubtitleStorage._connected self1 = SubtitleStorage._connected self /\
    SubtitleStorage.ensure_connected self =
      ((tr, if SubtitleStorage._connected self then Return tt
            else Raise SubtitleStorage.ServerSelectionTimeoutError), self1).
Proof.
  intros Hup. unfold SubtitleStorage.ensure_connected, SubtitleStorage.connect.
  destruct (SubtitleStorage._connected self) eqn:Hc.
  - eexists _, self. rewrite Hc. repeat split.
  - rewrite Hup. eexists _, self. rewrite Hc. repeat split.
Qed.

Lemma get_subtitle_metadata_spec (self : SubtitleStorage.t) (now : Z) (m l : string) :
  exists tr self',
    SubtitleStorage.get_subtitle_metadata self now m l =
      ((tr, Return (if SubtitleStorage.up (SubtitleStorage.db self)
                    then List.find (SubtitleStorage.current m l now)
                           (SubtitleStorage.subtitles_metadata (SubtitleStorage.db self))
                    else None)), self') /\
    same_data (SubtitleStorage.db self') (SubtitleStorage.db self).
Proof.
  unfold SubtitleStorage.get_subtitle_metadata.
  destruct (SubtitleStorage.up (SubtitleStorage.db self)) eqn:Hup.
  - destruct (ensure_connected_cases self Hup) as [tr0 [self1 [E [Hdb _]]]].
    rewrite E, Hdb, Hup.
    destruct (List.find _ _) as [d|].
    + unfold SubtitleStorage._record_access. rewrite Hdb, Hup.
      eexists _, _. split; [reflexivity|]. repeat split.
    + eexists _, _. split; [reflexivity|]. rewrite Hdb. apply same_data_refl.
  - destruct (ensure_connected_down self Hup) as [tr0 [self1 [Hdb [_ E]]]].
    rewrite E, Hdb, Hup.
    destruct (SubtitleStorage._connected self);
      (eexists _, _; split; [reflexivity | rewrite Hdb; apply same_data_refl]).
Qed.

Lemma get_cached_same `{SubtitleStorage.Codecs} (self : SubtitleStorage.t) (now : Z) (m l : string) :
  same_data
    (SubtitleStorage.db (snd (SubtitleStorage.get_cached_subtitle_content self now m l)))
    (SubtitleStorage.db self).
Proof.
  unfold SubtitleStorage.get_cached_subtitle_content.
  pose proof (ensure_connected_same self) as Hdb.
  destruct (SubtitleStorage.ensure_connected self) as [connected self1]. cbn [snd] in Hdb.
  rewrite Hdb.
  destruct (SubtitleStorage.up (SubtitleStorage.db self)) eqn:Hup;
    [|cbn [snd]; rewrite Hdb; apply same_data_refl].
  destruct (List.find _ _) as [f|]; [|cbn [snd]; rewrite Hdb; apply same_data_refl].
  unfold SubtitleStorage._record_cache_hit. rewrite Hdb, Hup. cbn [snd].
  repeat split.
Qed.

Lemma stored_text_same `{SubtitleStorage.Codecs} (a b : SubtitleStorage.t) (m l : string) :
  same_data (SubtitleStorage.db a) (SubtitleStorage.db b) ->
  stored_text a m l = stored_text b m l.
Proof. intros [Hup [_ [_ Hfs]]]. unfold stored_text. now rewrite Hup, Hfs. Qed.

(** X11. [verify_subtitle_integrity] never reports 'verified' and never
    raises. It reports 'not_found' without a live record, 'not_cached' for
    a record not marked as cached, 'content_missing' when the blob is absent
    or empty, and for a record that passes these three checks it reports
    'error', carrying the [NameError] raised by the use of [re], which the
    module does not import. The metadata records are left as they were. *)
Theorem X11_verification_never_succeeds `{SubtitleStorage.Codecs}
    (self : SubtitleStorage.t) (now : Z) (m l : string) :
  exists tr v self',
    SubtitleStorage.verify_subtitle_integrity self now m l = ((tr, Return v), self') /\
    SubtitleStorage.status v = verdict self now m l /\
    SubtitleStorage.status v <> "verified" /\
    (SubtitleStorage.up (SubtitleStorage.db self) = true ->
     SubtitleStorage.status v = "error" ->
     SubtitleStorage.message v = Some (exn_text SubtitleStorage.NameError)) /\
    same_data (SubtitleStorage.db self') (SubtitleStorage.db self).
Proof.
  unfold SubtitleStorage.verify_subtitle_integrity.
  destruct (SubtitleStorage.up (SubtitleStorage.db self)) eqn:Hup.
  - destruct (ensure_connected_cases self Hup) as [tr0 [self1 [E [Hdb _]]]].
    rewrite E.
    destruct (get_subtitle_metadata_spec self1 now m l) as [tr1 [self2 [E1 Hsame1]]].
    rewrite Hdb, Hup in E1. rewrite Hdb in Hsame1. rewrite E1. clear E1.
    destruct (List.find (SubtitleStorage.current m l now) _) as [d|] eqn:Hfind.
    + destruct (SubtitleStorage.cached_content d) eqn:Hcached; cbn [negb].
      * destruct (storage_get_returns self2 now m l) as [tr2 [self3 E2]].
        pose proof (get_cached_same self2 now m l) as Hsame2.
        rewrite E2 in Hsame2 |- *. cbn [snd] in Hsame2.
        rewrite (stored_text_same self2 self m l Hsame1).
        assert (Hv : verdict self now m l =
                     match nonempty (stored_text self m l) with
                     | None => "content_missing"
                     | Some _ => "error"
                     end).
        { unfold verdict. now rewrite Hup, Hfind, Hcached. }
        unfold nonempty in Hv.
        destruct (truthy (stored_text self m l)) eqn:Ht; cbn [negb].
        -- eexists _, _, _. split; [reflexivity|].
           cbn [SubtitleStorage.status SubtitleStorage.message].
           destruct (stored_text self m l); [|discriminate].
           split; [now rewrite Hv|]. split; [discriminate|].
           split; [reflexivity|]. eapply same_data_trans; eassumption.
        -- eexists _, _, _. split; [reflexivity|].
           cbn [SubtitleStorage.status SubtitleStorage.message].
           split; [now rewrite Hv|]. split; [discriminate|].
           split; [discriminate|]. eapply same_data_trans; eassumption.
      * eexists _, _, _. split; [reflexivity|].
        cbn [SubtitleStorage.status SubtitleStorage.message].
        split; [unfold verdict; now rewrite Hup, Hfind, Hcached|].
        split; [discriminate|]. split; [discriminate | exact Hsame1].
    + eexists _, _, _. split; [reflexivity|].
      cbn [SubtitleStorage.status SubtitleStorage.message].
      split; [unfold verdict; now rewrite Hup, Hfind|].
      split; [discriminate|]. split; [discriminate | exact Hsame1].
  - destruct (ensure_connected_down self Hup) as [tr0 [self1 [Hdb [Hconn E]]]].
    rewrite E. unfold verdict. rewrite Hup.
    destruct (SubtitleStorage._connected self).
    + destruct (get_subtitle_metadata_spec self1 now m l) as [tr1 [self2 [E1 Hsame1]]].
      rewrite Hdb, Hup in E1. rewrite Hdb in Hsame1. rewrite E1.
      eexists _, _, _. split; [reflexivity|].
      cbn [SubtitleStorage.status]. split; [reflexivity|]. split; [discriminate|].
      split; [discriminate | exact Hsame1].
    + eexists _, _, _. split; [reflexivity|].
      cbn [SubtitleStorage.status]. split; [reflexivity|]. split; [discriminate|].
      split; [discriminate | rewrite Hdb; apply same_data_refl].
Qed.

(** A record marked as cached, with its text in the blob store: the best
    case for a verification. *)
Example verifying_a_cached_text :
  ending (fst (SubtitleStorage.verify_subtitle_integrity (H := transparent) with_blob
                 (seconds 120) "tt1375666" "en"))
  = Return {| SubtitleStorage.status := "error";
              SubtitleStorage.message := Some "name 're' is not defined" |}.
Proof. vm_compute. reflexivity. Qed.

(** ** Durable store: one blob per name *)

Lemma append_inj_r (x y s : string) : x +:+ s = y +:+ s -> x = y.
Proof.
  revert y. induction x as [|c x IH]; intros [|d y] H0.
  - reflexivity.
  - exfalso. rewrite append_nil in H0. apply (f_equal String.length) in H0.
    rewrite length_append in H0. cbn in H0. lia.
  - exfalso. rewrite append_nil in H0. apply (f_equal String.length) in H0.
    rewrite length_append in H0. cbn in H0. lia.
  - rewrite !append_cons in H0. inversion H0; subst. f_equal. now apply IH.
Qed.

Lemma blob_name_inj (m l m' l' : string) :
  free_of "_" m = true -> free_of "_" m' = true ->
  SubtitleStorage.blob_name m l = SubtitleStorage.blob_name m' l' ->
  m = m' /\ l = l'.
Proof.
  intros Hm Hm' Hname. unfold SubtitleStorage.blob_name in Hname.
  change (m +:+ String "_" (l +:+ ".srt") = m' +:+ String "_" (l' +:+ ".srt")) in Hname.
  apply separated_inj in Hname as [-> Hl]; [|assumption..].
  split; [reflexivity | now apply append_inj_r in Hl].
Qed.

Lemma find_other_name name name' (files : list SubtitleStorage.grid_file) f :
  name' <> name ->
  SubtitleStorage.file_name f = name ->
  List.find (SubtitleStorage.named name')
    (List.filter (fun g => negb (SubtitleStorage.named name g)) files ++ [f])
  = List.find (SubtitleStorage.named name') files.
Proof.
  intros Hne Hf. induction files as [|g files IH]; cbn [List.filter app List.find].
  - unfold SubtitleStorage.named. rewrite Hf.
    destruct (String.eqb_spec name name'); [congruence | reflexivity].
  - destruct (SubtitleStorage.named name g) eqn:Hg; cbn [negb app List.find].
    + unfold SubtitleStorage.named in Hg |- *. apply String.eqb_eq in Hg. rewrite Hg.
      destruct (String.eqb_spec name name'); [congruence | exact IH].
    + destruct (SubtitleStorage.named name' g); [reflexivity | exact IH].
Qed.

Lemma cache_subtitle_content_state `{SubtitleStorage.Codecs} self now m l content compress :
  let self' := snd (SubtitleStorage.cache_subtitle_content self now m l content compress) in
  SubtitleStorage.up (SubtitleStorage.db self') = SubtitleStorage.up (SubtitleStorage.db self) /\
  (SubtitleStorage.fs (SubtitleStorage.db self') = SubtitleStorage.fs (SubtitleStorage.db self) \/
   exists f,
     SubtitleStorage.file_name f = SubtitleStorage.blob_name m l /\
     SubtitleStorage.fs (SubtitleStorage.db self') =
       List.filter (fun g => negb (SubtitleStorage.named (SubtitleStorage.blob_name m l) g))
         (SubtitleStorage.fs (SubtitleStorage.db self)) ++ [f]).
Proof.
  unfold SubtitleStorage.cache_subtitle_content.
  pose proof (ensure_connected_same self) as Hdb.
  destruct (SubtitleStorage.ensure_connected self) as [connected self1]. cbn [snd] in Hdb.
  rewrite Hdb.
  destruct (SubtitleStorage.up (SubtitleStorage.db self)) eqn:Hup; cbn [snd].
  - split; [exact Hup|]. right. eexists. split; [|reflexivity]. reflexivity.
  - rewrite Hdb. split; [exact Hup | now left].
Qed.

(** X12. Blobs do not disturb one another: caching a text for one movie and
    language leaves what is read back for a different movie or language as
    it was, provided the two movie identifiers contain no underscore (the
    blob's file name joins movie and language with an underscore). *)
Theorem X12_blobs_are_per_pair `{SubtitleStorage.Codecs}
    self now m l content compress now' m' l' :
  free_of "_" m = true ->
  free_of "_" m' = true ->
  (m, l) <> (m', l') ->
  ending (fst (SubtitleStorage.get_cached_subtitle_content
                 (snd (SubtitleStorage.cache_subtitle_content self now m l content compress))
                 now' m' l'))
  = ending (fst (SubtitleStorage.get_cached_subtitle_content self now' m' l')).
Proof.
  intros Hm Hm' Hne.
  destruct (storage_get_returns
              (snd (SubtitleStorage.cache_subtitle_content self now m l content compress))
              now' m' l') as [tr1 [st1 ->]].
  destruct (storage_get_returns self now' m' l') as [tr2 [st2 ->]].
  cbn [fst ending snd]. f_equal. unfold stored_text.
  destruct (cache_subtitle_content_state self now m l content compress) as [Hup Hfs].
  cbn zeta in Hup, Hfs. rewrite Hup.
  destruct (SubtitleStorage.up (SubtitleStorage.db self)); [|reflexivity].
  destruct Hfs as [-> | [f [Hf ->]]]; [reflexivity|].
  rewrite find_other_name; [reflexivity | | exact Hf].
  intros Hname. apply blob_name_inj in Hname as [-> ->]; auto.
Qed.

Lemma X12_the_french_text_stays :
  ending (fst (SubtitleStorage.get_cached_subtitle_content (H := transparent)
                 (snd (SubtitleStorage.cache_subtitle_content (H := transparent) with_blob
                         (seconds 130) "tt1375666" "fr" "Bonjour" true))
                 (seconds 140) "tt1375666" "en"))
  = ending (fst (SubtitleStorage.get_cached_subtitle_content (H := transparent) with_blob
                   (seconds 140) "tt1375666" "en")).
Proof.
  apply (X12_blobs_are_per_pair (H := transparent));
    [reflexivity | reflexivity | discriminate].
Defined.

(** Without the proviso two pairs can share a blob. *)
Example underscore_in_the_movie_id :
  SubtitleStorage.blob_name "Inception_pt" "br" = SubtitleStorage.blob_name "Inception" "pt_br".
Proof. reflexivity. Qed.

(** ** Content processor: compression *)

(** X13. Compressing and decompressing are inverse: a text that the UTF-8
    codec encodes is compressed without an error, and decompressing the
    result returns the text. But [compress_subtitle_content] is not closed
    under its own [try]: when the codec refuses the text, the handler
    encodes it again, and that exception leaves the method. *)
Theorem X13_compression_round_trip `{SubtitleProcessor.Compression} :
  (forall content content_bytes,
      SubtitleProcessor.encode "utf-8" content = Ok content_bytes ->
      SubtitleProcessor.compress_subtitle_content SubtitleProcessor.init content
        = ([EvLog Info' "Compressed"], Return (SubtitleProcessor.gzip_compress content_bytes)) /\
      SubtitleProcessor.decompress_subtitle_content SubtitleProcessor.init
        (SubtitleProcessor.gzip_compress content_bytes)
        = ([], Return content)) /\
  (forall content e,
      SubtitleProcessor.encode "utf-8" content = Fail e ->
      SubtitleProcessor.compress_subtitle_content SubtitleProcessor.init content
        = ([EvLog Error' ("Compression error: " +:+ exn_text e)], Raise e)).
Proof.
  split.
  - intros content content_bytes Henc.
    unfold SubtitleProcessor.compress_subtitle_content,
      SubtitleProcessor.decompress_subtitle_content.
    cbn [SubtitleProcessor.init SubtitleProcessor.default_encoding].
    rewrite Henc, SubtitleProcessor.decompress_compress.
    cbn [call bind ret]. rewrite (SubtitleProcessor.decode_encode _ _ Henc).
    split; reflexivity.
  - intros content e Henc.
    unfold SubtitleProcessor.compress_subtitle_content.
    cbn [SubtitleProcessor.init SubtitleProcessor.default_encoding].
    rewrite Henc. reflexivity.
Qed.

Lemma X13_one_cue_survives_compression :
  SubtitleProcessor.decompress_subtitle_content (H0 := plain_codecs) SubtitleProcessor.init
    (SubtitleProcessor.gzip_compress (Compression := plain_codecs) one_cue)
    = ([], Return one_cue) /\
  SubtitleProcessor.compress_subtitle_content (H0 := refusing_codecs) SubtitleProcessor.init
    one_cue
    = ([EvLog Error' ("Compression error: " +:+ exn_text refused)], Raise refused).
Proof.
  split.
  - apply (proj1 (X13_compression_round_trip (H0 := plain_codecs)) one_cue one_cue).
    reflexivity.
  - apply (proj2 (X13_compression_round_trip (H0 := refusing_codecs)) one_cue refused).
    reflexivity.
Defined.

(** ** Content processor: timestamps *)

Lemma format_d_below_1000 (n : Z) :
  0 <= n < 1000 ->
  format_d 3 n = three n /\ (n < 100 -> format_d 2 n = two n).
Proof.
  intros Hn.
  assert (Hall : forallb (fun k => String.eqb (format_d 3 (Z.of_nat k)) (three (Z.of_nat k))
                                   && ((100 <=? k)%nat
                                       || String.eqb (format_d 2 (Z.of_nat k)) (two (Z.of_nat k))))
                   (seq 0 1000) = true) by (vm_compute; reflexivity).
  rewrite forallb_forall in Hall.
  specialize (Hall (Z.to_nat n)). rewrite Z2Nat.id in Hall by lia.
  apply andb_true_iff in Hall as [H3 H2]; [|apply in_seq; lia].
  apply String.eqb_eq in H3. split; [exact H3|].
  intros Hlt. apply orb_true_iff in H2 as [H2|H2].
  - apply Nat.leb_le in H2. lia.
  - now apply String.eqb_eq in H2.
Qed.

Lemma digit_value_char (d : Z) : 0 <= d < 10 -> digit_value (digit_char d) = Some d.
Proof.
  intros Hd.
  assert (Hall : forallb (fun k => match digit_value (digit_char (Z.of_nat k)) with
                                   | Some v => v =? Z.of_nat k
                                   | None => false
                                   end) (seq 0 10) = true) by (vm_compute; reflexivity).
  rewrite forallb_forall in Hall.
  specialize (Hall (Z.to_nat d)). rewrite Z2Nat.id in Hall by lia.
  destruct (digit_value (digit_char d)) as [v|]; [|discriminate Hall; apply in_seq; lia].
  f_equal. apply Z.eqb_eq. apply Hall. apply in_seq. lia.
Qed.

Lemma two_digits_two (n : Z) :
  0 <= n < 100 ->
  two_digits (digit_char (n / 10)) (digit_char (n mod 10)) = Some n.
Proof.
  intros Hn. unfold two_digits.
  rewrite !digit_value_char by (try apply Z.mod_pos_bound; try split;
    try apply Z.div_pos; try apply Z.div_lt_upper_bound; lia).
  f_equal. pose proof (Z.div_mod n 10). lia.
Qed.

Lemma is_digit_char (d : Z) : 0 <= d < 10 -> SubtitleProcessor.is_digit (digit_char d) = true.
Proof.
  intros Hd. pose proof (digit_value_char d Hd) as H. unfold digit_value in H.
  destruct (SubtitleProcessor.is_digit (digit_char d)); [reflexivity | discriminate].
Qed.

(** X14. A time below one hundred hours is rendered as the twelve
    characters HH:MM:SS.mmm: the text reads back to the same number of
    milliseconds, so different times give different texts, and it begins
    with a match of the pattern that validation counts as a timestamp. *)
Theorem X14_timestamps_read_back (milliseconds : Z) :
  0 <= milliseconds < 100 * 3600 * 1000 ->
  timestamp_ms (SubtitleProcessor._ms_to_timestamp milliseconds) = Some milliseconds /\
  String.length (SubtitleProcessor._ms_to_timestamp milliseconds) = 12%nat /\
  SubtitleProcessor.match_here SubtitleProcessor.time_pattern
    (SubtitleProcessor._ms_to_timestamp milliseconds) = true.
Proof.
  intros Hms.
  set (sec := milliseconds / 1000). set (f := milliseconds mod 1000).
  set (mn := sec / 60). set (s := sec mod 60).
  set (h := mn / 60). set (m := mn mod 60).
  assert (Hf : 0 <= f < 1000) by (apply Z.mod_pos_bound; lia).
  assert (Hsec : 0 <= sec < 100 * 3600).
  { split; [apply Z.div_pos; lia | apply Z.div_lt_upper_bound; lia]. }
  assert (Hs : 0 <= s < 60) by (apply Z.mod_pos_bound; lia).
  assert (Hmn : 0 <= mn < 100 * 60).
  { split; [apply Z.div_pos; lia | apply Z.div_lt_upper_bound; lia]. }
  assert (Hm : 0 <= m < 60) by (apply Z.mod_pos_bound; lia).
  assert (Hh : 0 <= h < 100).
  { split; [apply Z.div_pos; lia | apply Z.div_lt_upper_bound; lia]. }
  assert (E : SubtitleProcessor._ms_to_timestamp milliseconds =
              two h +:+ ":" +:+ two m +:+ ":" +:+ two s +:+ "." +:+ three f).
  { unfold SubtitleProcessor._ms_to_timestamp. fold sec f mn s h m.
    rewrite (proj2 (format_d_below_1000 h ltac:(lia))) by lia.
    rewrite (proj2 (format_d_below_1000 m ltac:(lia))) by lia.
    rewrite (proj2 (format_d_below_1000 s ltac:(lia))) by lia.
    now rewrite (proj1 (format_d_below_1000 f Hf)). }
  rewrite E. unfold two, three, two. rewrite !append_cons, !append_nil.
  assert (Hd : forall n, 0 <= n < 100 -> 0 <= n / 10 < 10 /\ 0 <= n mod 10 < 10).
  { intros n Hn. split; [split; [apply Z.div_pos; lia | apply Z.div_lt_upper_bound; lia]
                        | apply Z.mod_pos_bound; lia]. }
  assert (Hf1 : 0 <= f / 100 < 10).
  { split; [apply Z.div_pos; lia | apply Z.div_lt_upper_bound; lia]. }
  assert (Hf2 : 0 <= f mod 100 < 100) by (apply Z.mod_pos_bound; lia).
  split; [|split].
  - unfold timestamp_ms.
    rewrite !two_digits_two by lia.
    unfold three_digits. rewrite digit_value_char by lia. rewrite two_digits_two by lia.
    destruct (Z.ltb_spec m 60); [|lia]. destruct (Z.ltb_spec s 60); [|lia]. cbn [andb].
    f_equal.
    pose proof (Z.div_mod f 100). pose proof (Z.div_mod milliseconds 1000).
    pose proof (Z.div_mod sec 60). pose proof (Z.div_mod mn 60).
    subst f s m h mn sec. lia.
  - reflexivity.
  - cbn [SubtitleProcessor.time_pattern SubtitleProcessor.hh_mm_ss
         SubtitleProcessor.match_here SubtitleProcessor.repeats SubtitleProcessor.accepts
         SubtitleProcessor.digit SubtitleProcessor.lit].
    rewrite !is_digit_char by (apply Hd; lia). reflexivity.
Qed.

Lemma X14_ninety_minutes :
  SubtitleProcessor._ms_to_timestamp 5400250 = "01:30:00.250" /\
  timestamp_ms (SubtitleProcessor._ms_to_timestamp 5400250) = Some 5400250.
Proof.
  split; [reflexivity|].
  apply (X14_timestamps_read_back 5400250). lia.
Defined.

(** ** Content processor: guessing the language *)

Lemma foldl_max_split (rest : list (string * nat)) : forall first,
  let r := foldl (fun best x => if (snd best <? snd x)%nat then x else best) first rest in
  exists sb sa,
    first :: rest = sb ++ r :: sa /\
    (forall x, x ∈ sb -> (snd x < snd r)%nat) /\
    (forall x, x ∈ sa -> (snd x <= snd r)%nat).
Proof.
  induction rest as [|x rest IH]; intros first; cbn [foldl].
  - exists [], []. repeat split; intros y Hy; inversion Hy.
  - set (first' := if (snd first <? snd x)%nat then x else first).
    destruct (IH first') as [sb [sa [E [Hb Ha]]]]. cbn zeta in E, Hb, Ha |- *.
    remember (foldl (fun best x => if (snd best <? snd x)%nat then x else best) first' rest)
      as r eqn:Hr. clear Hr IH.
    destruct sb as [|b sb]; cbn [app] in E; injection E as E1 E2.
    + subst first'. destruct (Nat.ltb_spec (snd first) (snd x)) as [Hlt|Hge].
      * exists [first], sa. split; [cbn; congruence|]. split; [|exact Ha].
        intros y Hy. apply list_elem_of_singleton in Hy. subst y r. exact Hlt.
      * exists [], (x :: sa). split; [cbn; congruence|].
        split; [intros y Hy; inversion Hy|].
        intros y [->|Hy]%elem_of_cons; [subst r; exact Hge | now apply Ha].
    + exists (first :: x :: sb), sa. split; [cbn; congruence|]. split; [|exact Ha].
      assert (Hbr : (snd b < snd r)%nat) by (apply Hb; left).
      subst first'. 
      intros y [->|[->|Hy]%elem_of_cons]%elem_of_cons.
      * destruct (Nat.ltb_spec (snd first) (snd x)); subst b; lia.
      * destruct (Nat.ltb_spec (snd first) (snd x)); subst b; lia.
      * apply Hb. now right.
Qed.

Lemma omap_split {A B : Type} (h : A -> option B) (l : list A) : forall sb y sa,
  omap h l = sb ++ y :: sa ->
  exists before x after,
    l = before ++ x :: after /\ omap h before = sb /\ h x = Some y /\ omap h after = sa.
Proof.
  induction l as [|a l IH]; intros sb y sa E.
  - destruct sb; discriminate.
  - cbn [omap list_omap] in E. destruct (h a) as [b|] eqn:Ha.
    + destruct sb as [|b' sb].
      * cbn in E. inversion E; subst. exists [], a, l. repeat split. exact Ha.
      * cbn in E. inversion E; subst.
        destruct (IH _ _ _ H1) as [before [x [after [-> [Hb [Hx Hafter]]]]]].
        exists (a :: before), x, after. split; [reflexivity|].
        split; [cbn [omap list_omap]; now rewrite Ha, Hb|]. now split.
    + destruct (IH _ _ _ E) as [before [x [after [-> [Hb [Hx Hafter]]]]]].
      exists (a :: before), x, after. split; [reflexivity|].
      split; [cbn [omap list_omap]; now rewrite Ha|]. now split.
Qed.

Lemma omap_scored_le content (l : list (string * list string)) (bound : nat) (strict : bool) :
  (0 < bound)%nat ->
  (forall x, x ∈ omap (scored content) l ->
     if strict then (snd x < bound)%nat else (snd x <= bound)%nat) ->
  forall e, e ∈ l ->
    if strict then (language_score content e < bound)%nat
    else (language_score content e <= bound)%nat.
Proof.
  intros Hpos Hall e He.
  destruct (scored content e) as [y|] eqn:Hs.
  - assert (Hy : y ∈ omap (scored content) l) by (apply list_elem_of_omap; eauto).
    specialize (Hall y Hy). unfold scored in Hs.
    destruct (0 <? _)%nat; [|discriminate]. inversion Hs; subst y. exact Hall.
  - unfold scored in Hs. destruct (Nat.ltb_spec 0 (language_score content e)); [discriminate|].
    destruct strict; lia.
Qed.

Lemma count_from_zero (word s : string) :
  word <> "" ->
  SubtitleProcessor.count word s = 0%nat <-> contains word s = false.
Proof.
  intros Hword. unfold SubtitleProcessor.count.
  induction s as [|c s IH].
  - cbn. destruct word; [contradiction | tauto].
  - cbn [SubtitleProcessor.count_from contains].
    destruct (startswith (String c s) word); cbn [orb]; [split; discriminate | exact IH].
Qed.

Lemma indicator_score_zero (s : string) (words : list string) :
  Forall (fun w => w <> "") words ->
  SubtitleProcessor.indicator_score s words = 0%nat <->
  forall w, w ∈ words -> ~ is_substring w s.
Proof.
  unfold SubtitleProcessor.indicator_score.
  induction 1 as [|w words Hw Hws IH]; cbn [foldr].
  - split; [intros _ w Hin; inversion Hin | reflexivity].
  - rewrite Nat.eq_add_0, IH, (count_from_zero w s Hw). split.
    + intros [Hc Hrest] x [->|Hx]%elem_of_cons; [|now apply Hrest].
      rewrite <- contains_spec. congruence.
    + intros Hall. split.
      * apply not_true_is_false. rewrite contains_spec. apply Hall. left.
      * intros x Hx. apply Hall. now right.
Qed.

(** X15. The language guessed for an ASCII text is the one whose indicator
    words occur most often in the lowercased text, counting every
    occurrence as a substring; between languages with the same count the
    one earlier in the table (en, es, fr, de, it, pt, ru) is taken. No
    language is guessed exactly when no indicator word occurs at all. *)
Theorem X15_language_with_most_indicators (content : string) :
  ascii_text content ->
  let table := SubtitleProcessor.language_indicators in
  let detected := SubtitleProcessor._detect_language_from_content content in
  (detected = None <->
   forall lang words w, (lang, words) ∈ table -> w ∈ words -> ~ is_substring w (lower content)) /\
  (forall lang, detected = Some lang ->
     exists before words after,
       table = before ++ (lang, words) :: after /\
       (0 < language_score content (lang, words))%nat /\
       (forall e, e ∈ before ->
          (language_score content e < language_score content (lang, words))%nat) /\
       (forall e, e ∈ after ->
          (language_score content e <= language_score content (lang, words))%nat)).
Proof.
  intros _ table detected.
  assert (Hdet : detected = SubtitleProcessor.max_by_score (omap (scored content) table)).
  { reflexivity. }
  assert (Hwords : Forall (fun e => Forall (fun w => w <> "") (snd e)) table).
  { subst table. unfold SubtitleProcessor.language_indicators.
    repeat constructor; discriminate. }
  split.
  - rewrite Hdet. unfold SubtitleProcessor.max_by_score. split.
    + destruct (omap (scored content) table) as [|first rest] eqn:E; [|discriminate].
      intros _ lang words w Hin Hw.
      assert (Hs : scored content (lang, words) = None).
      { destruct (scored content (lang, words)) as [y|] eqn:Hy; [|reflexivity].
        assert (y ∈ omap (scored content) table) by (apply list_elem_of_omap; eauto).
        rewrite E in H. inversion H. }
      unfold scored in Hs. destruct (Nat.ltb_spec 0 (language_score content (lang, words)));
        [discriminate|].
      rewrite Forall_forall in Hwords. specialize (Hwords _ Hin).
      apply (proj1 (indicator_score_zero (lower content) words Hwords)); [|exact Hw].
      unfold language_score in *. cbn [snd] in *. lia.
    + intros Hnone.
      destruct (omap (scored content) table) as [|first rest] eqn:E; [reflexivity|].
      exfalso.
      assert (Hin : first ∈ omap (scored content) table) by (rewrite E; left).
      apply list_elem_of_omap in Hin as [[lang words] [Hin Hs]].
      unfold scored in Hs. destruct (Nat.ltb_spec 0 (language_score content (lang, words)));
        [|discriminate].
      rewrite Forall_forall in Hwords. specialize (Hwords _ Hin).
      assert (Hz : SubtitleProcessor.indicator_score (lower content) words = 0%nat).
      { apply indicator_score_zero; [exact Hwords|]. intros w Hw. now apply (Hnone lang words). }
      unfold language_score in *. cbn [snd] in *. lia.
  - intros lang Hlang. rewrite Hdet in Hlang. unfold SubtitleProcessor.max_by_score in Hlang.
    destruct (omap (scored content) table) as [|first rest] eqn:E; [discriminate|].
    destruct (foldl_max_split rest first) as [sb [sa [Esplit [Hb Ha]]]]. cbn zeta in *.
    set (r := foldl _ first rest) in *. inversion Hlang as [Hr].
    rewrite Esplit in E.
    destruct (omap_split _ _ _ _ _ E) as [before [[lang' words] [after [Htable [Eb [Hx Eafter]]]]]].
    unfold scored in Hx. destruct (Nat.ltb_spec 0 (language_score content (lang', words)));
      [|discriminate].
    inversion Hx as [Hrx]. rewrite <- Hrx in Hr. cbn [fst] in Hr. subst lang'.
    exists before, words, after. cbn [fst] in *. split; [exact Htable|]. split; [assumption|].
    assert (Hsc : snd r = language_score content (lang, words)) by now rewrite <- Hrx.
    rewrite <- Eb in Hb. rewrite <- Eafter in Ha. split.
    + intros e He.
      pose proof (omap_scored_le content before (snd r) true ltac:(lia) Hb e He) as Hlt.
      cbn [fst] in *. simpl in Hlt. lia.
    + intros e He.
      pose proof (omap_scored_le content after (snd r) false ltac:(lia) Ha e He) as Hle.
      cbn [fst] in *. simpl in Hle. lia.
Qed.

Lemma X15_que_is_spanish :
  SubtitleProcessor._detect_language_from_content "Que?" = Some "es" /\
  (exists before words after,
     SubtitleProcessor.language_indicators = before ++ ("es", words) :: after /\
     (0 < language_score "Que?" ("es", words))%nat /\
     (forall e, e ∈ before -> (language_score "Que?" e < language_score "Que?" ("es", words))%nat) /\
     (forall e, e ∈ after -> (language_score "Que?" e <= language_score "Que?" ("es", words))%nat)).
Proof.
  split; [reflexivity|].
  apply (proj2 (X15_language_with_most_indicators "Que?" eq_refl) "es"). reflexivity.
Defined.

(** ** Aggregation manager: reading a file name *)

Lemma blank_separators_chars (s : string) :
  all_in (fun c => negb (MovieInfo.is_separator c)) (MovieInfo.blank_separators s) = true.
Proof.
  induction s as [|c s IH]; [reflexivity|].
  cbn [MovieInfo.blank_separators all_in]. rewrite IH, andb_true_r.
  destruct (MovieInfo.is_separator c) eqn:E; [reflexivity | now rewrite E].
Qed.

Lemma collapse_spaces_chars (s : string) : forall in_run,
  all_in (fun c => negb (MovieInfo.is_separator c)) s = true ->
  all_in title_char (MovieInfo.collapse_spaces s in_run) = true.
Proof.
  induction s as [|c s IH]; intros in_run; [reflexivity|].
  cbn [all_in MovieInfo.collapse_spaces]. intros H.
  apply andb_true_iff in H as [Hc Hs].
  destruct (SubtitleProcessor.is_space c) eqn:Ec.
  - destruct in_run; [now apply IH|].
    cbn [all_in]. rewrite (IH true Hs). reflexivity.
  - cbn [all_in]. rewrite (IH false Hs). unfold title_char. now rewrite Hc, Ec.
Qed.

Lemma collapse_spaces_apart (s : string) : forall in_run,
  blanks_apart (MovieInfo.collapse_spaces s in_run) = true /\
  (in_run = true -> starts_blank (MovieInfo.collapse_spaces s in_run) = false).
Proof.
  induction s as [|c s IH]; intros in_run; [now split|].
  cbn [MovieInfo.collapse_spaces].
  destruct (SubtitleProcessor.is_space c) eqn:Ec.
  - destruct in_run.
    + apply IH.
    + destruct (IH true) as [H1 H2]. split; [|discriminate].
      cbn [blanks_apart]. now rewrite (H2 eq_refl), andb_false_r, H1.
  - destruct (IH false) as [H1 _]. split.
    + cbn [blanks_apart]. now rewrite Ec, H1.
    + intros _. cbn. exact Ec.
Qed.

Lemma blanks_apart_tail c s : blanks_apart (String c s) = true -> blanks_apart s = true.
Proof. cbn [blanks_apart]. intros H. now apply andb_true_iff in H as [_ H]. Qed.

Lemma all_in_tail cls c s : all_in cls (String c s) = true -> all_in cls s = true.
Proof. cbn [all_in]. intros H. now apply andb_true_iff in H as [_ H]. Qed.

Lemma lstrip_keeps (cls : ascii -> bool) (s : string) :
  all_in cls s = true -> blanks_apart s = true ->
  all_in cls (SubtitleProcessor.lstrip s) = true /\
  blanks_apart (SubtitleProcessor.lstrip s) = true /\
  starts_blank (SubtitleProcessor.lstrip s) = false.
Proof.
  induction s as [|c s IH]; intros Ha Hb; [now repeat split|].
  cbn [SubtitleProcessor.lstrip].
  destruct (SubtitleProcessor.is_space c) eqn:Ec.
  - apply IH; [eapply all_in_tail | eapply blanks_apart_tail]; eassumption.
  - repeat split; assumption.
Qed.

Lemma rstrip_head (s : string) e q :
  SubtitleProcessor.rstrip s = String e q -> exists r, s = String e r.
Proof.
  destruct s as [|c s]; [discriminate|]. cbn [SubtitleProcessor.rstrip].
  destruct (SubtitleProcessor.rstrip s).
  - destruct (SubtitleProcessor.is_space c); [discriminate|].
    intros H; inversion H; subst. now exists s.
  - intros H; inversion H; subst. now exists s.
Qed.

Lemma rstrip_keeps (cls : ascii -> bool) (s : string) :
  all_in cls s = true -> blanks_apart s = true ->
  all_in cls (SubtitleProcessor.rstrip s) = true /\
  blanks_apart (SubtitleProcessor.rstrip s) = true /\
  ends_blank (SubtitleProcessor.rstrip s) = false /\
  (starts_blank s = false -> starts_blank (SubtitleProcessor.rstrip s) = false).
Proof.
  induction s as [|c s IH]; intros Ha Hb; [now repeat split|].
  pose proof (all_in_tail _ _ _ Ha) as Ha'.
  pose proof (blanks_apart_tail _ _ Hb) as Hb'.
  assert (Hc : cls c = true) by (cbn [all_in] in Ha; now apply andb_true_iff in Ha as [Ha _]).
  destruct (IH Ha' Hb') as (I1 & I2 & I3 & I4).
  cbn [SubtitleProcessor.rstrip].
  destruct (SubtitleProcessor.rstrip s) as [|e q] eqn:E.
  - destruct (SubtitleProcessor.is_space c) eqn:Ec; [now repeat split|].
    cbn. rewrite Hc, Ec. now repeat split.
  - destruct (rstrip_head _ _ _ E) as [r ->].
    cbn [blanks_apart starts_blank] in Hb.
    apply andb_true_iff in Hb as [Hce _].
    repeat split.
    + cbn [all_in]. cbn [all_in] in I1. now rewrite Hc.
    + change (negb (SubtitleProcessor.is_space c && SubtitleProcessor.is_space e)
              && blanks_apart (String e q) = true).
      now rewrite Hce, I2.
    + exact I3.
    + intros H. exact H.
Qed.

Lemma ends_blank_tail c s : s <> "" -> ends_blank (String c s) = ends_blank s.
Proof. destruct s; [congruence | reflexivity]. Qed.

Lemma blanks_inside (t : string) :
  all_in title_char t = true -> blanks_apart t = true -> ends_blank t = false ->
  forall pre c post, t = pre +:+ String c post ->
    MovieInfo.is_separator c = false /\
    (SubtitleProcessor.is_space c = true ->
     c = " "%char /\
     exists d post', post = String d post' /\ SubtitleProcessor.is_space d = false).
Proof.
  intros Ha Hb He pre. revert t Ha Hb He.
  induction pre as [|p pre IH]; intros t Ha Hb He c post ->.
  - rewrite ?append_cons, ?append_nil in *. cbn [all_in] in Ha. apply andb_true_iff in Ha as [Hc _].
    unfold title_char in Hc. apply andb_true_iff in Hc as [Hsep Hsp].
    split; [now destruct (MovieInfo.is_separator c)|].
    intros Ec. rewrite Ec in Hsp. cbn in Hsp.
    apply Ascii.eqb_eq in Hsp. split; [exact Hsp|].
    destruct post as [|d post'].
    + cbn in He. congruence.
    + exists d, post'. split; [reflexivity|].
      cbn [blanks_apart starts_blank] in Hb. rewrite Ec in Hb.
      now destruct (SubtitleProcessor.is_space d).
  - rewrite ?append_cons, ?append_nil in *.
    apply (IH (pre +:+ String c post)); try reflexivity.
    + eapply all_in_tail; eassumption.
    + eapply blanks_apart_tail; eassumption.
    + rewrite ends_blank_tail in He; [exact He|]. now destruct pre.
Qed.

Lemma tidy_of_checks (t : string) :
  all_in title_char t = true -> blanks_apart t = true ->
  starts_blank t = false -> ends_blank t = false -> tidy t.
Proof.
  intros Ha Hb Hs He pre c post Ht.
  destruct (blanks_inside t Ha Hb He pre c post Ht) as [H1 H2].
  split; [exact H1|]. intros Ec. destruct (H2 Ec) as [H3 H4].
  repeat split; try assumption.
  intros ->. subst t. rewrite append_nil in Hs. cbn in Hs. congruence.
Qed.

(** X16. The title [extract_movie_info] returns is in normal form,
    whatever the file name: it holds none of the separators [._-[]()],
    and white space only as single blanks between other characters, so
    it neither starts nor ends with a blank. *)
Theorem X16_title_is_tidy (filename : string) :
  tidy (MovieInfo.title (MovieInfo.extract_movie_info filename)).
Proof.
  unfold MovieInfo.extract_movie_info. cbn [MovieInfo.title].
  set (removed := foldl _ filename _).
  pose proof (blank_separators_chars removed) as H0.
  pose proof (collapse_spaces_chars _ false H0) as H1.
  destruct (collapse_spaces_apart (MovieInfo.blank_separators removed) false) as [H2 _].
  destruct (lstrip_keeps _ _ H1 H2) as (L1 & L2 & L3).
  destruct (rstrip_keeps _ _ L1 L2) as (R1 & R2 & R3 & R4).
  apply tidy_of_checks; auto.
Qed.

(** *** The year *)

Lemma digit_is_word (c : ascii) :
  SubtitleProcessor.is_digit c = true -> MovieInfo.is_word c = true.
Proof.
  destruct c as [[] [] [] [] [] [] [] []]; vm_compute; congruence.
Qed.

Lemma last_char_app (pre : string) : forall before c rest,
  last_char before (pre +:+ String c rest) = last_char (Some c) rest.
Proof.
  induction pre as [|p pre IH]; intros before c rest.
  - now rewrite append_nil.
  - rewrite append_cons. cbn [last_char]. apply IH.
Qed.

(** What [re.search] finds: the leftmost position where the pattern
    matches. *)
Lemma leftmost_match (p : MovieInfo.matcher) (s : string) : forall before,
  match MovieInfo.search p before s with
  | Some m =>
      exists pre rest n,
        s = pre +:+ rest /\ p (last_char before pre) rest = Some n /\ m = take_chars n rest /\
        forall pre' rest', s = pre' +:+ rest' ->
          (String.length pre' < String.length pre)%nat ->
          p (last_char before pre') rest' = None
  | None => forall pre rest, s = pre +:+ rest -> p (last_char before pre) rest = None
  end.
Proof.
  induction s as [|c s IH]; intros before; cbn [MovieInfo.search].
  - destruct (p before "") as [n|] eqn:E.
    + exists "", "", n. rewrite append_nil. repeat split; try assumption.
      intros pre' rest' _ Hlt. cbn in Hlt. lia.
    + intros pre rest H. destruct pre; [|rewrite append_cons in H; discriminate].
      rewrite append_nil in H. subst rest. exact E.
  - destruct (p before (String c s)) as [n|] eqn:E.
    + exists "", (String c s), n. rewrite append_nil. repeat split; try assumption.
      intros pre' rest' _ Hlt. cbn in Hlt. lia.
    + specialize (IH (Some c)).
      destruct (MovieInfo.search p (Some c) s) as [m|].
      * destruct IH as (pre & rest & n & Hs & Hp & Hm & Hleft).
        exists (String c pre), rest, n. rewrite append_cons, <- Hs.
        repeat split; try assumption.
        intros pre' rest' H Hlt.
        destruct pre' as [|c' pre'].
        -- rewrite append_nil in H. subst rest'. exact E.
        -- rewrite append_cons in H. inversion H; subst c'.
           cbn [last_char]. apply Hleft; [assumption|]. cbn in Hlt. lia.
      * intros pre rest H.
        destruct pre as [|c' pre].
        -- rewrite append_nil in H. subst rest. exact E.
        -- rewrite append_cons in H. inversion H; subst c'.
           cbn [last_char]. now apply IH.
Qed.

Lemma boundary_word_after (d : ascii) (rest : string) :
  MovieInfo.is_word d = true ->
  MovieInfo.boundary (Some d) rest = negb (word_after rest).
Proof. intros H. unfold MovieInfo.boundary, word_after. rewrite H. now destruct rest. Qed.

Lemma boundary_word_before (before : option ascii) (c : ascii) (rest : string) :
  MovieInfo.is_word c = true ->
  MovieInfo.boundary before (String c rest) =
  negb (match before with Some b => MovieInfo.is_word b | None => false end).
Proof. intros H. unfold MovieInfo.boundary. rewrite H. now destruct before as [b|]; [destruct (MovieInfo.is_word b)|]. Qed.

(** Which texts begin with 19 or 20. *)
Lemma century (a b : ascii) (tail : string) :
  startswith (String a (String b tail)) "19" || startswith (String a (String b tail)) "20"
  = (Ascii.eqb a "1" && Ascii.eqb b "9") || (Ascii.eqb a "2" && Ascii.eqb b "0").
Proof.
  cbn [startswith]. rewrite !(Ascii.eqb_sym _ a), !(Ascii.eqb_sym _ b).
  destruct (Ascii.eqb a "1"), (Ascii.eqb b "9"), (Ascii.eqb a "2"), (Ascii.eqb b "0"),
    tail; reflexivity.
Qed.

Lemma century_word (a b : ascii) :
  (Ascii.eqb a "1" && Ascii.eqb b "9") || (Ascii.eqb a "2" && Ascii.eqb b "0") = true ->
  MovieInfo.is_word a = true /\
  SubtitleProcessor.is_digit a = true /\ SubtitleProcessor.is_digit b = true.
Proof.
  destruct (Ascii.eqb a "1") eqn:E1; destruct (Ascii.eqb b "9") eqn:E2;
  destruct (Ascii.eqb a "2") eqn:E3; destruct (Ascii.eqb b "0") eqn:E4;
    try discriminate; intros _;
    repeat match goal with H : Ascii.eqb _ _ = true |- _ => apply Ascii.eqb_eq in H; subst end;
    repeat split; reflexivity.
Qed.

(** Where [year_pattern] matches. *)
Lemma year_pattern_spec (before : option ascii) (rest : string) :
  match MovieInfo.year_pattern before rest with
  | Some n =>
      n = 4%nat /\ year_like (take_chars 4 rest) = true /\
      rest = take_chars 4 rest +:+ drop_chars 4 rest /\
      match before with Some c => MovieInfo.is_word c | None => false end = false /\
      word_after (drop_chars 4 rest) = false
  | None =>
      forall y post, rest = y +:+ post -> year_like y = true ->
        match before with Some c => MovieInfo.is_word c | None => false end = true \/
        word_after post = true
  end.
Proof.
  unfold MovieInfo.year_pattern.
  destruct rest as [|a [|b [|d1 [|d2 tail]]]].
  1-4: destruct (_ && _); intros y post Hy Hl; unfold year_like in Hl;
       destruct y as [|y1 [|y2 [|y3 [|y4 [|y5 y]]]]]; try discriminate;
       rewrite ?append_cons, ?append_nil in Hy; discriminate.
  rewrite century.
  destruct ((Ascii.eqb a "1" && Ascii.eqb b "9") || (Ascii.eqb a "2" && Ascii.eqb b "0"))
    eqn:Hc.
  - destruct (century_word a b Hc) as (Hw & Ha & Hb).
    rewrite (boundary_word_before before a _ Hw), andb_true_r.
    destruct (match before with Some c => MovieInfo.is_word c | None => false end) eqn:Hbefore;
      cbn [negb].
    + intros; now left.
    + destruct (SubtitleProcessor.is_digit d1) eqn:H1; cbn [andb].
      * destruct (SubtitleProcessor.is_digit d2) eqn:H2; cbn [andb].
        -- rewrite (boundary_word_after d2 tail (digit_is_word _ H2)).
           destruct (word_after tail) eqn:Hafter; cbn [negb].
           ++ intros y post Hy Hl. right.
              unfold year_like in Hl.
              destruct y as [|y1 [|y2 [|y3 [|y4 [|y5 y]]]]]; try discriminate.
              rewrite !append_cons, append_nil in Hy. inversion Hy; subst. exact Hafter.
           ++ cbn [take_chars drop_chars]. rewrite !append_cons, append_nil.
              repeat split; try assumption.
              unfold year_like. cbn [String.length Nat.eqb all_in].
              rewrite century, Hc, Ha, Hb, H1, H2. reflexivity.
        -- intros y post Hy Hl. exfalso. unfold year_like in Hl.
           destruct y as [|y1 [|y2 [|y3 [|y4 [|y5 y]]]]]; try discriminate.
           rewrite !append_cons, append_nil in Hy. inversion Hy; subst.
           cbn [all_in] in Hl. rewrite H2, !andb_false_r in Hl. discriminate.
      * intros y post Hy Hl. exfalso. unfold year_like in Hl.
        destruct y as [|y1 [|y2 [|y3 [|y4 [|y5 y]]]]]; try discriminate.
        rewrite !append_cons, append_nil in Hy. inversion Hy; subst.
        cbn [all_in] in Hl. rewrite H1, !andb_false_r in Hl. discriminate.
  - rewrite andb_false_r.
    intros y post Hy Hl. exfalso. unfold year_like in Hl.
    destruct y as [|y1 [|y2 [|y3 [|y4 [|y5 y]]]]]; try discriminate.
    rewrite !append_cons, append_nil in Hy. inversion Hy; subst.
    rewrite century, Hc in Hl. cbn in Hl. discriminate.
Qed.

(** X17. The year [extract_movie_info] reports is the leftmost year that
    stands on its own in the file name: four digits beginning with 19 or
    20 that no letter, digit or underscore touches. No year is reported
    exactly when the name holds no such year. *)
Theorem X17_year_is_the_leftmost_whole_year (filename : string) :
  match MovieInfo.year (MovieInfo.extract_movie_info filename) with
  | Some y =>
      exists pre post,
        year_at filename pre y post /\
        forall pre' y' post', year_at filename pre' y' post' ->
          (String.length pre <= String.length pre')%nat
  | None => forall pre y post, ~ year_at filename pre y post
  end.
Proof.
  unfold MovieInfo.extract_movie_info. cbn [MovieInfo.year].
  pose proof (leftmost_match MovieInfo.year_pattern filename None) as H.
  destruct (MovieInfo.search MovieInfo.year_pattern None filename) as [m|].
  - destruct H as (pre & rest & n & Hf & Hp & Hm & Hleft).
    pose proof (year_pattern_spec (last_char None pre) rest) as Hy. rewrite Hp in Hy.
    destruct Hy as (-> & Hlike & Hrest & Hbefore & Hafter).
    exists pre, (drop_chars 4 rest). split.
    + unfold year_at, word_before. subst m. rewrite <- Hrest. auto.
    + intros pre' y' post' (Hf' & Hlike' & Hbefore' & Hafter').
      destruct (le_lt_dec (String.length pre) (String.length pre')) as [Hle|Hlt];
        [exact Hle|].
      exfalso. specialize (Hleft pre' (y' +:+ post') Hf' Hlt).
      pose proof (year_pattern_spec (last_char None pre') (y' +:+ post')) as Hy.
      rewrite Hleft in Hy. destruct (Hy y' post' eq_refl Hlike') as [Hw|Hw].
      * unfold word_before in Hbefore'. congruence.
      * congruence.
  - intros pre y post (Hf & Hlike & Hbefore & Hafter).
    specialize (H pre (y +:+ post) Hf).
    pose proof (year_pattern_spec (last_char None pre) (y +:+ post)) as Hy.
    rewrite H in Hy. destruct (Hy y post eq_refl Hlike) as [Hw|Hw].
    + unfold word_before in Hbefore. congruence.
    + congruence.
Qed.

(** *** Season and episode *)

Lemma letter_cases (c a b : ascii) : Ascii.eqb c a || Ascii.eqb c b = true <-> c = a \/ c = b.
Proof.
  rewrite orb_true_iff, !Ascii.eqb_eq. reflexivity.
Qed.

Lemma E_is_no_digit (c : ascii) :
  (c = "E" \/ c = "e")%char -> SubtitleProcessor.is_digit c = false.
Proof. intros [->| ->]; reflexivity. Qed.

(** The digit groups [\d{1,2}] can take at the start of a text. *)
Lemma digit_runs_spec (s : string) (g rest : string) :
  In (g, rest) (MovieInfo.digit_runs s) <-> s = g +:+ rest /\ digit_group g = true.
Proof.
  unfold MovieInfo.digit_runs, digit_group. split.
  - destruct s as [|a s]; [intros []|].
    destruct (SubtitleProcessor.is_digit a) eqn:Ha; [|intros []].
    destruct s as [|b s].
    + intros [H|[]]. inversion H; subst. cbn. now rewrite Ha.
    + destruct (SubtitleProcessor.is_digit b) eqn:Hb.
      * intros [H|[H|[]]]; inversion H; subst; cbn; now rewrite Ha, ?Hb.
      * intros [H|[]]. inversion H; subst. cbn. now rewrite Ha.
  - intros [-> H].
    destruct g as [|a [|b [|c g]]]; cbn in H; try discriminate.
    + rewrite append_cons, append_nil.
      destruct (SubtitleProcessor.is_digit a); [|discriminate].
      destruct rest as [|b rest]; [now left|].
      destruct (SubtitleProcessor.is_digit b); [right; now left | now left].
    + rewrite !append_cons, append_nil.
      destruct (SubtitleProcessor.is_digit a); [|discriminate].
      destruct (SubtitleProcessor.is_digit b); [|discriminate]. now left.
    + rewrite !andb_false_r in H. discriminate.
Qed.

Lemma first_some_spec {A B : Type} (f : A -> option B) (l : list A) :
  match MovieInfo.first_some f l with
  | Some y => exists x, In x l /\ f x = Some y
  | None => forall x, In x l -> f x = None
  end.
Proof.
  induction l as [|x l IH]; cbn [MovieInfo.first_some]; [intros x []|].
  destruct (f x) as [y|] eqn:E.
  - exists x. split; [now left | exact E].
  - destruct (MovieInfo.first_some f l) as [y|].
    + destruct IH as (x' & Hin & Hx'). exists x'. split; [now right | exact Hx'].
    + intros x' [<-|Hin]; [exact E | now apply IH].
Qed.

(** Where the episode pattern matches. *)
Lemma series_groups_spec (s : string) :
  match MovieInfo.series_groups s with
  | Some (sd, ed) => exists m post, s = m +:+ post /\ series_marker m sd ed
  | None => forall m sd ed post, s = m +:+ post -> ~ series_marker m sd ed
  end.
Proof.
  unfold MovieInfo.series_groups.
  destruct s as [|c rest].
  { intros m sd ed post H (c1 & c2 & -> & _). rewrite append_cons in H. discriminate. }
  destruct (Ascii.eqb c "S" || Ascii.eqb c "s") eqn:Hc.
  2:{ intros m sd ed post H (c1 & c2 & -> & H1 & _).
      rewrite append_cons in H. inversion H; subst c1.
      apply letter_cases in H1. congruence. }
  apply letter_cases in Hc.
  match goal with |- context [MovieInfo.first_some ?f ?l] =>
    pose proof (first_some_spec f l) as H; destruct (MovieInfo.first_some f l) as [[sd ed]|]
  end.
  - destruct H as ([season rest1] & Hin & Hf).
    apply digit_runs_spec in Hin as [-> Hsd].
    destruct rest1 as [|e rest2]; [discriminate|].
    destruct (Ascii.eqb e "E" || Ascii.eqb e "e") eqn:He; [|discriminate].
    apply letter_cases in He.
    destruct (MovieInfo.digit_runs rest2) as [|[episode r] runs] eqn:Hruns; [discriminate|].
    inversion Hf; subst season episode.
    assert (Hin : In (ed, r) (MovieInfo.digit_runs rest2)) by (rewrite Hruns; now left).
    apply digit_runs_spec in Hin as [-> Hed].
    exists (String c (sd +:+ String e ed)), r. split.
    + rewrite append_cons, append_assoc, append_cons. reflexivity.
    + exists c, e. auto.
  - intros m sd ed post Hs (c1 & c2 & -> & H1 & H2 & Hsd & Hed).
    rewrite append_cons, append_assoc, append_cons in Hs. inversion Hs; subst c1 rest.
    assert (Hin : In (sd, String c2 (ed +:+ post))
                     (MovieInfo.digit_runs (sd +:+ String c2 (ed +:+ post))))
      by now apply digit_runs_spec.
    specialize (H _ Hin). cbn beta iota in H.
    apply letter_cases in H2. rewrite H2 in H.
    assert (Hin' : In (ed, post) (MovieInfo.digit_runs (ed +:+ post)))
      by now apply digit_runs_spec.
    destruct (MovieInfo.digit_runs (ed +:+ post)) as [|[episode r] runs]; [destruct Hin'|].
    discriminate.
Qed.

Lemma search_series_spec (s : string) :
  match MovieInfo.search_series s with
  | Some (sd, ed) => exists pre m post, s = pre +:+ m +:+ post /\ series_marker m sd ed
  | None => forall pre m sd ed post, s = pre +:+ m +:+ post -> ~ series_marker m sd ed
  end.
Proof.
  induction s as [|c s IH]; cbn [MovieInfo.search_series].
  - pose proof (series_groups_spec "") as H.
    destruct (MovieInfo.series_groups "") as [[sd ed]|].
    + destruct H as (m & post & Hs & Hm). exists "", m, post. now rewrite append_nil.
    + intros pre m sd ed post Hs. destruct pre; [|rewrite append_cons in Hs; discriminate].
      rewrite append_nil in Hs. now apply (H m sd ed post).
  - pose proof (series_groups_spec (String c s)) as H.
    destruct (MovieInfo.series_groups (String c s)) as [[sd ed]|].
    + destruct H as (m & post & Hs & Hm). exists "", m, post. now rewrite append_nil.
    + destruct (MovieInfo.search_series s) as [[sd ed]|].
      * destruct IH as (pre & m & post & Hs & Hm).
        exists (String c pre), m, post. rewrite append_cons, <- Hs. now split.
      * intros pre m sd ed post Hs.
        destruct pre as [|c' pre].
        -- rewrite append_nil in Hs. now apply (H m sd ed post).
        -- rewrite append_cons in Hs. inversion Hs; subst c'.
           now apply (IH pre m sd ed post).
Qed.

(** The number a digit group spells: the group is that number in
    decimal, padded with a zero when it has two digits. *)
Lemma int_of_digit_group (g : string) :
  digit_group g = true ->
  0 <= MovieInfo.int_of_digits g 0 <= 99 /\
  g = format_d (String.length g) (MovieInfo.int_of_digits g 0).
Proof.
  intros H. unfold digit_group in H.
  destruct g as [|a [|b [|c g]]]; cbn in H; try discriminate.
  - destruct a as [[] [] [] [] [] [] [] []]; try discriminate H; vm_compute;
      (split; [split; discriminate | reflexivity]).
  - destruct a as [[] [] [] [] [] [] [] []]; try discriminate H;
    destruct b as [[] [] [] [] [] [] [] []]; try discriminate H; vm_compute;
      (split; [split; discriminate | reflexivity]).
  - rewrite !andb_false_r in H. discriminate.
Qed.

(** X18. A file name is taken for an episode exactly when it holds a
    marker S<digits>E<digits> (either case, one or two digits each). The
    season and the episode are then the numbers, at most 99, that the
    digit groups of one such marker spell; otherwise both are None. *)
Theorem X18_series_fields (filename : string) :
  let info := MovieInfo.extract_movie_info filename in
  if MovieInfo.is_series info then
    exists pre m post sd ed season episode,
      filename = pre +:+ m +:+ post /\ series_marker m sd ed /\
      MovieInfo.season info = Some season /\ MovieInfo.episode info = Some episode /\
      0 <= season <= 99 /\ 0 <= episode <= 99 /\
      sd = format_d (String.length sd) season /\ ed = format_d (String.length ed) episode
  else
    MovieInfo.season info = None /\ MovieInfo.episode info = None /\
    forall pre m post sd ed, filename = pre +:+ m +:+ post -> ~ series_marker m sd ed.
Proof.
  unfold MovieInfo.extract_movie_info.
  cbn [MovieInfo.is_series MovieInfo.season MovieInfo.episode].
  pose proof (search_series_spec filename) as H.
  destruct (MovieInfo.search_series filename) as [[sd ed]|]; cbn [option_map].
  - destruct H as (pre & m & post & Hs & Hm).
    pose proof Hm as (c1 & c2 & _ & _ & _ & Hsd & Hed).
    destruct (int_of_digit_group sd Hsd) as [R1 S1].
    destruct (int_of_digit_group ed Hed) as [R2 S2].
    exists pre, m, post, sd, ed, (MovieInfo.int_of_digits sd 0), (MovieInfo.int_of_digits ed 0).
    repeat split; try assumption; lia.
  - repeat split. intros pre m post sd ed Hs. now apply (H pre m sd ed post).
Qed.

(** A release name as the bot meets them, and a name whose year only
    appears once the episode marker has been taken out. *)
Example a_release_name :
  MovieInfo.extract_movie_info "Inception.2010.1080p.BluRay.x264.mkv"
  = {| MovieInfo.title := "Inception x264 mkv";
       MovieInfo.year := Some "2010";
       MovieInfo.quality := Some "1080p";
       MovieInfo.format := Some "BluRay";
       MovieInfo.is_series := false;
       MovieInfo.season := None;
       MovieInfo.episode := None |}.
Proof. vm_compute. reflexivity. Qed.

Example a_year_left_in_the_title :
  MovieInfo.extract_movie_info "19S01E0199"
  = {| MovieInfo.title := "1999";
       MovieInfo.year := None;
       MovieInfo.quality := None;
       MovieInfo.format := None;
       MovieInfo.is_series := true;
       MovieInfo.season := Some 1;
       MovieInfo.episode := Some 1 |}.
Proof. vm_compute. reflexivity. Qed.

(** ** Hash-lookup provider: the hash of a file *)

Lemma append_nil_r (s : string) : s +:+ "" = s.
Proof. induction s as [|c s IH]; [reflexivity|]. now rewrite append_cons, IH. Qed.

Lemma length_doubled (k : nat) : forall s,
  String.length (doubled k s) = (2 ^ k * String.length s)%nat.
Proof.
  induction k as [|k IH]; intros s; cbn [doubled].
  - cbn. lia.
  - rewrite IH, length_append, Nat.pow_succ_r'. lia.
Qed.

Lemma block_size : (2 ^ 16 * 1 = 64 * 1024)%nat.
Proof. apply Nat2Z.inj. rewrite !Nat2Z.inj_mul, Nat2Z.inj_pow. reflexivity. Qed.

Lemma take_chars_app (first rest : string) :
  take_chars (String.length first) (first +:+ rest) = first.
Proof.
  induction first as [|c first IH]; [now destruct rest|].
  rewrite append_cons. cbn [String.length take_chars]. now rewrite IH.
Qed.

Lemma substring_all (s : string) : substring 0 (String.length s) s = s.
Proof. induction s as [|c s IH]; [reflexivity|]. cbn [String.length substring]. now rewrite IH. Qed.

Lemma last_chars_app (front last : string) :
  last_chars (String.length last) (front +:+ last) = last.
Proof.
  unfold last_chars. rewrite length_append.
  replace (String.length front + String.length last - String.length last)%nat
    with (String.length front) by lia.
  induction front as [|c front IH].
  - rewrite append_nil. apply substring_all.
  - rewrite append_cons. cbn [String.length substring]. exact IH.
Qed.

(** X19. The hash of a file is the digest of its first 64 KiB followed by
    its last 64 KiB, which overlap in a file shorter than 128 KiB. A file
    shorter than 64 KiB, and a file that cannot be read, have no hash:
    the answer is None and one error line is logged. *)
Theorem X19_file_hash_reads_both_ends (md5_hexdigest : string -> string) :
  (forall content first rest front last,
     content = first +:+ rest -> content = front +:+ last ->
     String.length first = (64 * 1024)%nat -> String.length last = (64 * 1024)%nat ->
     SubDBAPI._calculate_file_hash md5_hexdigest (Return content)
     = ([], Return (Some (md5_hexdigest (first +:+ last))))) /\
  (forall content,
     (String.length content < 64 * 1024)%nat ->
     ending (SubDBAPI._calculate_file_hash md5_hexdigest (Return content)) = Return None /\
     length (logged (SubDBAPI._calculate_file_hash md5_hexdigest (Return content))) = 1%nat) /\
  (forall e,
     ending (SubDBAPI._calculate_file_hash md5_hexdigest (Raise e)) = Return None /\
     length (logged (SubDBAPI._calculate_file_hash md5_hexdigest (Raise e))) = 1%nat).
Proof.
  unfold SubDBAPI._calculate_file_hash.
  generalize (64 * 1024)%nat. intros n. repeat split.
  - intros content first rest front last Hfirst Hlast Hn1 Hn2.
    cbn [lift bind try_except].
    assert (Hlen : (String.length content <? n)%nat = false).
    { apply Nat.ltb_ge. rewrite Hfirst, length_append. lia. }
    rewrite Hlen. cbn.
    rewrite <- Hn1 at 1. rewrite Hfirst at 1. rewrite take_chars_app.
    rewrite <- Hn2. rewrite Hlast. rewrite last_chars_app. reflexivity.
  - cbn [lift bind try_except].
    apply Nat.ltb_lt in H. rewrite H. reflexivity.
  - cbn [lift bind try_except].
    apply Nat.ltb_lt in H. rewrite H. reflexivity.
Qed.

Lemma X19_hash_of_one_block :
  SubDBAPI._calculate_file_hash length_digest (Return one_block)
  = ([], Return (Some (length_digest (one_block +:+ one_block)))).
Proof.
  destruct (X19_file_hash_reads_both_ends length_digest) as [H _].
  apply (H one_block one_block "" "" one_block).
  - symmetry. apply append_nil_r.
  - symmetry. apply append_nil.
  - unfold one_block. rewrite length_doubled. exact block_size.
  - unfold one_block. rewrite length_doubled. exact block_size.
Defined.

(** ** Facade: initialization *)

(** X20. While the document store is down, [initialize_subtitle_system]
    answers False after the store's three connection attempts (sleeping
    2 s and 4 s): the facade stays uninitialized, holds no component,
    counts one more error and keeps its text. Once the store is up the
    next call answers True without sleeping, and the facade is
    initialized with the error count back at 0. *)
Theorem X20_initialization_failure_and_recovery
    (self : SubtitleDatabase.t) (down up : SubtitleStorage.server)
    (redis redis' : CacheManager.server) :
  SubtitleDatabase._initialized self = false ->
  SubtitleStorage.up down = false ->
  SubtitleStorage.up up = true ->
  exists tr self1 tr' self2,
    SubtitleDatabase.initialize_subtitle_system true down redis self
      = ((tr, Return false), self1) /\
    sleeps tr = [seconds 2; seconds 4] /\
    SubtitleDatabase._initialized self1 = false /\
    SubtitleDatabase.storage self1 = None /\
    SubtitleDatabase.cache self1 = None /\
    SubtitleDatabase.api_manager self1 = None /\
    SubtitleDatabase._error_count self1 = SubtitleDatabase._error_count self + 1 /\
    SubtitleDatabase._last_error self1
      = Some (exn_text SubtitleStorage.ServerSelectionTimeoutError) /\
    SubtitleDatabase.initialize_subtitle_system true up redis' self1
      = ((tr', Return true), self2) /\
    sleeps tr' = [] /\
    SubtitleDatabase._initialized self2 = true /\
    SubtitleDatabase._error_count self2 = 0 /\
    SubtitleDatabase._last_error self2 = None /\
    (exists st, SubtitleDatabase.storage self2 = Some st /\
                SubtitleStorage._connected st = true /\ SubtitleStorage.db st = up).
Proof.
  intros Hinit Hdown Hup.
  unfold SubtitleDatabase.initialize_subtitle_system, SubtitleDatabase.guarded,
    SubtitleDatabase.and_then, SubtitleDatabase.pure, SubtitleDatabase.initialize.
  rewrite Hinit.
  unfold SubtitleStorage.connect, SubtitleStorage.init.
  cbn [SubtitleStorage._connected SubtitleStorage.db]. rewrite Hdown, Hup.
  cbn -[seconds].
  destruct (CacheManager.connect CacheManager.init redis') as [cached c] eqn:Ec.
  cbn -[seconds].
  eexists _, _, _, _. repeat split.
  - unfold CacheManager.connect in Ec.
    destruct (CacheManager.up redis'); inversion Ec; subst; cbn; rewrite ?app_nil_r;
      reflexivity.
  - eexists. repeat split.
Qed.

Lemma X20_a_store_that_comes_back :
  ending (fst (SubtitleDatabase.initialize_subtitle_system true store_down redis_down
                 SubtitleDatabase.init)) = Return false /\
  SubtitleDatabase._error_count after_failed_start = 1 /\
  ending (fst (SubtitleDatabase.initialize_subtitle_system true empty_server redis_down
                 after_failed_start)) = Return true.
Proof.
  unfold after_failed_start.
  destruct (X20_initialization_failure_and_recovery SubtitleDatabase.init store_down
              empty_server redis_down redis_down eq_refl eq_refl eq_refl)
    as (tr & self1 & tr' & self2 & E1 & _ & _ & _ & _ & _ & Hcount & _ & E2 & _).
  rewrite E1. cbn [fst snd ending]. rewrite E2, Hcount. repeat split.
Defined.

(** ** Cache store: counting requests *)

Lemma str_int_nonempty (n : Z) : truthy (Some (str_int n)) = true.
Proof.
  unfold truthy, str_int, NilZero.string_of_int.
  destruct (Z.to_int n) as [d|d]; [|reflexivity].
  unfold NilZero.string_of_uint. destruct d; reflexivity.
Qed.

(** One call on a counter that stands at [n], before it expires. *)
Lemma increment_counted `{CacheManager.Counters} (c : CacheManager.t) (srv : CacheManager.server)
    (now expires n ttl max_requests : Z) (identifier window : string) :
  CacheManager.redis_client c = Some srv -> CacheManager.up srv = true ->
  CacheManager.db srv !! counter_key c identifier window = Some (str_int n, expires) ->
  now < expires -> 1 <= n -> max_requests < 2 ^ 63 ->
  CacheManager.increment_rate_limit c now identifier window ttl max_requests
  = if max_requests <=? n then (ret (false, n), c)
    else (ret (true, n + 1),
          CacheManager.set_redis_client
            (Some (CacheManager.with_key (counter_key c identifier window)
                     (str_int (n + 1), expires) srv)) c).
Proof.
  intros Hc Hup Hkey Hnow Hn Hmax.
  unfold CacheManager.increment_rate_limit. rewrite Hc.
  fold (counter_key c identifier window).
  unfold CacheManager.redis_get. rewrite Hup, Hkey.
  apply Z.ltb_lt in Hnow. rewrite Hnow.
  cbn [ret]. rewrite str_int_nonempty. cbn [fmt]. rewrite CacheManager.py_int_str.
  destruct (max_requests <=? n) eqn:Hle; [reflexivity|].
  apply Z.leb_gt in Hle.
  unfold CacheManager.incr_and_expire, CacheManager.live. rewrite Hkey, Hnow.
  rewrite CacheManager.redis_incr_str by lia.
  replace (n =? 0) with false by (symmetry; apply Z.eqb_neq; lia).
  reflexivity.
Qed.

Lemma counter_key_kept (c : CacheManager.t) (client : option CacheManager.server)
    (identifier window : string) :
  counter_key (CacheManager.set_redis_client client c) identifier window
  = counter_key c identifier window.
Proof. reflexivity. Qed.

(** One call when the counter is not there, or has expired. *)
Lemma increment_fresh `{CacheManager.Counters} (c : CacheManager.t) (srv : CacheManager.server)
    (now ttl max_requests : Z) (identifier window : string) :
  CacheManager.redis_client c = Some srv -> CacheManager.up srv = true ->
  CacheManager.live srv now (counter_key c identifier window) = None ->
  0 < max_requests ->
  CacheManager.increment_rate_limit c now identifier window ttl max_requests
  = (ret (true, 1),
     CacheManager.set_redis_client
       (Some (CacheManager.with_key (counter_key c identifier window)
                (str_int 1, now + seconds ttl) srv)) c).
Proof.
  intros Hc Hup Hlive Hmax.
  unfold CacheManager.increment_rate_limit. rewrite Hc.
  fold (counter_key c identifier window).
  unfold CacheManager.redis_get. rewrite Hup.
  assert (Hget : match CacheManager.db srv !! counter_key c identifier window with
                 | Some (value, expires) => if now <? expires then Some value else None
                 | None => None
                 end = None).
  { unfold CacheManager.live in Hlive.
    destruct (CacheManager.db srv !! counter_key c identifier window) as [[v e]|];
      [|reflexivity].
    destruct (now <? e); [discriminate | reflexivity]. }
  rewrite Hget. cbn [ret truthy].
  replace (max_requests <=? 0) with false by (symmetry; apply Z.leb_gt; lia).
  unfold CacheManager.incr_and_expire. rewrite Hlive. reflexivity.
Qed.

(** The calls that follow the [done]-th of a window, before it ends. *)
Lemma increment_all_counted `{CacheManager.Counters} (identifier window : string)
    (ttl max_requests expires : Z) (times : list Z) :
  forall (c : CacheManager.t) (srv : CacheManager.server) (done : nat),
  CacheManager.redis_client c = Some srv -> CacheManager.up srv = true ->
  CacheManager.db srv !! counter_key c identifier window
    = Some (str_int (Z.min (Z.of_nat done) max_requests), expires) ->
  (1 <= done)%nat -> 0 < max_requests < 2 ^ 63 ->
  Forall (fun t => t < expires) times ->
  exists c' srv',
    increment_all c times identifier window ttl max_requests
      = (map (window_answer max_requests) (seq (S done) (length times)), c') /\
    CacheManager.redis_client c' = Some srv' /\ CacheManager.up srv' = true /\
    counter_key c' identifier window = counter_key c identifier window /\
    CacheManager.db srv' !! counter_key c identifier window
      = Some (str_int (Z.min (Z.of_nat (done + length times)) max_requests), expires).
Proof.
  induction times as [|now rest IH]; intros c srv done Hc Hup Hkey Hdone Hmax Htimes.
  - exists c, srv. cbn [increment_all length seq map]. rewrite Nat.add_0_r. auto.
  - inversion Htimes as [|? ? Hnow Hrest]; subst.
    cbn [increment_all].
    rewrite (increment_counted c srv now expires (Z.min (Z.of_nat done) max_requests)
               ttl max_requests identifier window Hc Hup Hkey Hnow) by lia.
    destruct (max_requests <=? Z.min (Z.of_nat done) max_requests) eqn:Hle.
    + apply Z.leb_le in Hle.
      destruct (IH c srv (S done)) as (c' & srv' & E & H1 & H2 & H3 & H4); auto.
      { rewrite Hkey.
        now replace (Z.min (Z.of_nat (S done)) max_requests)
          with (Z.min (Z.of_nat done) max_requests) by lia. }
      rewrite E. exists c', srv'. repeat split; auto.
      * cbn [length seq map]. do 2 f_equal.
        unfold window_answer.
        replace (Z.of_nat (S done) <=? max_requests) with false
          by (symmetry; apply Z.leb_gt; lia).
        now replace (Z.min (Z.of_nat done) max_requests) with max_requests by lia.
      * rewrite H4. cbn [length].
        now replace (S done + length rest)%nat with (done + S (length rest))%nat by lia.
    + apply Z.leb_gt in Hle.
      set (srv1 := CacheManager.with_key _ _ srv).
      set (c1 := CacheManager.set_redis_client (Some srv1) c).
      destruct (IH c1 srv1 (S done)) as (c' & srv' & E & H1 & H2 & H3 & H4); auto.
      { unfold c1, srv1. rewrite counter_key_kept. cbn [CacheManager.with_key CacheManager.db].
        rewrite lookup_insert_eq.
        now replace (Z.min (Z.of_nat (S done)) max_requests)
          with (Z.min (Z.of_nat done) max_requests + 1) by lia. }
      rewrite E. exists c', srv'. repeat split; auto.
      * cbn [length seq map]. do 2 f_equal.
        unfold window_answer.
        replace (Z.of_nat (S done) <=? max_requests) with true
          by (symmetry; apply Z.leb_le; lia).
        now replace (Z.min (Z.of_nat done) max_requests + 1) with (Z.of_nat (S done)) by lia.
      * unfold c1 in H4. rewrite counter_key_kept in H4. rewrite H4. cbn [length].
        now replace (S done + length rest)%nat with (done + S (length rest))%nat by lia.
Qed.

(** X21. The request counter of the cache is a fixed window. The first
    request for a key that is not there starts a window of [ttl]
    seconds; the requests made in it are answered in turn (True, 1),
    (True, 2), ... up to the limit and (False, limit) from then on. A
    request at or after the end of the window starts a new one. *)
Theorem X21_fixed_window_counter `{CacheManager.Counters}
    (c : CacheManager.t) (srv : CacheManager.server) (first later : Z) (rest : list Z)
    (identifier window : string) (ttl max_requests : Z) :
  CacheManager.redis_client c = Some srv -> CacheManager.up srv = true ->
  CacheManager.live srv first (counter_key c identifier window) = None ->
  0 < max_requests < 2 ^ 63 ->
  Forall (fun t => first <= t < first + seconds ttl) rest ->
  first + seconds ttl <= later ->
  let '(answers, c') := increment_all c (first :: rest) identifier window ttl max_requests in
  answers = map (window_answer max_requests) (seq 1 (S (length rest))) /\
  fst (CacheManager.increment_rate_limit c' later identifier window ttl max_requests)
  = ret (true, 1).
Proof.
  intros Hc Hup Hlive Hmax Hrest Hlater.
  cbn [increment_all].
  rewrite (increment_fresh c srv first ttl max_requests identifier window Hc Hup Hlive)
    by lia.
  set (srv1 := CacheManager.with_key _ _ srv).
  set (c1 := CacheManager.set_redis_client (Some srv1) c).
  destruct (increment_all_counted identifier window ttl max_requests (first + seconds ttl)
              rest c1 srv1 1) as (c' & srv' & E & H1 & H2 & H3 & H4); auto.
  - unfold c1, srv1. rewrite counter_key_kept. cbn [CacheManager.with_key CacheManager.db].
    rewrite lookup_insert_eq.
    now replace (Z.min (Z.of_nat 1) max_requests) with 1 by lia.
  - eapply Forall_impl; [exact Hrest|]. cbn. intros t Ht. lia.
  - rewrite E. split.
    + cbn [length seq map]. f_equal.
      unfold window_answer.
      replace (Z.of_nat 1 <=? max_requests) with true by (symmetry; apply Z.leb_le; lia).
      reflexivity.
    + rewrite (increment_fresh c' srv' later ttl max_requests identifier window H1 H2);
        [reflexivity| |lia].
      unfold CacheManager.live. rewrite H3.
      change (counter_key c1 identifier window) with (counter_key c identifier window) in *.
      rewrite H4.
      replace (later <? first + seconds ttl) with false by (symmetry; apply Z.ltb_ge; lia).
      reflexivity.
Qed.

Lemma X21_three_requests_with_a_limit_of_two :
  fst (increment_all (H := decimal_counters) connected_cache [0; 1; 2] "user" "minute" 60 2)
  = [ret (true, 1); ret (true, 2); ret (false, 2)].
Proof.
  pose proof (X21_fixed_window_counter (H := decimal_counters) connected_cache redis_empty
                0 (seconds 60) [1; 2] "user" "minute" 60 2 eq_refl eq_refl eq_refl) as H.
  destruct (increment_all (H := decimal_counters) connected_cache [0; 1; 2]
              "user" "minute" 60 2) as [answers c'].
  apply H.
  - lia.
  - repeat constructor; cbn; lia.
  - cbn; lia.
Defined.

(** X22. Request counting fails open. Without a reachable cache server
    every request is allowed and reported with count 0, the cache
    manager is left as it was, and the count read back is 0. *)
Theorem X22_request_counting_fails_open `{CacheManager.Counters}
    (c : CacheManager.t) (now : Z) (identifier window : string) (ttl max_requests : Z) :
  cache_unavailable c ->
  ending (fst (CacheManager.increment_rate_limit c now identifier window ttl max_requests))
    = Return (true, 0) /\
  snd (CacheManager.increment_rate_limit c now identifier window ttl max_requests) = c /\
  ending (CacheManager.get_rate_limit_count c now identifier window) = Return 0.
Proof.
  unfold cache_unavailable, CacheManager.increment_rate_limit,
    CacheManager.get_rate_limit_count, CacheManager.redis_get.
  destruct (CacheManager.redis_client c) as [srv|]; [|intros _; repeat split].
  intros ->. repeat split.
Qed.

Lemma X22_counting_against_a_server_that_is_down :
  ending (fst (CacheManager.increment_rate_limit (H := decimal_counters) cache_gone_down
                 0 "user" "minute" 60 0))
    = Return (true, 0) /\
  snd (CacheManager.increment_rate_limit (H := decimal_counters) cache_gone_down
         0 "user" "minute" 60 0) = cache_gone_down /\
  ending (CacheManager.get_rate_limit_count (H := decimal_counters) cache_gone_down
            0 "user" "minute") = Return 0.
Proof.
  exact (X22_request_counting_fails_open (H := decimal_counters) cache_gone_down
           0 "user" "minute" 60 0 eq_refl).
Defined.

(** ** Facade: searching and recording *)

Lemma new_document_duration (a b : SubtitleStorage.t) now m l data :
  SubtitleStorage.cache_duration a = SubtitleStorage.cache_duration b ->
  SubtitleStorage.new_document a now m l data = SubtitleStorage.new_document b now m l data.
Proof. intros E. unfold SubtitleStorage.new_document. now rewrite E. Qed.

(** The upserts of a whole list of results under one key. *)
Lemma upserts_keep_last (st : SubtitleStorage.t) (now : Z) (m l : string)
    (results : list search_result) : forall docs r,
  last results = Some r ->
  let docs' :=
    foldl (fun docs data =>
             SubtitleStorage.replace_one_upsert (SubtitleStorage.same_key m l)
               (SubtitleStorage.new_document st now m l data) docs) docs results in
  List.find (SubtitleStorage.same_key m l) docs'
    = Some (SubtitleStorage.new_document st now m l r) /\
  records_for m l docs' = Nat.max 1 (records_for m l docs).
Proof.
  induction results as [|data rest IH]; intros docs r Hlast; [discriminate|].
  cbn [foldl].
  destruct (replace_one_upsert_spec (SubtitleStorage.same_key m l)
              (SubtitleStorage.new_document st now m l data) docs
              (same_key_new_document st now m l data)) as [Hfind Hcount].
  destruct rest as [|data' rest'].
  - cbn in Hlast. inversion Hlast; subst r. cbn [foldl]. split; [exact Hfind | exact Hcount].
  - specialize (IH (SubtitleStorage.replace_one_upsert (SubtitleStorage.same_key m l)
                      (SubtitleStorage.new_document st now m l data) docs) r Hlast).
    cbn zeta in IH. destruct IH as [IH1 IH2]. split; [exact IH1|].
    rewrite IH2. unfold records_for. rewrite Hcount. lia.
Qed.

Lemma upserts_duration (a b : SubtitleStorage.t) (now : Z) (m l : string)
    (results : list search_result) : forall docs,
  SubtitleStorage.cache_duration a = SubtitleStorage.cache_duration b ->
  foldl (fun docs data =>
           SubtitleStorage.replace_one_upsert (SubtitleStorage.same_key m l)
             (SubtitleStorage.new_document a now m l data) docs) docs results
  = foldl (fun docs data =>
             SubtitleStorage.replace_one_upsert (SubtitleStorage.same_key m l)
               (SubtitleStorage.new_document b now m l data) docs) docs results.
Proof.
  induction results as [|data rest IH]; intros docs E; [reflexivity|].
  cbn [foldl]. rewrite (new_document_duration a b now m l data E). now apply IH.
Qed.

(** The loop over the results, on a store that is up. *)
Lemma store_results_spec (now : Z) (m l : string) (results : list search_result) :
  forall (self : SubtitleDatabase.t) (st : SubtitleStorage.t),
  SubtitleDatabase.storage self = Some st ->
  SubtitleStorage.up (SubtitleStorage.db st) = true ->
  exists tr st',
    SubtitleDatabase.store_results now m l results self
      = ((tr, Return tt),
         match results with [] => self | _ :: _ => SubtitleDatabase.set_storage st' self end) /\
    SubtitleStorage.up (SubtitleStorage.db st') = true /\
    SubtitleStorage.cache_duration st' = SubtitleStorage.cache_duration st /\
    SubtitleStorage.subtitles_metadata (SubtitleStorage.db st')
      = foldl (fun docs data =>
                 SubtitleStorage.replace_one_upsert (SubtitleStorage.same_key m l)
                   (SubtitleStorage.new_document st now m l data) docs)
              (SubtitleStorage.subtitles_metadata (SubtitleStorage.db st)) results.
Proof.
  induction results as [|data rest IH]; intros self st Hst Hup.
  - exists [], st. cbn. auto.
  - cbn [SubtitleDatabase.store_results foldl].
    unfold SubtitleDatabase.and_then, SubtitleDatabase.on_storage. rewrite Hst.
    destruct (store_subtitle_metadata_up st now m l data Hup) as (tr1 & st1 & E1).
    rewrite E1.
    destruct (store_subtitle_metadata_true st now m l data tr1 st1 E1)
      as (_ & Hup1 & Hdur1 & Hdocs1 & _).
    destruct (IH (SubtitleDatabase.set_storage st1 self) st1 eq_refl Hup1)
      as (tr2 & st2 & E2 & Hup2 & Hdur2 & Hdocs2).
    rewrite E2.
    exists (tr1 ++ tr2), (match rest with [] => st1 | _ :: _ => st2 end).
    destruct rest as [|data' rest'].
    + repeat split; try assumption.
    + repeat split; try assumption.
      * congruence.
      * rewrite Hdocs2, Hdocs1. now apply upserts_duration.
Qed.

Lemma get_search_results_returns `{CacheManager.Json} c now query language :
  exists tr found, CacheManager.get_search_results c now query language = (tr, Return found).
Proof.
  unfold CacheManager.get_search_results, CacheManager.redis_get.
  destruct (CacheManager.redis_client c) as [srv|]; [|eexists _, _; reflexivity].
  destruct (CacheManager.up srv); [|eexists _, _; reflexivity].
  match goal with |- context [ret ?d] => generalize d end.
  intros data. cbn [ret bind]. destruct (truthy data).
  - cbn [log emit bind]. unfold call.
    destruct (CacheManager.json_loads (fmt data)); eexists _, _; reflexivity.
  - eexists _, _; reflexivity.
Qed.

Lemma set_search_results_returns `{CacheManager.Json} c now query language results ttl :
  exists tr b c',
    CacheManager.set_search_results c now query language results ttl = ((tr, Return b), c').
Proof.
  unfold CacheManager.set_search_results, CacheManager.redis_setex.
  destruct (CacheManager.redis_client c) as [srv|]; [|eexists _, _, _; reflexivity].
  destruct (CacheManager.up srv); cbn; eexists _, _, _; reflexivity.
Qed.

(** The refused update writes nothing. *)
Lemma store_movie_subtitle_info_spec st now imdb_id title languages :
  exists tr st',
    SubtitleStorage.store_movie_subtitle_info st now imdb_id title languages
      = ((tr, Return false), st') /\
    SubtitleStorage.db st' = SubtitleStorage.db st /\
    SubtitleStorage.cache_duration st' = SubtitleStorage.cache_duration st.
Proof.
  unfold SubtitleStorage.store_movie_subtitle_info, SubtitleStorage.ensure_connected,
    SubtitleStorage.connect, SubtitleStorage.update_one_set_and_inc.
  destruct st as [conn dur srv]. cbn [SubtitleStorage._connected SubtitleStorage.db].
  destruct conn; [|destruct (SubtitleStorage.up srv)]; cbn; eexists _, _; repeat split.
Qed.

Lemma search_and_store_spec `{CacheManager.Json} env now movie_title imdb_id language file_hash
    self st c mgr tr mgr' results r :
  SubtitleDatabase.storage self = Some st ->
  SubtitleStorage.up (SubtitleStorage.db st) = true ->
  SubtitleDatabase.cache self = Some c ->
  SubtitleDatabase.api_manager self = Some mgr ->
  SubtitleAPIManager.search_subtitles mgr env movie_title imdb_id language file_hash
    = ((tr, Return results), mgr') ->
  last results = Some r ->
  exists tr' self' st',
    SubtitleDatabase.search_and_store env now movie_title imdb_id language file_hash self
      = ((tr', Return (SubtitleDatabase.Fresh results)), self') /\
    SubtitleDatabase.storage self' = Some st' /\
    SubtitleStorage.subtitles_metadata (SubtitleStorage.db st')
      = foldl (fun docs data =>
                 SubtitleStorage.replace_one_upsert
                   (SubtitleStorage.same_key (movie_key imdb_id movie_title) language)
                   (SubtitleStorage.new_document st now (movie_key imdb_id movie_title)
                      language data) docs)
              (SubtitleStorage.subtitles_metadata (SubtitleStorage.db st)) results /\
    SubtitleDatabase.cache self'
      = Some (snd (CacheManager.set_search_results c now movie_title language results None)) /\
    SubtitleDatabase._initialized self' = SubtitleDatabase._initialized self.
Proof.
  intros Hst Hup Hc Hmgr Hsearch Hlast.
  unfold SubtitleDatabase.search_and_store.
  unfold SubtitleDatabase.and_then at 1. unfold SubtitleDatabase.pure at 1. cbn [log emit].
  unfold SubtitleDatabase.and_then at 1. unfold SubtitleDatabase.on_api_manager.
  rewrite Hmgr, Hsearch.
  destruct results as [|data rest]; [discriminate|].
  set (self1 := SubtitleDatabase.set_api_manager mgr' self).
  fold (movie_key imdb_id movie_title).
  destruct (store_results_spec now (movie_key imdb_id movie_title) language (data :: rest)
              self1 st Hst Hup) as (tr2 & st2 & E2 & Hup2 & Hdur2 & Hdocs2).
  destruct (set_search_results_returns c now movie_title language (data :: rest) None)
    as (tr3 & b & c3 & E3).
  unfold SubtitleDatabase.and_then, SubtitleDatabase.pure. cbn [log emit].
  rewrite E2.
  unfold SubtitleDatabase.on_cache.
  cbn [SubtitleDatabase.cache SubtitleDatabase.set_storage self1
       SubtitleDatabase.set_api_manager].
  rewrite Hc, E3.
  destruct (truthy imdb_id).
  - unfold SubtitleDatabase.on_storage.
    cbn [SubtitleDatabase.storage SubtitleDatabase.set_cache SubtitleDatabase.set_storage].
    destruct (store_movie_subtitle_info_spec st2 now (fmt imdb_id) movie_title [language])
      as (tr4 & st4 & E4 & Hdb4 & _).
    rewrite E4. cbn [ret].
    eexists _, _, st4. split; [reflexivity|]. split; [reflexivity|].
    split; [now rewrite Hdb4, Hdocs2|]. split; reflexivity.
  - cbn [ret].
    eexists _, _, st2. split; [reflexivity|]. split; [reflexivity|].
    split; [exact Hdocs2|]. split; reflexivity.
Qed.

(** A search that misses the cache, on a facade that is ready. *)
Lemma search_miss_spec `{CacheManager.Json}
    env mongo redis now movie_title imdb_id language file_hash
    self st c mgr mgr' tr results r :
  SubtitleDatabase._initialized self = true ->
  SubtitleDatabase.storage self = Some st ->
  SubtitleStorage.up (SubtitleStorage.db st) = true ->
  SubtitleDatabase.cache self = Some c ->
  SubtitleDatabase.api_manager self = Some mgr ->
  cache_miss c now movie_title language ->
  SubtitleAPIManager.search_subtitles mgr env movie_title imdb_id language file_hash
    = ((tr, Return results), mgr') ->
  last results = Some r ->
  exists tr' self' st',
    SubtitleDatabase.search_and_cache_subtitles env mongo redis now movie_title imdb_id
      language file_hash self
      = ((tr', Return (SubtitleDatabase.Fresh results)), self') /\
    SubtitleDatabase.storage self' = Some st' /\
    SubtitleStorage.subtitles_metadata (SubtitleStorage.db st')
      = foldl (fun docs data =>
                 SubtitleStorage.replace_one_upsert
                   (SubtitleStorage.same_key (movie_key imdb_id movie_title) language)
                   (SubtitleStorage.new_document st now (movie_key imdb_id movie_title)
                      language data) docs)
              (SubtitleStorage.subtitles_metadata (SubtitleStorage.db st)) results /\
    SubtitleDatabase.cache self'
      = Some (snd (CacheManager.set_search_results c now movie_title language results None)) /\
    SubtitleDatabase._initialized self' = true.
Proof.
  intros Hinit Hst Hup Hc Hmgr Hmiss Hsearch Hlast.
  destruct (search_and_store_spec env now movie_title imdb_id language file_hash
              (SubtitleDatabase.set_cache c self) st c mgr tr mgr' results r
              Hst Hup eq_refl Hmgr Hsearch Hlast)
    as (tr' & self' & st' & E & Hst' & Hdocs & Hcache & Hinit').
  unfold SubtitleDatabase.search_and_cache_subtitles, SubtitleDatabase.ensure_initialized.
  unfold SubtitleDatabase.and_then at 1. rewrite Hinit. cbn [ret negb].
  unfold SubtitleDatabase.guarded.
  unfold SubtitleDatabase.and_then at 1. unfold SubtitleDatabase.on_cache.
  rewrite Hc.
  unfold cache_miss in Hmiss.
  destruct (get_search_results_returns c now movie_title language) as (tr0 & found & E0).
  rewrite E0 in Hmiss |- *. cbn [ending snd] in Hmiss.
  assert (Hgo : (match found with
                 | Some value =>
                     if CacheManager.json_truthy value
                     then SubtitleDatabase.and_then
                            (SubtitleDatabase.pure (log Debug' "Cache hit for search results"))
                            (fun _ => SubtitleDatabase.pure
                                        (ret (SubtitleDatabase.Cached value)))
                     else SubtitleDatabase.search_and_store env now movie_title imdb_id
                            language file_hash
                 | None => SubtitleDatabase.search_and_store env now movie_title imdb_id
                             language file_hash
                 end)
                = SubtitleDatabase.search_and_store env now movie_title imdb_id
                    language file_hash).
  { destruct found as [value|]; [now rewrite Hmiss | reflexivity]. }
  rewrite Hgo, E.
  exists ([] ++ tr0 ++ tr'), self', st'. split; [reflexivity|]. split; [exact Hst'|].
  split; [exact Hdocs|]. split; [exact Hcache|].
  rewrite Hinit'. exact Hinit.
Qed.

(** X23. A search that misses the cache and finds results returns them,
    and records every one of them in the store under the same (movie,
    language) key, the movie being the IMDb id when there is one and the
    title otherwise. Each record replaces the one before, so the store
    ends with the record of the last result of the list, and with as
    many records for the pair as before (one, if there was none). *)
Theorem X23_only_the_last_result_is_recorded `{CacheManager.Json}
    (env : SubtitleAPIManager.environment)
    (mongo : SubtitleStorage.server) (redis : CacheManager.server) (now : Z)
    (movie_title : string) (imdb_id : option string) (language : string)
    (file_hash : option string)
    (self : SubtitleDatabase.t) (st : SubtitleStorage.t) (c : CacheManager.t)
    (mgr mgr' : SubtitleAPIManager.t) (tr : list event)
    (results : list search_result) (r : search_result) :
  SubtitleDatabase._initialized self = true ->
  SubtitleDatabase.storage self = Some st ->
  SubtitleStorage.up (SubtitleStorage.db st) = true ->
  SubtitleDatabase.cache self = Some c ->
  SubtitleDatabase.api_manager self = Some mgr ->
  cache_miss c now movie_title language ->
  SubtitleAPIManager.search_subtitles mgr env movie_title imdb_id language file_hash
    = ((tr, Return results), mgr') ->
  last results = Some r ->
  exists tr' self' st',
    SubtitleDatabase.search_and_cache_subtitles env mongo redis now movie_title imdb_id
      language file_hash self
      = ((tr', Return (SubtitleDatabase.Fresh results)), self') /\
    SubtitleDatabase.storage self' = Some st' /\
    record_of (movie_key imdb_id movie_title) language st'
      = Some (SubtitleStorage.new_document st now (movie_key imdb_id movie_title) language r) /\
    records_for (movie_key imdb_id movie_title) language
      (SubtitleStorage.subtitles_metadata (SubtitleStorage.db st'))
      = Nat.max 1 (records_for (movie_key imdb_id movie_title) language
                     (SubtitleStorage.subtitles_metadata (SubtitleStorage.db st))).
Proof.
  intros Hinit Hst Hup Hc Hmgr Hmiss Hsearch Hlast.
  destruct (search_miss_spec env mongo redis now movie_title imdb_id language file_hash
              self st c mgr mgr' tr results r Hinit Hst Hup Hc Hmgr Hmiss Hsearch Hlast)
    as (tr' & self' & st' & E & Hst' & Hdocs & _).
  destruct (upserts_keep_last st now (movie_key imdb_id movie_title) language results
              (SubtitleStorage.subtitles_metadata (SubtitleStorage.db st)) r Hlast)
    as [Hfind Hcount].
  exists tr', self', st'. split; [exact E|]. split; [exact Hst'|].
  unfold record_of. rewrite Hdocs. split; [exact Hfind | exact Hcount].
Qed.

Lemma X23_three_results_one_record :
  map sr_id inception_found = [Val "1"; Val "2"; Val "3"] /\
  ending (fst inception_search) = Return (SubtitleDatabase.Fresh inception_found) /\
  match SubtitleDatabase.storage (snd inception_search) with
  | Some st' =>
      option_map SubtitleStorage.subtitle_id (record_of "tt1375666" "en" st') = Some (Some "3") /\
      records_for "tt1375666" "en"
        (SubtitleStorage.subtitles_metadata (SubtitleStorage.db st')) = 1%nat
  | None => False
  end.
Proof.
  split; [vm_compute; reflexivity|].
  destruct (X23_only_the_last_result_is_recorded (H := json_as_text) inception_env
              empty_server redis_down 0 "Inception" (Some "tt1375666") "en" None
              ready (SubtitleStorage.set_connected true (SubtitleStorage.init empty_server))
              CacheManager.init configured
              (snd (SubtitleAPIManager.search_subtitles configured inception_env
                      "Inception" (Some "tt1375666") "en" None))
              (events (fst (SubtitleAPIManager.search_subtitles configured inception_env
                              "Inception" (Some "tt1375666") "en" None)))
              inception_found
              (default bluray_result (last inception_found))
              eq_refl eq_refl eq_refl eq_refl eq_refl I)
    as (tr' & self' & st' & E & Hst' & Hrec & Hcount).
  - vm_compute. reflexivity.
  - vm_compute. reflexivity.
  - change (movie_key (Some "tt1375666") "Inception") with "tt1375666" in Hrec, Hcount.
    unfold inception_search. rewrite E. cbn [fst snd ending]. rewrite Hst', Hrec, Hcount.
    split; [reflexivity|]. split; vm_compute; reflexivity.
Defined.

(** ** Cache store: search results *)

(** What a successful [set_search_results] leaves, and what reads it. *)
Lemma search_results_written `{CacheManager.Json}
    (c : CacheManager.t) (srv : CacheManager.server) (now now' : Z)
    (query query' language : string) (results : list search_result) (ttl : option Z)
    (decoded : CacheManager.json) :
  CacheManager.redis_client c = Some srv ->
  CacheManager.up srv = true ->
  CacheManager.dumps_results results <> "" ->
  CacheManager.json_loads (CacheManager.dumps_results results) = Ok decoded ->
  lower query' = lower query ->
  fst (CacheManager.set_search_results c now query language results ttl)
    = ([EvLog Info' "Cached search results"], Return true) /\
  CacheManager.get_search_results
    (snd (CacheManager.set_search_results c now query language results ttl))
    now' query' language
  = if now' <? now + seconds (search_lifetime c ttl)
    then ([EvLog Info' "Cache hit for search results"], Return (Some decoded))
    else ([], Return None).
Proof.
  intros Hc Hup Htext Hloads Hquery.
  unfold CacheManager.set_search_results. rewrite Hc.
  fold (search_lifetime c ttl).
  unfold CacheManager.redis_setex. rewrite Hup. cbn [fst snd].
  split; [reflexivity|].
  unfold CacheManager.get_search_results, CacheManager.set_redis_client.
  cbn [CacheManager.redis_client]. rewrite Hquery.
  unfold CacheManager.redis_get. cbn [CacheManager.up CacheManager.db].
  match goal with |- context [<[ ?k := _ ]> _ !! ?k'] => change k' with k end.
  rewrite lookup_insert_eq. cbn [ret bind].
  destruct (now' <? now + seconds (search_lifetime c ttl)); [|reflexivity].
  assert (Ht : truthy (Some (CacheManager.dumps_results results)) = true).
  { cbn [truthy]. destruct (String.eqb_spec (CacheManager.dumps_results results) "");
      [contradiction | reflexivity]. }
  rewrite Ht. cbn [fmt log emit bind]. rewrite Hloads. reflexivity.
Qed.

(** X24. Search results written to the cache read back until their
    lifetime is over (the given TTL, by default 30 minutes), and not
    after. The query is compared in lower case: a query that differs from
    the one written only in the case of its letters reads the same
    entry. This holds for results whose JSON text decodes again. *)
Theorem X24_search_results_read_back `{CacheManager.Json}
    (c : CacheManager.t) (srv : CacheManager.server) (now now' : Z)
    (query query' language : string) (results : list search_result) (ttl : option Z)
    (decoded : CacheManager.json) :
  CacheManager.redis_client c = Some srv ->
  CacheManager.up srv = true ->
  0 < search_lifetime c ttl ->
  CacheManager.dumps_results results <> "" ->
  CacheManager.json_loads (CacheManager.dumps_results results) = Ok decoded ->
  lower query' = lower query ->
  let written := CacheManager.set_search_results c now query language results ttl in
  ending (fst written) = Return true /\
  ending (CacheManager.get_search_results (snd written) now' query' language)
    = Return (if now' <? now + seconds (search_lifetime c ttl) then Some decoded else None).
Proof.
  intros Hc Hup Httl Htext Hloads Hquery written. subst written.
  destruct (search_results_written c srv now now' query query' language results ttl decoded
              Hc Hup Htext Hloads Hquery) as [E1 E2].
  rewrite E1, E2. split; [reflexivity|].
  now destruct (now' <? now + seconds (search_lifetime c ttl)).
Qed.

Lemma X24_a_query_in_capitals :
  let written :=
    CacheManager.set_search_results (H := json_as_text) connected_cache 0 "Inception" "en"
      [bluray_result] None in
  ending (fst written) = Return true /\
  ending (CacheManager.get_search_results (H := json_as_text) (snd written) (seconds 1799)
            "INCEPTION" "en") = Return (Some "[...]") /\
  ending (CacheManager.get_search_results (H := json_as_text) (snd written) (seconds 1800)
            "INCEPTION" "en") = Return None.
Proof.
  assert (H : forall now',
    let written :=
      CacheManager.set_search_results (H := json_as_text) connected_cache 0 "Inception" "en"
        [bluray_result] None in
    ending (fst written) = Return true /\
    ending (CacheManager.get_search_results (H := json_as_text) (snd written) now'
              "INCEPTION" "en")
      = Return (if now' <? 0 + seconds (search_lifetime connected_cache None)
                then Some "[...]" else None)).
  { intros now'.
    apply (X24_search_results_read_back (H := json_as_text) connected_cache redis_empty 0 now'
             "Inception" "INCEPTION" "en" [bluray_result] None "[...]");
      [reflexivity | reflexivity | reflexivity | discriminate | reflexivity | reflexivity]. }
  split; [exact (proj1 (H 0))|].
  split; [exact (proj2 (H (seconds 1799))) | exact (proj2 (H (seconds 1800)))].
Defined.

(** X25. A search repeated while the cached results live is answered
    from the cache. After a search that found results and cached them, a
    search for the same title (letters in either case) and language,
    before the 30 minutes of the cache entry are over, returns the
    decoded cache entry: whatever the providers would answer, the
    provider clients and the store are left as they were. *)
Theorem X25_repeated_search_is_answered_from_the_cache `{CacheManager.Json}
    (env env' : SubtitleAPIManager.environment)
    (mongo mongo' : SubtitleStorage.server) (redis redis' : CacheManager.server)
    (now now' : Z) (movie_title movie_title' : string) (imdb_id imdb_id' : option string)
    (language : string) (file_hash file_hash' : option string)
    (self : SubtitleDatabase.t) (st : SubtitleStorage.t) (c : CacheManager.t)
    (srv : CacheManager.server) (mgr mgr' : SubtitleAPIManager.t) (tr : list event)
    (results : list search_result) (r : search_result) (decoded : CacheManager.json) :
  SubtitleDatabase._initialized self = true ->
  SubtitleDatabase.storage self = Some st ->
  SubtitleStorage.up (SubtitleStorage.db st) = true ->
  SubtitleDatabase.cache self = Some c ->
  CacheManager.redis_client c = Some srv ->
  CacheManager.up srv = true ->
  0 < CacheManager.search_ttl c ->
  SubtitleDatabase.api_manager self = Some mgr ->
  cache_miss c now movie_title language ->
  SubtitleAPIManager.search_subtitles mgr env movie_title imdb_id language file_hash
    = ((tr, Return results), mgr') ->
  last results = Some r ->
  CacheManager.dumps_results results <> "" ->
  CacheManager.json_loads (CacheManager.dumps_results results) = Ok decoded ->
  CacheManager.json_truthy decoded = true ->
  lower movie_title' = lower movie_title ->
  now <= now' < now + seconds (CacheManager.search_ttl c) ->
  let first :=
    SubtitleDatabase.search_and_cache_subtitles env mongo redis now movie_title imdb_id
      language file_hash self in
  let second :=
    SubtitleDatabase.search_and_cache_subtitles env' mongo' redis' now' movie_title' imdb_id'
      language file_hash' (snd first) in
  ending (fst first) = Return (SubtitleDatabase.Fresh results) /\
  ending (fst second) = Return (SubtitleDatabase.Cached decoded) /\
  SubtitleDatabase.storage (snd second) = SubtitleDatabase.storage (snd first) /\
  SubtitleDatabase.api_manager (snd second) = SubtitleDatabase.api_manager (snd first).
Proof.
  intros Hinit Hst Hup Hc Hsrv Hsrvup Httl Hmgr Hmiss Hsearch Hlast Htext Hloads Htruthy
    Htitle Hnow first second. subst second first.
  destruct (search_miss_spec env mongo redis now movie_title imdb_id language file_hash
              self st c mgr mgr' tr results r Hinit Hst Hup Hc Hmgr Hmiss Hsearch Hlast)
    as (tr' & self' & st' & E & Hst' & _ & Hcache & Hinit').
  rewrite E. cbn [fst snd ending]. split; [reflexivity|].
  destruct (search_results_written c srv now now' movie_title movie_title' language results
              None decoded Hsrv Hsrvup Htext Hloads Htitle) as [_ Hread].
  cbn [search_lifetime] in Hread.
  replace (now' <? now + seconds (CacheManager.search_ttl c)) with true in Hread
    by (symmetry; apply Z.ltb_lt; lia).
  assert (E2 : exists tr2,
    SubtitleDatabase.search_and_cache_subtitles env' mongo' redis' now' movie_title' imdb_id'
      language file_hash' self'
    = ((tr2, Return (SubtitleDatabase.Cached decoded)),
       SubtitleDatabase.set_cache
         (snd (CacheManager.set_search_results c now movie_title language results None))
         self')).
  { unfold SubtitleDatabase.search_and_cache_subtitles, SubtitleDatabase.ensure_initialized.
    unfold SubtitleDatabase.and_then at 1. rewrite Hinit'. cbn [ret negb].
    unfold SubtitleDatabase.guarded.
    unfold SubtitleDatabase.and_then at 1. unfold SubtitleDatabase.on_cache.
    rewrite Hcache, Hread, Htruthy.
    unfold SubtitleDatabase.and_then, SubtitleDatabase.pure. cbn.
    eexists. reflexivity. }
  destruct E2 as [tr2 E2]. rewrite E2. cbn. repeat split.
Qed.

Lemma X25_inception_asked_twice :
  ending (fst (SubtitleDatabase.search_and_cache_subtitles (H := json_as_text) inception_env
                 empty_server redis_empty 0 "Inception" (Some "tt1375666") "en" None
                 ready_with_cache))
    = Return (SubtitleDatabase.Fresh (H := json_as_text) inception_found) /\
  ending (fst (SubtitleDatabase.search_and_cache_subtitles (H := json_as_text)
                 (always (search_answers 500 [])) empty_server redis_empty (seconds 1799)
                 "INCEPTION" None "en" None
                 (snd (SubtitleDatabase.search_and_cache_subtitles (H := json_as_text)
                         inception_env empty_server redis_empty 0 "Inception"
                         (Some "tt1375666") "en" None ready_with_cache))))
    = Return (SubtitleDatabase.Cached (H := json_as_text) "[...]").
Proof.
  pose proof (X25_repeated_search_is_answered_from_the_cache (H := json_as_text)
                inception_env (always (search_answers 500 []))
                empty_server empty_server redis_empty redis_empty 0 (seconds 1799)
                "Inception" "INCEPTION" (Some "tt1375666") None "en" None None
                ready_with_cache
                (SubtitleStorage.set_connected true (SubtitleStorage.init empty_server))
                connected_cache redis_empty configured
                (snd (SubtitleAPIManager.search_subtitles configured inception_env
                        "Inception" (Some "tt1375666") "en" None))
                (events (fst (SubtitleAPIManager.search_subtitles configured inception_env
                                "Inception" (Some "tt1375666") "en" None)))
                inception_found
                (default bluray_result (last inception_found)) "[...]"
                eq_refl eq_refl eq_refl eq_refl eq_refl eq_refl eq_refl eq_refl I
                ltac:(vm_compute; reflexivity) ltac:(vm_compute; reflexivity)
                ltac:(vm_compute; discriminate) eq_refl ltac:(vm_compute; reflexivity)
                eq_refl ltac:(vm_compute; split; [discriminate | reflexivity])) as H.
  cbn zeta in H. split; [exact (proj1 H) | exact (proj1 (proj2 H))].
Defined.

(** ** Durable store: movie records *)

(** X26. [store_movie_subtitle_info] never stores anything. Its update
    sets and increments the same field, which the server refuses; so in
    every state of the storage the call answers False, logs the error
    and leaves every collection as it was. *)
Theorem X26_movie_info_is_never_stored (st : SubtitleStorage.t) (now : Z)
    (imdb_id title : string) (languages : list string) :
  let stored := SubtitleStorage.store_movie_subtitle_info st now imdb_id title languages in
  ending (fst stored) = Return false /\
  (exists reason,
     In ("Error storing movie subtitle info: " +:+ reason) (logged (fst stored))) /\
  SubtitleStorage.db (snd stored) = SubtitleStorage.db st.
Proof.
  unfold SubtitleStorage.store_movie_subtitle_info, SubtitleStorage.ensure_connected,
    SubtitleStorage.connect, SubtitleStorage.update_one_set_and_inc.
  destruct st as [conn dur srv]. cbn [SubtitleStorage._connected SubtitleStorage.db].
  destruct conn; [|destruct (SubtitleStorage.up srv) eqn:Hup]; cbn; repeat split.
  - eexists. left. reflexivity.
  - eexists. right. left. reflexivity.
  - eexists. do 4 right. left. reflexivity.
Qed.
